(** * Coine Cash Online: the server's transfer, password and routing code

    A shallow embedding of the Express server of the repository:
    - the tables of [shared/schema.ts] (users, transactions, otp_codes,
      api_keys) as lists of rows;
    - [DatabaseStorage] of [server/storage.ts] as operations on those rows;
    - the request handlers of [server/routes.ts], the middleware of
      [server/api-auth.ts] and the transfer handler of [server/index.ts];
    - Express's dispatch over the registered routes.

    JavaScript numbers are taken as exact integers ([Z]); the code computes
    on doubles, which agree with [Z] on safe integers ([safe_integer]
    below), and the theorems on computed balances say where they need
    that.  Timestamps other than the ones the code compares ([expiresAt])
    and [lastUsed] are left out of the rows: [createdAt], and [updatedAt],
    which every update of a users or api_keys row sets. *)

From Stdlib Require Import ZArith String Ascii List Bool Lia.
From ExtLib Require Import Structures.Monad.
Import ListNotations.
Import MonadNotation.

Local Open Scope string_scope.
Local Open Scope monad_scope.
Local Open Scope Z_scope.

(** ** Rows of [shared/schema.ts] *)

Record User := mkUser {
  u_id : Z;
  u_name : string;
  u_email : string;
  u_password : string;
  u_balance : Z;
  u_isVerified : bool;
  u_isAdmin : bool;
  u_isBlocked : bool
}.

Record Transaction := mkTransaction {
  t_id : Z;
  t_amount : Z;
  t_senderId : Z;
  t_receiverId : option Z;
  t_note : option string;
  t_status : string
}.

Record OtpCode := mkOtpCode {
  o_id : Z;
  o_userId : option Z;
  o_email : string;
  o_code : string;
  o_purpose : string;
  o_expiresAt : Z;
  o_isUsed : bool
}.

Record ApiKey := mkApiKey {
  k_id : Z;
  k_userId : Z;
  k_apiKey : string;
  k_active : bool;
  k_permissions : list string;
  k_lastUsed : option Z;
  k_expiresAt : option Z;
  k_ipRestrictions : option (list string)
}.

(** [Partial<User>] as [storage.updateUser] receives it. *)
Record UserPatch := mkPatch {
  p_name : option string;
  p_email : option string;
  p_password : option string;
  p_balance : option Z;
  p_isVerified : option bool
}.

Definition patch_balance (b : Z) : UserPatch := mkPatch None None None (Some b) None.
Definition patch_password (p : string) : UserPatch := mkPatch None None (Some p) None None.

(** [InsertTransaction & { senderId }]: the columns a handler supplies. *)
Record InsertTransaction := mkInsertTx {
  i_amount : Z;
  i_senderId : Z;
  i_receiverId : option Z;
  i_note : option string
}.

(** ** The world a handler runs in *)

Record Db := mkDb {
  users : list User;
  transactions : list Transaction;
  otpCodes : list OtpCode;
  apiKeys : list ApiKey;
  tx_seq : Z            (* next value of the serial transactions.id *)
}.

(** E-mails handed to [server/email.ts]. *)
Inductive Mail :=
| TransactionNotification (sender receiver : User) (amount : Z)
| LowBalanceWarning (user : User).

(** [faults] is the fault plan of the external calls: each awaited storage
    or e-mail call takes the head; [true] makes that call throw before it
    has any effect.  The empty plan injects no fault. *)
Record World := mkWorld {
  db : Db;
  now : Z;
  faults : list bool;
  outbox : list Mail
}.

Definition set_db (d : Db) (w : World) : World :=
  mkWorld d (now w) (faults w) (outbox w).
Definition set_faults (f : list bool) (w : World) : World :=
  mkWorld (db w) (now w) f (outbox w).
Definition set_users (us : list User) (d : Db) : Db :=
  mkDb us (transactions d) (otpCodes d) (apiKeys d) (tx_seq d).

(** ** Promises that may reject: state is kept when a call throws *)

Inductive Exn :=
| StorageError
| ZodError
| TypeError
| ReferenceError.

Inductive Res (A : Type) :=
| Val (a : A)
| Throw (e : Exn).
Arguments Val {A} a.
Arguments Throw {A} e.

Definition M (A : Type) : Type := World -> World * Res A.

Definition M_ret {A} (a : A) : M A := fun w => (w, Val a).
Definition M_bind {A B} (c : M A) (k : A -> M B) : M B :=
  fun w => match c w with
           | (w', Val a) => k a w'
           | (w', Throw e) => (w', Throw e)
           end.

#[export] Instance Monad_M : Monad M := {| ret := @M_ret; bind := @M_bind |}.

Definition throw {A} (e : Exn) : M A := fun w => (w, Throw e).

(** An awaited external call: consult the fault plan, then act. *)
Definition io {A} (op : World -> World * A) : M A :=
  fun w => match faults w with
           | true :: fs => (set_faults fs w, Throw StorageError)
           | false :: fs => let (w', a) := op (set_faults fs w) in (w', Val a)
           | [] => let (w', a) := op w in (w', Val a)
           end.

(** JavaScript truthiness of an optional string / number. *)
Definition truthy_str (s : option string) : bool :=
  match s with
  | Some s => negb (String.eqb s "")
  | None => false
  end.

Definition truthy_num (n : option Z) : bool :=
  match n with
  | Some n => negb (n =? 0)
  | None => false
  end.

(** [x || null] on an optional string. *)
Definition or_null (s : option string) : option string :=
  if truthy_str s then s else None.

(** ** [server/storage.ts]: queries on the rows *)

Definition select_user_by_id (id : Z) (us : list User) : option User :=
  head (filter (fun u => u_id u =? id) us).

Definition select_user_by_email (email : string) (us : list User) : option User :=
  head (filter (fun u => String.eqb (u_email u) email) us).

Definition opt_or {A} (o : option A) (d : A) : A :=
  match o with Some a => a | None => d end.

(** [.set({ ...data })] on one row. *)
Definition apply_patch (p : UserPatch) (u : User) : User :=
  mkUser (u_id u)
         (opt_or (p_name p) (u_name u))
         (opt_or (p_email p) (u_email u))
         (opt_or (p_password p) (u_password u))
         (opt_or (p_balance p) (u_balance u))
         (opt_or (p_isVerified p) (u_isVerified u))
         (u_isAdmin u)
         (u_isBlocked u).

(** [update users set ... where id = $id]. *)
Definition update_users (id : Z) (p : UserPatch) (us : list User) : list User :=
  map (fun u => if u_id u =? id then apply_patch p u else u) us.

Definition insert_transaction (data : InsertTransaction) (d : Db) : Db * Transaction :=
  let t := mkTransaction (tx_seq d) (i_amount data) (i_senderId data)
                         (i_receiverId data) (i_note data) "completed" in
  (mkDb (users d) (transactions d ++ [t]) (otpCodes d) (apiKeys d) (tx_seq d + 1), t).

Definition otp_matches (email code purpose : string) (t : Z) (o : OtpCode) : bool :=
  String.eqb (o_email o) email && String.eqb (o_code o) code
  && String.eqb (o_purpose o) purpose && negb (o_isUsed o) && (t <=? o_expiresAt o).

Definition select_otp (email code purpose : string) (t : Z) (os : list OtpCode)
  : option OtpCode :=
  head (filter (otp_matches email code purpose t) os).

Definition mark_otp_used (id : Z) (os : list OtpCode) : list OtpCode :=
  map (fun o => if o_id o =? id
                then mkOtpCode (o_id o) (o_userId o) (o_email o) (o_code o)
                               (o_purpose o) (o_expiresAt o) true
                else o) os.

Definition select_api_key (key : string) (ks : list ApiKey) : option ApiKey :=
  head (filter (fun k => String.eqb (k_apiKey k) key) ks).

Definition mark_key_used (id t : Z) (ks : list ApiKey) : list ApiKey :=
  map (fun k => if k_id k =? id
                then mkApiKey (k_id k) (k_userId k) (k_apiKey k) (k_active k)
                              (k_permissions k) (Some t) (k_expiresAt k)
                              (k_ipRestrictions k)
                else k) ks.

(** Lift a statement on the database to an awaited call. *)
Definition storage {A} (f : Db -> Db * A) : M A :=
  io (fun w => let (d, a) := f (db w) in (set_db d w, a)).

Definition getUser (id : Z) : M (option User) :=
  storage (fun d => (d, select_user_by_id id (users d))).

Definition getUserByEmail (email : string) : M (option User) :=
  storage (fun d => (d, select_user_by_email email (users d))).

Definition createTransaction (data : InsertTransaction) : M Transaction :=
  storage (insert_transaction data).

Definition getOtpCode (email code purpose : string) : M (option OtpCode) :=
  io (fun w => (w, select_otp email code purpose (now w) (otpCodes (db w)))).

Definition markOtpAsUsed (id : Z) : M unit :=
  storage (fun d => (mkDb (users d) (transactions d) (mark_otp_used id (otpCodes d))
                          (apiKeys d) (tx_seq d), tt)).

Definition getApiKey (key : string) : M (option ApiKey) :=
  storage (fun d => (d, select_api_key key (apiKeys d))).

Definition markApiKeyAsUsed (id : Z) : M unit :=
  io (fun w => let d := db w in
               (set_db (mkDb (users d) (transactions d) (otpCodes d)
                             (mark_key_used id (now w) (apiKeys d)) (tx_seq d)) w, tt)).

(** ** [server/email.ts]: [DISABLE_EMAILS] is [false], the mail is handed over *)

Definition send (m : Mail) : M unit :=
  io (fun w => (mkWorld (db w) (now w) (faults w) (outbox w ++ [m]), tt)).

Definition sendTransactionNotificationEmail (sender receiver : User) (amount : Z) : M unit :=
  send (TransactionNotification sender receiver amount).

Definition sendLowBalanceWarningEmail (user : User) : M unit :=
  send (LowBalanceWarning user).

(** [{ ...sender, balance: b }] *)
Definition with_balance (u : User) (b : Z) : User :=
  mkUser (u_id u) (u_name u) (u_email u) (u_password u) b
         (u_isVerified u) (u_isAdmin u) (u_isBlocked u).

(** ** JavaScript numbers

    [balance] and [amount] are doubles in the code.  On integers up to
    [Number.MAX_SAFE_INTEGER] in absolute value, [+], [-] and [<] of the
    code give what they give in [Z], as long as the result of [+] or [-]
    is again such an integer. *)

Definition MAX_SAFE_INTEGER : Z := 2 ^ 53 - 1.

(** [Number.isSafeInteger] on an integer. *)
Definition safe_integer (z : Z) : Prop :=
  - MAX_SAFE_INTEGER <= z <= MAX_SAFE_INTEGER.

(** ** Observations on a world *)

Definition balance_of (id : Z) (w : World) : option Z :=
  option_map u_balance (select_user_by_id id (users (db w))).

Definition total_balance (us : list User) : Z :=
  fold_right (fun u acc => u_balance u + acc) 0 us.

(** The primary key of [users]: no two rows share an id. *)
Definition ids_unique (us : list User) : Prop := NoDup (map u_id us).

Definition with_users (us : list User) (w : World) : World :=
  set_db (set_users us (db w)) w.

(** The state a transfer of [amount] from [sender] to [receiver] leaves:
    both rows rewritten, one transaction appended. *)
Definition transferred (sender receiver : User) (amount : Z) (t : Transaction)
           (o : list Mail) (w : World) : World :=
  mkWorld
    (mkDb (update_users (u_id receiver) (patch_balance (u_balance receiver + amount))
             (update_users (u_id sender) (patch_balance (u_balance sender - amount))
                (users (db w))))
          (transactions (db w) ++ [t]) (otpCodes (db w)) (apiKeys (db w))
          (tx_seq (db w) + 1))
    (now w) [] o.

(** ** Requests and responses *)

Inductive Method := GET | POST | PATCH.

Definition method_eqb (a b : Method) : bool :=
  match a, b with
  | GET, GET | POST, POST | PATCH, PATCH => true
  | _, _ => false
  end.

(** The JSON body after [express.json()]: the keys the handlers read.  A
    key is [None] when the body lacks it; a key that is present holds a
    value of the type given here (for [amount] and [balance], a number with
    an integer value).  The handlers that read [req.body] without a schema
    do not check these types; bodies with other types are not modelled. *)
Record Body := mkBody {
  b_senderEmail : option string;
  b_receiverEmail : option string;
  b_to : option string;
  b_amount : option Z;
  b_password : option string;
  b_note : option string;
  b_email : option string;
  b_code : option string;
  b_newPassword : option string;
  b_name : option string;
  b_balance : option Z
}.

Definition empty_body : Body :=
  mkBody None None None None None None None None None None None.

(** [req_user] is [req.user] as the session layer set it ([None] when
    [req.isAuthenticated()] is false); [req_apiKey] is the property that
    [validateApiKey] adds. *)
Record Request := mkRequest {
  req_method : Method;
  req_path : string;
  req_authorization : option string;
  req_x_api_key : option string;
  req_ip : string;
  req_user : option User;
  req_apiKey : option ApiKey;
  req_body : Body
}.

Inductive Json :=
| JMessage (message : string)
| JVerificationRequired (message : string)
| JError (error : string)
| JErrorMessage (error message : string)
| JApiMessage (success : bool) (message : string)
| JPassword (password : string)
| JTransaction (message : string) (transaction : Transaction)
| JTransactionBalance (message : string) (transaction : Transaction) (currentBalance : Z)
| JApiTransaction (message : string) (id amount : Z) (receiverEmail : string)
                  (note : option string) (currentBalance : Z)
| JExternalTransfer (amount : Z) (senderEmail to : string)
                    (senderBalance receiverBalance : Z)
| JUser (user : User).      (* the row without its password *)

Record Response := mkResponse {
  status : Z;
  json : Json
}.

(** What a middleware or handler does with a request: call [next()],
    send the response, call [next(error)], or reject with nobody
    catching. *)
Inductive Step :=
| Next (req : Request)
| Send (res : Response)
| NextError (e : Exn)
| Rejected (e : Exn).

Definition Middleware : Type := Request -> World -> World * Step.

(** [try { ... } catch (error) { next(error) }] around a handler body. *)
Definition catch_next (h : M Response) : World -> World * Step :=
  fun w => match h w with
           | (w', Val r) => (w', Send r)
           | (w', Throw e) => (w', NextError e)
           end.

(** A handler body with no [try] around it. *)
Definition no_catch (h : M Response) : World -> World * Step :=
  fun w => match h w with
           | (w', Val r) => (w', Send r)
           | (w', Throw e) => (w', Rejected e)
           end.

(** [try { ... } catch (error) { res.status(500).json(body) }]. *)
Definition catch_500 (body : Json) (h : M Step) : World -> World * Step :=
  fun w => match h w with
           | (w', Val s) => (w', s)
           | (w', Throw _) => (w', Send (mkResponse 500 body))
           end.

Definition respond (code : Z) (body : Json) : M Response :=
  ret (mkResponse code body).

(** ** [server/routes.ts]: the authentication middleware *)

Definition isAuthenticated : Middleware := fun req w =>
  match req_user req with
  | Some u =>
      if negb (u_isVerified u)
      then (w, Send (mkResponse 403 (JVerificationRequired "Email verification required")))
      else (w, Next req)
  | None => (w, Send (mkResponse 401 (JMessage "Unauthorized")))
  end.

Definition isAdmin : Middleware := fun req w =>
  match req_user req with
  | Some u =>
      if u_isAdmin u then (w, Next req)
      else (w, Send (mkResponse 403 (JMessage "Forbidden: Admin access required")))
  | None => (w, Send (mkResponse 403 (JMessage "Forbidden: Admin access required")))
  end.

(** The body of [/api/transactions/send-money] at the [SendMoney] type: the
    handler reads [req.body] as it is and checks none of its fields.  A
    body that lacks [receiverEmail], [amount] or [password], or holds a
    value of another type there, is not modelled. *)
Record SendMoney := mkSendMoney {
  sm_receiverEmail : string;
  sm_amount : Z;
  sm_note : option string;
  sm_password : string
}.

Section Server.

(** [hashPassword] and [comparePasswords] of [server/auth.ts], the
    e-mail test of zod and the value of [VALID_API_KEY] (the environment's
    [COINE_API_KEY], or the default of [server/index.ts]) are parameters.
    The two password functions are awaited in the code; they are taken as
    pure here and no fault is injected into them. *)
Variable hashPassword : string -> string.
Variable comparePasswords : string -> string -> bool.
Variable is_email : string -> bool.
Variable VALID_API_KEY : string.

(** *** [storage.updateUser]: a password in [data] is hashed first *)

Definition updateUser (id : Z) (data : UserPatch) : M (option User) :=
  let data :=
    if truthy_str (p_password data)
    then mkPatch (p_name data) (p_email data)
                 (option_map hashPassword (p_password data))
                 (p_balance data) (p_isVerified data)
    else data in
  storage (fun d =>
    let us := update_users id data (users d) in
    (set_users us d, select_user_by_id id us)).

(** *** POST /api/reset-password *)

Definition updatePasswordSchema (b : Body) : M (string * string * string) :=
  match b_email b, b_code b, b_newPassword b with
  | Some email, Some code, Some newPassword =>
      if is_email email && (Z.of_nat (String.length code) =? 6)
         && (8 <=? Z.of_nat (String.length newPassword))
      then ret (email, code, newPassword)
      else throw ZodError
  | _, _, _ => throw ZodError
  end.

Definition reset_password (req : Request) : M Response :=
  '(email, code, newPassword) <- updatePasswordSchema (req_body req) ;;
  otpCode <- getOtpCode email code "password-reset" ;;
  match otpCode with
  | None => respond 400 (JMessage "Invalid or expired OTP")
  | Some otpCode =>
      if negb (truthy_num (o_userId otpCode))
      then respond 400 (JMessage "No user associated with this OTP")
      else
        markOtpAsUsed (o_id otpCode) ;;
        updateUser (opt_or (o_userId otpCode) 0) (patch_password newPassword) ;;
        respond 200 (JMessage "Password reset successfully")
  end.

(** *** GET /api/user/password *)

Definition get_user_password (req : Request) : M Response :=
  match req_user req with
  | None => respond 401 (JMessage "Unauthorized")
  | Some caller =>
      user <- getUser (u_id caller) ;;
      match user with
      | None => respond 404 (JMessage "User not found")
      | Some user =>
          if u_isAdmin user
          then respond 200 (JPassword (u_password user))
          else respond 200 (JPassword "Only admin users can view password hashes")
      end
  end.

(** *** PATCH /api/profile *)

Definition updateProfileSchema (b : Body) : M (option string * option string * option string) :=
  let ok_name := match b_name b with
                 | Some n => 2 <=? Z.of_nat (String.length n) | None => true end in
  let ok_email := match b_email b with Some e => is_email e | None => true end in
  let ok_new := match b_newPassword b with
                | Some p => 8 <=? Z.of_nat (String.length p) | None => true end in
  if ok_name && ok_email && ok_new
  then ret (b_name b, b_email b, b_newPassword b)
  else throw ZodError.

Definition patch_profile (user : User) (req : Request) : M Response :=
  '(name, email, newPassword) <- updateProfileSchema (req_body req) ;;
  taken <-
    (if truthy_str email && negb (String.eqb (opt_or email "") (u_email user))
     then existingUser <- getUserByEmail (opt_or email "") ;;
          ret (match existingUser with Some _ => true | None => false end)
     else ret false) ;;
  if (taken : bool)
  then respond 400 (JMessage "Email already in use")
  else
    let password :=
      if truthy_str newPassword then option_map hashPassword newPassword else None in
    updatedUser <- updateUser (u_id user) (mkPatch name email password None None) ;;
    match updatedUser with
    | None => respond 404 (JMessage "User not found")
    | Some updatedUser => respond 200 (JUser updatedUser)
    end.

(** *** POST /api/transactions/send-money *)

Definition send_money (sender : User) (data : SendMoney) : M Response :=
  receiver <- getUserByEmail (sm_receiverEmail data) ;;
  match receiver with
  | None => respond 404 (JMessage "Receiver not found")
  | Some receiver =>
      if u_id sender =? u_id receiver
      then respond 400 (JMessage "Cannot send money to yourself")
      else if u_balance sender <? sm_amount data
      then respond 400 (JMessage "Insufficient balance")
      else if negb (comparePasswords (sm_password data) (u_password sender))
      then respond 401 (JMessage "Incorrect password")
      else
        transaction <- createTransaction
                         (mkInsertTx (sm_amount data) (u_id sender)
                                     (Some (u_id receiver)) (or_null (sm_note data))) ;;
        updateUser (u_id sender) (patch_balance (u_balance sender - sm_amount data)) ;;
        updateUser (u_id receiver) (patch_balance (u_balance receiver + sm_amount data)) ;;
        sendTransactionNotificationEmail sender receiver (sm_amount data) ;;
        (if u_balance sender - sm_amount data <? 1000
         then sendLowBalanceWarningEmail
                (with_balance sender (u_balance sender - sm_amount data))
         else ret tt) ;;
        respond 201 (JTransaction "Transaction successful" transaction)
  end.

(** *** POST /api/user/transfer *)

Definition user_transfer (sender : User) (b : Body) : M Response :=
  if negb (truthy_str (b_receiverEmail b)) || negb (truthy_num (b_amount b))
     || negb (truthy_str (b_password b))
  then respond 400 (JMessage "Receiver email, amount and password are required")
  else
    let receiverEmail := opt_or (b_receiverEmail b) "" in
    let amount := opt_or (b_amount b) 0 in
    let password := opt_or (b_password b) "" in
    receiver <- getUserByEmail receiverEmail ;;
    match receiver with
    | None => respond 404 (JMessage "Receiver not found")
    | Some receiver =>
        if u_id sender =? u_id receiver
        then respond 400 (JMessage "Cannot send money to yourself")
        else if u_balance sender <? amount
        then respond 400 (JMessage "Insufficient balance")
        else if negb (comparePasswords password (u_password sender))
        then respond 401 (JMessage "Incorrect password")
        else
          transaction <- createTransaction
                           (mkInsertTx amount (u_id sender) (Some (u_id receiver))
                                       (or_null (b_note b))) ;;
          updateUser (u_id sender) (patch_balance (u_balance sender - amount)) ;;
          updateUser (u_id receiver) (patch_balance (u_balance receiver + amount)) ;;
          sendTransactionNotificationEmail sender receiver amount ;;
          (if u_balance sender - amount <? 1000
           then sendLowBalanceWarningEmail (with_balance sender (u_balance sender - amount))
           else ret tt) ;;
          respond 201 (JTransactionBalance "Transaction successful" transaction
                                           (u_balance sender - amount))
    end.

(** *** POST /api/transfer, registered in [registerRoutes] behind
    [isAuthenticated] *)

Definition session_transfer (sender : User) (b : Body) : M Response :=
  if negb (truthy_str (b_senderEmail b)) || negb (truthy_str (b_receiverEmail b))
     || negb (truthy_num (b_amount b))
  then respond 400 (JErrorMessage "Invalid input"
                      "Sender email, receiver email, and amount are required")
  else
    let senderEmail := opt_or (b_senderEmail b) "" in
    let receiverEmail := opt_or (b_receiverEmail b) "" in
    let amount := opt_or (b_amount b) 0 in
    if negb (String.eqb senderEmail (u_email sender))
    then respond 403 (JErrorMessage "Invalid input"
                        "Sender email does not match authenticated user")
    else
      receiver <- getUserByEmail receiverEmail ;;
      match receiver with
      | None => respond 404 (JErrorMessage "Receiver not found"
                               "Receiver email not found in our records")
      | Some receiver =>
          if u_id sender =? u_id receiver
          then respond 400 (JErrorMessage "Invalid input" "Cannot send money to yourself")
          else if u_balance sender <? amount
          then respond 400 (JErrorMessage "Insufficient balance"
                              "You do not have enough balance to complete this transaction")
          else
            updateUser (u_id sender) (patch_balance (u_balance sender - amount)) ;;
            updateUser (u_id receiver) (patch_balance (u_balance receiver + amount)) ;;
            transaction <- createTransaction
                             (mkInsertTx amount (u_id sender) (Some (u_id receiver))
                                         (or_null (b_note b))) ;;
            sendTransactionNotificationEmail sender receiver amount ;;
            (if u_balance sender - amount <? 1000
             then sendLowBalanceWarningEmail
                    (with_balance sender (u_balance sender - amount))
             else ret tt) ;;
            respond 201 (JTransaction "Transfer successful" transaction)
      end.

(** *** PATCH /api/admin/users/:id/balance *)

Definition admin_update_balance (userId : Z) (b : Body) : M Response :=
  match b_balance b with
  | None => respond 400 (JMessage "Balance must be a positive number")
  | Some balance =>
      if balance <? 0
      then respond 400 (JMessage "Balance must be a positive number")
      else
        user <- updateUser userId (patch_balance balance) ;;
        match user with
        | None => respond 404 (JMessage "User not found")
        | Some user => respond 200 (JUser user)
        end
  end.

(** *** [server/api-auth.ts] *)

Definition clock : M Z := fun w => (w, Val (now w)).

Definition api_reply (code : Z) (message : string) : M Step :=
  ret (Send (mkResponse code (JApiMessage false message))).

Definition validateApiKey : Middleware := fun req =>
  catch_500 (JApiMessage false "Internal server error during API key validation")
    (if negb (truthy_str (req_x_api_key req))
     then api_reply 401 "API key is required"
     else
       apiKeyData <- getApiKey (opt_or (req_x_api_key req) "") ;;
       match apiKeyData with
       | None => api_reply 401 "Invalid API key"
       | Some apiKeyData =>
           if negb (k_active apiKeyData)
           then api_reply 403 "This API key has been deactivated"
           else
             t <- clock ;;
             if match k_expiresAt apiKeyData with
                | Some e => e <? t
                | None => false
                end
             then api_reply 403 "This API key has expired"
             else if match k_ipRestrictions apiKeyData with
                     | Some ips => (0 <? Z.of_nat (length ips))
                                   && negb (existsb (String.eqb (req_ip req)) ips)
                     | None => false
                     end
             then api_reply 403 "Access denied from this IP address"
             else
               user <- getUser (k_userId apiKeyData) ;;
               match user with
               | None => api_reply 403 "User associated with this API key not found"
               | Some user =>
                   if u_isBlocked user
                   then api_reply 403 "User associated with this API key is blocked"
                   else if negb (u_isVerified user)
                   then api_reply 403 "User account not verified"
                   else
                     markApiKeyAsUsed (k_id apiKeyData) ;;
                     ret (Next (mkRequest (req_method req) (req_path req)
                                          (req_authorization req) (req_x_api_key req)
                                          (req_ip req) (Some user) (Some apiKeyData)
                                          (req_body req)))
               end
       end).

Definition checkApiKeyPermission (requiredPermission : string) : Middleware :=
  fun req w =>
    match req_apiKey req with
    | None =>
        (w, Send (mkResponse 500 (JApiMessage false
           "Internal server error: API key validation middleware not called")))
    | Some apiKey =>
        if existsb (String.eqb requiredPermission) (k_permissions apiKey)
        then (w, Next req)
        else (w, Send (mkResponse 403 (JApiMessage false
                ("This API key doesn't have the required '" ++ requiredPermission
                 ++ "' permission"))))
    end.

(** *** POST /api/transfer, registered in [registerRoutes] behind
    [validateApiKey] and [checkApiKeyPermission("transfer")]

    The schema has no [sendNotification] key and zod drops unknown keys,
    so [data.sendNotification !== false] always holds and the
    notification is always sent. *)

Definition apiKeyTransferSchema (b : Body) : M (string * Z * option string) :=
  match b_receiverEmail b, b_amount b with
  | Some receiverEmail, Some amount =>
      if is_email receiverEmail && (0 <? amount)
      then ret (receiverEmail, amount, b_note b)
      else throw ZodError
  | _, _ => throw ZodError
  end.

Definition api_key_transfer (sender : User) (b : Body) : M Response :=
  '(receiverEmail, amount, note) <- apiKeyTransferSchema b ;;
  receiver <- getUserByEmail receiverEmail ;;
  match receiver with
  | None => respond 404 (JApiMessage false "Receiver not found")
  | Some receiver =>
      if u_id sender =? u_id receiver
      then respond 400 (JApiMessage false "Cannot send money to yourself")
      else if u_balance sender <? amount
      then respond 400 (JApiMessage false "Insufficient balance")
      else
        transaction <- createTransaction
                         (mkInsertTx amount (u_id sender) (Some (u_id receiver))
                                     (Some (if truthy_str note then opt_or note ""
                                            else "API Transaction"))) ;;
        updateUser (u_id sender) (patch_balance (u_balance sender - amount)) ;;
        updateUser (u_id receiver) (patch_balance (u_balance receiver + amount)) ;;
        sendTransactionNotificationEmail sender receiver amount ;;
        (if u_balance sender - amount <? 1000
         then sendLowBalanceWarningEmail (with_balance sender (u_balance sender - amount))
         else ret tt) ;;
        respond 201 (JApiTransaction "Transaction successful" (t_id transaction)
                       (t_amount transaction) (u_email receiver) (t_note transaction)
                       (u_balance sender - amount))
  end.

(** *** POST /api/transfer of [server/index.ts], registered on the app
    before [registerRoutes] runs *)

(** [s.split(" ")] *)
Fixpoint split_space (s : string) : list string :=
  match s with
  | EmptyString => [EmptyString]
  | String c rest =>
      if Ascii.eqb c " "%char
      then EmptyString :: split_space rest
      else match split_space rest with
           | piece :: pieces => String c piece :: pieces
           | [] => [String c EmptyString]
           end
  end.

(** [authHeader && authHeader.split(" ")[1]] *)
Definition bearer_token (authHeader : option string) : option string :=
  match authHeader with
  | None => None
  | Some h => if String.eqb h "" then Some "" else nth_error (split_space h) 1
  end.

Definition index_transfer : Middleware := fun req =>
  if negb (match bearer_token (req_authorization req) with
           | Some token => String.eqb token VALID_API_KEY
           | None => false
           end)
  then fun w => (w, Send (mkResponse 403 (JError "Invalid API Key")))
  else
    let b := req_body req in
    catch_500 (JError "Something went wrong")
      (if negb (truthy_str (b_senderEmail b)) || negb (truthy_str (b_to b))
          || negb (truthy_num (b_amount b))
       then ret (Send (mkResponse 400 (JError "Invalid input")))
       else
         let senderEmail := opt_or (b_senderEmail b) "" in
         let to := opt_or (b_to b) "" in
         let amount := opt_or (b_amount b) 0 in
         sender <- getUserByEmail senderEmail ;;
         receiver <- getUserByEmail to ;;
         match sender, receiver with
         | None, _ => ret (Send (mkResponse 404 (JError "Sender not found")))
         | Some _, None => ret (Send (mkResponse 404 (JError "Receiver not found")))
         | Some sender, Some receiver =>
             if u_balance sender <? amount
             then ret (Send (mkResponse 400 (JError "Insufficient balance")))
             else
               updateUser (u_id sender) (patch_balance (u_balance sender - amount)) ;;
               updateUser (u_id receiver) (patch_balance (u_balance receiver + amount)) ;;
               createTransaction
                 (mkInsertTx amount (u_id sender) (Some (u_id receiver))
                             (Some "External transfer via API")) ;;
               ret (Send (mkResponse 200
                      (JExternalTransfer amount senderEmail to
                         (u_balance sender - amount) (u_balance receiver + amount))))
         end).

(** ** Express: routes in registration order *)

Inductive Label :=
| L_index_transfer
| L_isAuthenticated
| L_reset_password
| L_get_user_password
| L_patch_profile
| L_user_transfer
| L_session_transfer
| L_validateApiKey
| L_checkApiKeyPermission
| L_api_key_transfer.

Record Route := mkRoute {
  r_method : Method;
  r_path : string;
  r_stack : list (Label * Middleware)
}.

(** How Express matches the path of a request against the path a route
    was registered with, with the router's defaults ([caseSensitive] and
    [strict] off): letters match without regard to case, and one trailing
    slash of the request path is let through. *)
Definition lower_ascii (c : ascii) : ascii :=
  let n := nat_of_ascii c in
  if (65 <=? n)%nat && (n <=? 90)%nat then ascii_of_nat (n + 32) else c.

Fixpoint lower_string (s : string) : string :=
  match s with
  | EmptyString => EmptyString
  | String c rest => String (lower_ascii c) (lower_string rest)
  end.

Definition path_matches (pattern path : string) : bool :=
  String.eqb (lower_string pattern) (lower_string path)
  || String.eqb (lower_string pattern ++ "/") (lower_string path).

(** A handler that reads [req.user] where the session layer left none
    throws inside its [try]. *)
Definition with_user (h : User -> Request -> M Response) (req : Request) : M Response :=
  match req_user req with
  | Some u => h u req
  | None => throw TypeError
  end.

(** The stack of GET /api/user/password. *)
Definition user_password_stack : list (Label * Middleware) :=
  [(L_isAuthenticated, isAuthenticated);
   (L_get_user_password, fun req => no_catch (get_user_password req))].

(** The routes that [registerRoutes] adds, in its order; the routes for
    other paths that are not modelled here are left out. *)
Definition registerRoutes : list Route :=
  [ mkRoute POST "/api/reset-password"
      [(L_reset_password, fun req => catch_next (reset_password req))];
    mkRoute GET "/api/user/password" user_password_stack;
    mkRoute PATCH "/api/profile"
      [(L_isAuthenticated, isAuthenticated);
       (L_patch_profile, fun req => catch_next (with_user patch_profile req))];
    mkRoute POST "/api/user/transfer"
      [(L_isAuthenticated, isAuthenticated);
       (L_user_transfer,
        fun req => catch_next (with_user (fun u r => user_transfer u (req_body r)) req))];
    mkRoute POST "/api/transfer"
      [(L_isAuthenticated, isAuthenticated);
       (L_session_transfer,
        fun req => catch_next (with_user (fun u r => session_transfer u (req_body r)) req))];
    mkRoute POST "/api/transfer"
      [(L_validateApiKey, validateApiKey);
       (L_checkApiKeyPermission, checkApiKeyPermission "transfer");
       (L_api_key_transfer,
        fun req => catch_next (with_user (fun u r => api_key_transfer u (req_body r)) req))]
  ].

(** [server/index.ts]: its own POST /api/transfer first, then
    [registerRoutes(app)]. *)
Definition routes : list Route :=
  mkRoute POST "/api/transfer" [(L_index_transfer, index_transfer)] :: registerRoutes.

(** One route's stack: each function runs when the one before called
    [next()]; the labels of the functions that ran are collected. *)
Fixpoint run_stack (stack : list (Label * Middleware)) (req : Request) (w : World)
  : World * Step * list Label :=
  match stack with
  | [] => (w, Next req, [])
  | (l, m) :: rest =>
      match m req w with
      | (w', Next req') =>
          let '(w'', s, ran) := run_stack rest req' w' in (w'', s, l :: ran)
      | (w', s) => (w', s, [l])
      end
  end.

(** The router: the first matching route runs; a later one runs only when
    every function of the earlier ones called [next()].  A path is matched
    by [path_matches]. *)
Fixpoint dispatch (rs : list Route) (req : Request) (w : World)
  : World * Step * list Label :=
  match rs with
  | [] => (w, Next req, [])
  | r :: rest =>
      if method_eqb (r_method r) (req_method req) && path_matches (r_path r) (req_path req)
      then match run_stack (r_stack r) req w with
           | (w', Next req', ran) =>
               let '(w'', s, ran') := dispatch rest req' w' in (w'', s, (ran ++ ran')%list)
           | (w', s, ran) => (w', s, ran)
           end
      else dispatch rest req w
  end.

End Server.

(** ** A concrete instance, for the examples *)

Module Demo.

Definition hash (p : string) : string := "scrypt:" ++ p.
Definition compare (supplied stored : string) : bool := String.eqb (hash supplied) stored.

Fixpoint has_at (s : string) : bool :=
  match s with
  | EmptyString => false
  | String c rest => Ascii.eqb c "@"%char || has_at rest
  end.

(** The default of [VALID_API_KEY] in [server/index.ts]. *)
Definition key : string := "seium1234554321".

Definition alice : User :=
  mkUser 1 "Alice" "alice@example.com" (hash "alice-secret") 1000 true false false.
Definition bob : User :=
  mkUser 2 "Bob" "bob@example.com" (hash "bob-secret") 500 true false false.
Definition root : User :=
  mkUser 3 "Root" "root@example.com" (hash "root-secret") 0 true true false.

Definition db0 : Db := mkDb [alice; bob; root] [] [] [] 1.
Definition w0 : World := mkWorld db0 100 [] [].

(** [{ receiverEmail, amount, password }] *)
Definition transfer_body (to : string) (amount : Z) (password : string) : Body :=
  mkBody None (Some to) None (Some amount) (Some password) None None None None None None.

End Demo.

(** Requests used in the examples. *)
Module Examples.

(** [{ senderEmail, to, amount }] *)
Definition external_body (senderEmail to : string) (amount : Z) : Body :=
  mkBody (Some senderEmail) None (Some to) (Some amount) None None None None None None None.

(** POST /api/transfer with [Authorization: Bearer <key>], sender and
    recipient both Alice. *)
Definition self_request : Request :=
  mkRequest POST "/api/transfer" (Some "Bearer seium1234554321") None "10.0.0.1" None None
            (external_body "alice@example.com" "alice@example.com" 300).

(** [{ senderEmail, receiverEmail, amount }] *)
Definition session_body (senderEmail receiverEmail : string) (amount : Z) : Body :=
  mkBody (Some senderEmail) (Some receiverEmail) None (Some amount) None None None None None
         None None.

(** A logged-in, verified Alice posts a session-style transfer, with no
    [Authorization] header. *)
Definition session_request : Request :=
  mkRequest POST "/api/transfer" None None "10.0.0.1" (Some Demo.alice) None
            (session_body "alice@example.com" "bob@example.com" 300).

(** An unused, unexpired password-reset code for Bob. *)
Definition bob_otp : OtpCode :=
  mkOtpCode 1 (Some 2) "bob@example.com" "123456" "password-reset" 500 false.

Definition w_otp : World :=
  mkWorld (mkDb [Demo.alice; Demo.bob; Demo.root] [] [bob_otp] [] 1) 100 [] [].

(** [{ email, code, newPassword }] *)
Definition reset_request : Request :=
  mkRequest POST "/api/reset-password" None None "10.0.0.1" None None
            (mkBody None None None None None None (Some "bob@example.com") (Some "123456")
                    (Some "new-secret-1") None None).

(** PATCH /api/profile with [{ newPassword }] *)
Definition profile_request : Request :=
  mkRequest PATCH "/api/profile" None None "10.0.0.1" (Some Demo.bob) None
            (mkBody None None None None None None None None (Some "new-secret-1") None None).

(** GET /api/user/password by a logged-in user. *)
Definition password_request (caller : User) : Request :=
  mkRequest GET "/api/user/password" None None "10.0.0.1" (Some caller) None empty_body.

(** The plan in which the fourth awaited call throws. *)
Definition w_fourth_fails : World := mkWorld Demo.db0 100 [false; false; false; true] [].

(** The plan in which the third awaited call throws. *)
Definition w_third_fails : World := mkWorld Demo.db0 100 [false; false; true] [].

End Examples.

(** A computation that ends by sending a response or by throwing, never by
    calling [next()]. *)
Definition only_sends (c : M Step) : Prop :=
  forall w, (exists w' r, c w = (w', Val (Send r))) \/ (exists w' e, c w = (w', Throw e)).


(** One successful transfer through a session route that the conservation
    claim cites: [req.user] is the stored row of the sender and the answer
    is 201. *)
Inductive transfer_step (hashPassword : string -> string)
          (comparePasswords : string -> string -> bool) : World -> World -> Prop :=
| step_send_money w w' sender data res :
    select_user_by_id (u_id sender) (users (db w)) = Some sender ->
    send_money hashPassword comparePasswords sender data w = (w', Val res) ->
    status res = 201 ->
    transfer_step hashPassword comparePasswords w w'
| step_user_transfer w w' sender b res :
    select_user_by_id (u_id sender) (users (db w)) = Some sender ->
    user_transfer hashPassword comparePasswords sender b w = (w', Val res) ->
    status res = 201 ->
    transfer_step hashPassword comparePasswords w w'.

(** Any sequence of such transfers. *)
Inductive transfers (hashPassword : string -> string)
          (comparePasswords : string -> string -> bool) : World -> World -> Prop :=
| transfers_nil w : transfers hashPassword comparePasswords w w
| transfers_cons w w' w'' :
    transfer_step hashPassword comparePasswords w w' ->
    transfers hashPassword comparePasswords w' w'' ->
    transfers hashPassword comparePasswords w w''.

(** A string that contains a space. *)
Fixpoint has_space (s : string) : bool :=
  match s with
  | EmptyString => false
  | String c rest => Ascii.eqb c " "%char || has_space rest
  end.

(** An awaited call that, whatever it returns or throws, leaves the
    database and the clock as they were. *)
Definition reads {A} (c : M A) : Prop :=
  forall w w' r, c w = (w', r) -> db w' = db w /\ now w' = now w.

(** A middleware body that either goes on to [next()], or sends a response
    or throws with the database as it was. *)
Definition gate (c : M Step) : Prop :=
  forall w w' r,
    c w = (w', r) ->
    match r with
    | Val (Next _) => True
    | Val (Send _) => db w' = db w
    | Val _ => False
    | Throw _ => db w' = db w
    end.

(** Sample rows and requests for the API-key routes. *)
Module Samples.

Definition alice_key : ApiKey :=
  mkApiKey 1 1 "k-alice" true ["transfer"; "balance"] None (Some 500) (Some ["10.0.0.1"]).

(** A key of Bob's without the [transfer] permission. *)
Definition bob_key : ApiKey :=
  mkApiKey 2 2 "k-bob" true ["balance"] None None None.

Definition db_keys : Db :=
  mkDb [Demo.alice; Demo.bob; Demo.root] [] [] [alice_key; bob_key] 1.

Definition w_keys : World := mkWorld db_keys 100 [] [].

Definition key_request (key : string) (b : Body) : Request :=
  mkRequest POST "/api/transfer" None (Some key) "10.0.0.1" None None b.

End Samples.

(** The stack that [registerRoutes] puts in front of the API-key transfer
    handler. *)
Definition api_key_stack (hashPassword : string -> string) (is_email : string -> bool)
  : list (Label * Middleware) :=
  [(L_validateApiKey, validateApiKey);
   (L_checkApiKeyPermission, checkApiKeyPermission "transfer");
   (L_api_key_transfer,
    fun req =>
      catch_next (with_user (fun u r => api_key_transfer hashPassword is_email u (req_body r))
                            req))].

(** ** More of [server/storage.ts] and [server/routes.ts]

    [Db] carries the sequence of [transactions.id] only.  Where another
    table is inserted into, the value that its serial column yields is an
    argument of the operation, and so is any random value of the handler. *)

(** A statement on the database that the database may refuse (a unique
    constraint): the call then throws and nothing is written. *)
Definition storage_try {A} (f : Db -> option (Db * A)) : M A :=
  fun w => match faults w with
           | true :: fs => (set_faults fs w, Throw StorageError)
           | false :: fs =>
               match f (db w) with
               | Some (d, a) => (set_db d (set_faults fs w), Val a)
               | None => (set_faults fs w, Throw StorageError)
               end
           | [] =>
               match f (db w) with
               | Some (d, a) => (set_db d w, Val a)
               | None => (w, Throw StorageError)
               end
           end.

Definition set_otps (os : list OtpCode) (d : Db) : Db :=
  mkDb (users d) (transactions d) os (apiKeys d) (tx_seq d).

(** [InsertOtpCode]: [isUsed] is left to its default. *)
Record InsertOtpCode := mkInsertOtp {
  io_userId : option Z;
  io_email : string;
  io_code : string;
  io_purpose : string;
  io_expiresAt : Z
}.

(** [update otp_codes set is_used = true where email = $1 and purpose = $2
    and is_used = false] *)
Definition invalidate_otps (email purpose : string) (os : list OtpCode) : list OtpCode :=
  map (fun o => if String.eqb (o_email o) email && String.eqb (o_purpose o) purpose
                   && negb (o_isUsed o)
                then mkOtpCode (o_id o) (o_userId o) (o_email o) (o_code o)
                               (o_purpose o) (o_expiresAt o) true
                else o) os.

(** [storage.createOtpCode]: two awaited statements, the second one with
    the primary key [id]. *)
Definition createOtpCode (id : Z) (data : InsertOtpCode) : M OtpCode :=
  storage (fun d => (set_otps (invalidate_otps (io_email data) (io_purpose data)
                                               (otpCodes d)) d, tt)) ;;
  storage_try (fun d =>
    if existsb (fun o => o_id o =? id) (otpCodes d) then None
    else let o := mkOtpCode id (io_userId data) (io_email data) (io_code data)
                            (io_purpose data) (io_expiresAt data) false in
         Some (set_otps (otpCodes d ++ [o]) d, o)).

(** [storage.getOtpCodes]; the order by [createdAt] is not modelled, the
    one caller only logs the rows. *)
Definition getOtpCodes (email : string) : M (list OtpCode) :=
  storage (fun d => (d, filter (fun o => String.eqb (o_email o) email) (otpCodes d))).

(** The body of POST /api/verify-otp. *)
Record VerifyOtpBody := mkVerifyOtpBody {
  vo_email : option string;
  vo_code : option string;
  vo_purpose : option string
}.

Definition verifyOtpSchema (is_email : string -> bool) (b : VerifyOtpBody)
  : M (string * string * string) :=
  match vo_email b, vo_code b, vo_purpose b with
  | Some email, Some code, Some purpose =>
      if is_email email && (Z.of_nat (String.length code) =? 6)
      then ret (email, code, purpose)
      else throw ZodError
  | _, _, _ => throw ZodError
  end.

(** POST /api/verify-otp.  The handler also sets [isVerified] on the
    session's copy of the user; that copy lives outside the world. *)
Definition verify_otp (hashPassword : string -> string) (is_email : string -> bool)
           (b : VerifyOtpBody) : M Response :=
  '(email, code, purpose) <- verifyOtpSchema is_email b ;;
  getOtpCodes email ;;
  otpCode <- getOtpCode email code purpose ;;
  match otpCode with
  | None => respond 400 (JMessage "Invalid or expired OTP")
  | Some otpCode =>
      markOtpAsUsed (o_id otpCode) ;;
      (if String.eqb purpose "verification" && truthy_num (o_userId otpCode)
       then updateUser hashPassword (opt_or (o_userId otpCode) 0)
                       (mkPatch None None None None (Some true)) ;;
            ret tt
       else ret tt) ;;
      respond 200 (JMessage "OTP verified successfully")
  end.

(** Sample rows for the one-time codes. *)
Module OtpSamples.

(** Carol has registered and not yet verified her address. *)
Definition carol : User :=
  mkUser 4 "Carol" "carol@example.com" (Demo.hash "carol-secret") 10000 false false false.

Definition carol_otp : OtpCode :=
  mkOtpCode 7 (Some 4) "carol@example.com" "654321" "verification" 500 false.

Definition w_carol : World :=
  mkWorld (mkDb [Demo.alice; Demo.bob; carol] [] [carol_otp] [] 1) 100 [] [].

Definition verify_body : VerifyOtpBody :=
  mkVerifyOtpBody (Some "carol@example.com") (Some "654321") (Some "verification").

Definition new_reset_code : InsertOtpCode :=
  mkInsertOtp (Some 2) "bob@example.com" "222222" "password-reset" 700.

End OtpSamples.

(** [InsertUser] of [shared/schema.ts]: [insertUserSchema] omits [id],
    [isAdmin] and the timestamps; the columns that have a default are
    optional. *)
Record InsertUser := mkInsertUser {
  iu_name : string;
  iu_email : string;
  iu_password : string;
  iu_balance : option Z;
  iu_isVerified : option bool;
  iu_isBlocked : option bool
}.

(** [storage.createUser]: the password is hashed, the row is inserted with
    the primary key [id]; the database refuses a taken id or e-mail. *)
Definition createUser (hashPassword : string -> string) (id : Z) (userData : InsertUser)
  : M User :=
  storage_try (fun d =>
    if existsb (fun u => (u_id u =? id) || String.eqb (u_email u) (iu_email userData))
               (users d)
    then None
    else let u := mkUser id (iu_name userData) (iu_email userData)
                         (hashPassword (iu_password userData))
                         (opt_or (iu_balance userData) 10000)
                         (opt_or (iu_isVerified userData) false)
                         false
                         (opt_or (iu_isBlocked userData) false) in
         Some (set_users (users d ++ [u]) d, u)).

Definition set_blocked (blocked : bool) (u : User) : User :=
  mkUser (u_id u) (u_name u) (u_email u) (u_password u) (u_balance u)
         (u_isVerified u) (u_isAdmin u) blocked.

Definition block_users (blocked : bool) (id : Z) (us : list User) : list User :=
  map (fun u => if u_id u =? id then set_blocked blocked u else u) us.

Definition blockUser (id : Z) : M (option User) :=
  storage (fun d => let us := block_users true id (users d) in
                    (set_users us d, select_user_by_id id us)).

Definition unblockUser (id : Z) : M (option User) :=
  storage (fun d => let us := block_users false id (users d) in
                    (set_users us d, select_user_by_id id us)).

(** PATCH /api/admin/users/:id/block, behind [isAdmin]; [admin] is
    [req.user] and [userId] is [parseInt(req.params.id)]. *)
Definition admin_block (admin : User) (userId : Z) : M Response :=
  if userId =? u_id admin
  then respond 400 (JMessage "Cannot block yourself")
  else
    user <- blockUser userId ;;
    match user with
    | None => respond 404 (JMessage "User not found")
    | Some user => respond 200 (JUser user)
    end.

(** PATCH /api/admin/users/:id/unblock, behind [isAdmin]. *)
Definition admin_unblock (userId : Z) : M Response :=
  user <- unblockUser userId ;;
  match user with
  | None => respond 404 (JMessage "User not found")
  | Some user => respond 200 (JUser user)
  end.

(** The unique constraint on [users.email]. *)
Definition emails_unique (us : list User) : Prop := NoDup (map u_email us).

(** Sample data for the user routes. *)
Module UserSamples.

Definition dave : InsertUser :=
  mkInsertUser "Dave" "dave@example.com" "dave-secret" None None None.

(** PATCH /api/profile with [{ email }] *)
Definition email_request (email : string) : Request :=
  mkRequest PATCH "/api/profile" None None "10.0.0.1" (Some Demo.bob) None
            (mkBody None None None None None None (Some email) None None None None).

(** [{ balance }] *)
Definition balance_body (balance : Z) : Body :=
  mkBody None None None None None None None None None None (Some balance).

End UserSamples.

(** ** The API-key rows: [storage.ts] and the routes under
    /api/user/api-keys *)

Definition set_apiKeys (ks : list ApiKey) (d : Db) : Db :=
  mkDb (users d) (transactions d) (otpCodes d) ks (tx_seq d).

Definition getApiKeyById (id : Z) : M (option ApiKey) :=
  storage (fun d => (d, head (filter (fun k => k_id k =? id) (apiKeys d)))).

(** [storage.getUserApiKeys]; the order by [createdAt] is not modelled. *)
Definition getUserApiKeys (userId : Z) : M (list ApiKey) :=
  storage (fun d => (d, filter (fun k => k_userId k =? userId) (apiKeys d))).

Definition deleteApiKey (id : Z) : M unit :=
  storage (fun d => (set_apiKeys (filter (fun k => negb (k_id k =? id)) (apiKeys d)) d, tt)).

(** What the route passes to [storage.createApiKey]. *)
Record InsertApiKey := mkInsertApiKey {
  ia_permissions : list string;
  ia_ipRestrictions : option (list string);
  ia_active : bool;
  ia_expiresAt : option Z
}.

(** [storage.generateApiKeyString] calls [randomBytes(32)], a name that
    [server/storage.ts] neither imports nor declares: evaluating it throws
    a ReferenceError, and the promise of the [async] method rejects. *)
Definition generateApiKeyString : M string := throw ReferenceError.

(** [storage.createApiKey]: the key string is awaited first, then the row
    is inserted with the primary key [id]; the database refuses a taken id
    or key string. *)
Definition createApiKey (id : Z) (userId : Z) (data : InsertApiKey) : M ApiKey :=
  apiKeyString <- generateApiKeyString ;;
  storage_try (fun d =>
    if existsb (fun k => (k_id k =? id) || String.eqb (k_apiKey k) apiKeyString) (apiKeys d)
    then None
    else let k := mkApiKey id userId apiKeyString (ia_active data) (ia_permissions data)
                           None (ia_expiresAt data) (ia_ipRestrictions data) in
         Some (set_apiKeys (apiKeys d ++ [k]) d, k)).

(** The body of POST /api/user/api-keys.  [expiresAt] of the schema is a
    [z.date()], which no JSON value satisfies: a body that has the key is
    refused. *)
Record CreateKeyBody := mkCreateKeyBody {
  ck_name : option string;
  ck_permissions : option (list string);
  ck_has_expiresAt : bool;
  ck_ipRestrictions : option (list string)
}.

Definition is_permission (p : string) : bool :=
  String.eqb p "transfer" || String.eqb p "balance" || String.eqb p "history".

Definition createApiKeySchema (b : CreateKeyBody) : M (list string * option (list string)) :=
  match ck_name b, ck_permissions b with
  | Some name, Some permissions =>
      if (3 <=? Z.of_nat (String.length name)) && (Z.of_nat (String.length name) <=? 255)
         && forallb is_permission permissions && negb (ck_has_expiresAt b)
      then ret (permissions, ck_ipRestrictions b)
      else throw ZodError
  | _, _ => throw ZodError
  end.

Inductive KeyReply :=
| KeyMessage (success : bool) (message : string)
| KeyCreated (key : ApiKey).

(** POST /api/user/api-keys; [id] is the value the serial column would
    yield.  The schema has no [expirationDays] and no [description], so
    the handler asks for a key without an expiry. *)
Definition create_api_key (caller : User) (id : Z) (b : CreateKeyBody)
  : M (Z * KeyReply) :=
  '(permissions, ipRestrictions) <- createApiKeySchema b ;;
  existingKeys <- getUserApiKeys (u_id caller) ;;
  if 5 <=? Z.of_nat (length existingKeys)
  then ret (400, KeyMessage false
                   "You have reached the maximum number of API keys (5). Please delete an existing key before creating a new one.")
  else
    apiKey <- createApiKey id (u_id caller)
                (mkInsertApiKey permissions ipRestrictions true None) ;;
    ret (201, KeyCreated apiKey).

(** DELETE /api/user/api-keys/:id *)
Definition delete_api_key (caller : User) (id : Z) : M Response :=
  apiKey <- getApiKeyById id ;;
  match apiKey with
  | None => respond 404 (JApiMessage false "API key not found")
  | Some apiKey =>
      if negb (k_userId apiKey =? u_id caller)
      then respond 403 (JApiMessage false
                          "You do not have permission to delete this API key")
      else
        deleteApiKey id ;;
        respond 200 (JApiMessage true "API key deleted successfully")
  end.


(** [{ name, permissions }] *)
Definition key_body (name : string) (permissions : list string) : CreateKeyBody :=
  mkCreateKeyBody (Some name) (Some permissions) false None.

(** ** GET /api/users/search *)

(** [hay.includes(needle)] *)
Fixpoint includes (needle hay : string) : bool :=
  String.prefix needle hay
  || match hay with
     | EmptyString => false
     | String _ rest => includes needle rest
     end.

(** What the route returns of a user: id, e-mail and name. *)
Record SafeUser := mkSafeUser {
  su_id : Z;
  su_email : string;
  su_name : string
}.

Inductive SearchReply :=
| SearchMessage (message : string)
| SearchResults (results : list SafeUser).

(** The handler behind [isAuthenticated].  [toLowerCase] is the string
    method; [by_createdAt] is the order in which [storage.getAllUsers]
    returns the rows ([createdAt] is not part of the rows here). *)
Definition users_search (toLowerCase : string -> string)
           (by_createdAt : list User -> list User)
           (caller : User) (email : option string) : M (Z * SearchReply) :=
  if negb (truthy_str email)
  then ret (400, SearchMessage "Email query parameter is required")
  else
    let email := opt_or email "" in
    users <- storage (fun d => (d, by_createdAt (users d))) ;;
    let filteredUsers :=
      filter (fun user => includes (toLowerCase email) (toLowerCase (u_email user))
                          && u_isVerified user && negb (u_isBlocked user)
                          && negb (u_id user =? u_id caller)) users in
    ret (200, SearchResults
                (firstn 5 (map (fun user => mkSafeUser (u_id user) (u_email user)
                                                       (u_name user)) filteredUsers))).

(** ** [client/src/lib/utils.ts] *)

(** [truncateText]; a string is its sequence of code units, and a negative
    [maxLength] makes [substring(0, maxLength)] empty. *)
Definition truncateText (text : string) (maxLength : Z) : string :=
  if Z.of_nat (String.length text) <=? maxLength then text
  else String.substring 0 (Z.to_nat maxLength) text ++ "...".

(** * Properties *)

(** ** The rows of [users] under [select] and [update] *)

Lemma select_user_by_id_In id us u :
  select_user_by_id id us = Some u -> In u us /\ u_id u = id.
Proof.
  unfold select_user_by_id. induction us as [|x xs IH]; simpl; [discriminate|].
  destruct (u_id x =? id) eqn:E; simpl.
  - intros [= <-]. split; [now left | now apply Z.eqb_eq].
  - intros H. destruct (IH H) as [Hin Hid]. split; [now right | exact Hid].
Qed.

Lemma select_user_by_email_In email us u :
  select_user_by_email email us = Some u -> In u us.
Proof.
  unfold select_user_by_email. induction us as [|x xs IH]; simpl; [discriminate|].
  destruct (String.eqb (u_email x) email); simpl.
  - intros [= <-]. now left.
  - intros H. right. exact (IH H).
Qed.

Lemma In_select_user_by_id us u :
  ids_unique us -> In u us -> select_user_by_id (u_id u) us = Some u.
Proof.
  unfold ids_unique, select_user_by_id. induction us as [|x xs IH]; simpl; [tauto|].
  intros Hnd [-> | Hin].
  - now rewrite Z.eqb_refl.
  - inversion Hnd as [|? ? Hnotin Hnd']; subst.
    destruct (u_id x =? u_id u) eqn:E.
    + apply Z.eqb_eq in E. exfalso. apply Hnotin. rewrite E. now apply in_map.
    + now apply IH.
Qed.

Lemma update_users_ids id p us : map u_id (update_users id p us) = map u_id us.
Proof.
  unfold update_users. induction us as [|x xs IH]; simpl; [reflexivity|].
  rewrite IH. now destruct (u_id x =? id).
Qed.

Lemma update_users_unique id p us : ids_unique us -> ids_unique (update_users id p us).
Proof. unfold ids_unique. now rewrite update_users_ids. Qed.

Lemma select_update_same id p us u :
  select_user_by_id id us = Some u ->
  select_user_by_id id (update_users id p us) = Some (apply_patch p u).
Proof.
  unfold select_user_by_id, update_users. induction us as [|x xs IH]; simpl; [discriminate|].
  destruct (u_id x =? id) eqn:E; simpl.
  - intros [= <-]. now rewrite E.
  - rewrite E. exact IH.
Qed.

Lemma select_update_other id j p us :
  id <> j -> select_user_by_id j (update_users id p us) = select_user_by_id j us.
Proof.
  intros Hne. unfold select_user_by_id, update_users.
  induction us as [|x xs IH]; simpl; [reflexivity|].
  destruct (u_id x =? id) eqn:E; simpl.
  - apply Z.eqb_eq in E.
    assert ((u_id x =? j) = false) as -> by (apply Z.eqb_neq; congruence).
    exact IH.
  - destruct (u_id x =? j); simpl; [reflexivity | exact IH].
Qed.

Lemma update_users_absent id p us :
  ~ In id (map u_id us) -> update_users id p us = us.
Proof.
  unfold update_users. induction us as [|x xs IH]; simpl; [reflexivity|].
  intros Hn. destruct (u_id x =? id) eqn:E.
  - apply Z.eqb_eq in E. exfalso. apply Hn. now left.
  - f_equal. apply IH. intros Hin. apply Hn. now right.
Qed.

Lemma total_update_balance id b us u :
  ids_unique us -> In u us -> u_id u = id ->
  total_balance (update_users id (patch_balance b) us) = total_balance us - u_balance u + b.
Proof.
  unfold ids_unique. induction us as [|x xs IH]; simpl; [tauto|].
  intros Hnd Hin Hid. inversion Hnd as [|? ? Hnotin Hnd']; subst.
  destruct Hin as [-> | Hin].
  - rewrite Z.eqb_refl. fold (update_users (u_id u) (patch_balance b) xs).
    rewrite update_users_absent by exact Hnotin. simpl. lia.
  - destruct (u_id x =? u_id u) eqn:E.
    + apply Z.eqb_eq in E. exfalso. apply Hnotin. rewrite E. now apply in_map.
    + fold (update_users (u_id u) (patch_balance b) xs).
      rewrite (IH Hnd' Hin eq_refl). lia.
Qed.

Lemma demo_ids_unique : ids_unique (users Demo.db0).
Proof. unfold ids_unique. simpl. repeat constructor; simpl; intuition discriminate. Qed.

(** ** Awaited calls when no fault is injected *)

Lemma bind_val {A B} (c : M A) (k : A -> M B) w w' a :
  c w = (w', Val a) -> bind c k w = k a w'.
Proof. intros H. simpl. unfold M_bind. now rewrite H. Qed.

Lemma bind_throw {A B} (c : M A) (k : A -> M B) w w' e :
  c w = (w', Throw e) -> bind c k w = (w', Throw e).
Proof. intros H. simpl. unfold M_bind. now rewrite H. Qed.

Lemma getUserByEmail_run email w :
  faults w = [] ->
  getUserByEmail email w = (w, Val (select_user_by_email email (users (db w)))).
Proof. destruct w as [d n f o]; simpl; intros ->. reflexivity. Qed.

Lemma getUser_run id w :
  faults w = [] -> getUser id w = (w, Val (select_user_by_id id (users (db w)))).
Proof. destruct w as [d n f o]; simpl; intros ->. reflexivity. Qed.

Lemma createTransaction_run data w :
  faults w = [] ->
  createTransaction data w
  = (set_db (fst (insert_transaction data (db w))) w,
     Val (snd (insert_transaction data (db w)))).
Proof. destruct w as [d n f o]; simpl; intros ->. reflexivity. Qed.

Lemma updateUser_balance_run hashPassword id b w :
  faults w = [] ->
  updateUser hashPassword id (patch_balance b) w
  = (with_users (update_users id (patch_balance b) (users (db w))) w,
     Val (select_user_by_id id (update_users id (patch_balance b) (users (db w))))).
Proof. destruct w as [d n f o]; simpl; intros ->. reflexivity. Qed.

Lemma send_run m w :
  faults w = [] ->
  send m w = (mkWorld (db w) (now w) (faults w) (outbox w ++ [m]), Val tt).
Proof. destruct w as [d n f o]; simpl; intros ->. reflexivity. Qed.

Ltac run_with lem := erewrite bind_val by (apply lem; simpl; assumption).

(** A closed instance of [safe_integer]. *)
Ltac safe_integers := unfold safe_integer, MAX_SAFE_INTEGER; simpl; lia.

(** The tail of every transfer handler: the notification, then the
    low-balance warning when the new balance is under 1000. *)
Ltac run_mails :=
  unfold sendTransactionNotificationEmail, sendLowBalanceWarningEmail;
  run_with send_run;
  match goal with
  | |- context [if ?c then _ else _] => destruct c
  end;
  [ run_with send_run | erewrite bind_val by reflexivity ].

(** ** POST /api/user/transfer when every check passes *)

Lemma user_transfer_run :
  forall hashPassword comparePasswords w sender b receiverEmail amount password receiver,
    faults w = [] ->
    b_receiverEmail b = Some receiverEmail -> receiverEmail <> "" ->
    b_amount b = Some amount -> amount <> 0 ->
    b_password b = Some password -> password <> "" ->
    select_user_by_email receiverEmail (users (db w)) = Some receiver ->
    u_id sender <> u_id receiver ->
    amount <= u_balance sender ->
    comparePasswords password (u_password sender) = true ->
    exists o,
      let t := mkTransaction (tx_seq (db w)) amount (u_id sender) (Some (u_id receiver))
                             (or_null (b_note b)) "completed" in
      user_transfer hashPassword comparePasswords sender b w
      = (transferred sender receiver amount t o w,
         Val (mkResponse 201
                (JTransactionBalance "Transaction successful" t
                                     (u_balance sender - amount)))).
Proof.
  intros hashPassword comparePasswords w sender b receiverEmail amount password receiver
         Hf Hre Hre' Ham Ham' Hpw Hpw' Hr Hne Hle Hcmp.
  unfold user_transfer. rewrite Hre, Ham, Hpw.
  cbn [truthy_str truthy_num opt_or].
  rewrite (proj2 (String.eqb_neq _ _) Hre'), (proj2 (String.eqb_neq _ _) Hpw'),
          (proj2 (Z.eqb_neq _ _) Ham').
  cbn [negb orb].
  run_with getUserByEmail_run. rewrite Hr.
  rewrite (proj2 (Z.eqb_neq _ _) Hne), (proj2 (Z.ltb_ge _ _) Hle), Hcmp.
  cbn [negb].
  run_with createTransaction_run.
  run_with updateUser_balance_run.
  run_with updateUser_balance_run.
  run_mails.
  all: destruct w as [d n f o]; simpl in Hf; subst f.
  all: eexists; reflexivity.
Qed.

Lemma transferred_balances sender receiver amount t o w :
  ids_unique (users (db w)) ->
  select_user_by_id (u_id sender) (users (db w)) = Some sender ->
  In receiver (users (db w)) ->
  u_id sender <> u_id receiver ->
  balance_of (u_id sender) w = Some (u_balance sender)
  /\ balance_of (u_id receiver) w = Some (u_balance receiver)
  /\ balance_of (u_id sender) (transferred sender receiver amount t o w)
     = Some (u_balance sender - amount)
  /\ balance_of (u_id receiver) (transferred sender receiver amount t o w)
     = Some (u_balance receiver + amount).
Proof.
  intros Huniq Hs Hin Hne.
  pose proof (In_select_user_by_id _ _ Huniq Hin) as Hr.
  unfold balance_of, transferred. rewrite Hs, Hr. simpl.
  rewrite (select_update_other (u_id receiver) (u_id sender)) by congruence.
  rewrite (select_update_same _ _ _ _ Hs).
  erewrite select_update_same
    by (rewrite select_update_other by congruence; exact Hr).
  repeat split; reflexivity.
Qed.

Lemma transferred_total sender receiver amount t o w :
  ids_unique (users (db w)) ->
  select_user_by_id (u_id sender) (users (db w)) = Some sender ->
  In receiver (users (db w)) ->
  u_id sender <> u_id receiver ->
  total_balance (users (db (transferred sender receiver amount t o w)))
  = total_balance (users (db w)).
Proof.
  intros Huniq Hs Hin Hne. unfold transferred. simpl.
  destruct (select_user_by_id_In _ _ _ Hs) as [Hsin _].
  assert (In receiver (update_users (u_id sender)
                         (patch_balance (u_balance sender - amount)) (users (db w)))) as Hin'.
  { unfold update_users. apply in_map_iff. exists receiver. split; [|exact Hin].
    now rewrite (proj2 (Z.eqb_neq _ _) (not_eq_sym Hne)). }
  rewrite (total_update_balance _ _ _ receiver (update_users_unique _ _ _ Huniq) Hin' eq_refl).
  rewrite (total_update_balance _ _ _ sender Huniq Hsin eq_refl).
  lia.
Qed.

(** C6 as stated fails: the receiver exists, differs from the sender and
    the amount does not exceed the sender's balance, and still POST
    /api/user/transfer moves nothing.  With a password that does not match
    the answer is 401, with amount 0 it is 400; both times the world is as
    it was, so no balance has changed and no Transaction row exists. *)
Lemma listed_checks_do_not_suffice :
  select_user_by_email "bob@example.com" (users (db Demo.w0)) = Some Demo.bob
  /\ u_id Demo.alice <> u_id Demo.bob
  /\ 300 <= u_balance Demo.alice
  /\ user_transfer Demo.hash Demo.compare Demo.alice
       (Demo.transfer_body "bob@example.com" 300 "not-the-secret") Demo.w0
     = (Demo.w0, Val (mkResponse 401 (JMessage "Incorrect password")))
  /\ user_transfer Demo.hash Demo.compare Demo.alice
       (Demo.transfer_body "bob@example.com" 0 "alice-secret") Demo.w0
     = (Demo.w0, Val (mkResponse 400
                        (JMessage "Receiver email, amount and password are required")))
  /\ transactions (db Demo.w0) = [].
Proof. vm_compute. repeat split; discriminate. Qed.

(** C6, amended.  POST /api/user/transfer, when the request passes every
    check of the handler (receiver e-mail, non-zero amount and password
    present, the receiver exists, sender and receiver differ, the amount
    does not exceed the sender's balance, the password matches), no call
    fails, and the amount, the two balances and the two new balances are
    safe integers, so that the handler's arithmetic on doubles is exact:
    the response is 201, the sender's stored balance is the old one minus
    the amount, the receiver's is the old one plus the amount, and one
    Transaction row with that amount and status [completed] is added. *)
Theorem user_transfer_completes :
  forall hashPassword comparePasswords w sender b receiverEmail amount password receiver,
    faults w = [] ->
    ids_unique (users (db w)) ->
    select_user_by_id (u_id sender) (users (db w)) = Some sender ->
    b_receiverEmail b = Some receiverEmail -> receiverEmail <> "" ->
    b_amount b = Some amount -> amount <> 0 ->
    b_password b = Some password -> password <> "" ->
    select_user_by_email receiverEmail (users (db w)) = Some receiver ->
    u_id sender <> u_id receiver ->
    amount <= u_balance sender ->
    comparePasswords password (u_password sender) = true ->
    safe_integer amount ->
    safe_integer (u_balance sender) -> safe_integer (u_balance receiver) ->
    safe_integer (u_balance sender - amount) ->
    safe_integer (u_balance receiver + amount) ->
    exists w' t,
      user_transfer hashPassword comparePasswords sender b w
      = (w', Val (mkResponse 201
                    (JTransactionBalance "Transaction successful" t
                                         (u_balance sender - amount))))
      /\ balance_of (u_id sender) w = Some (u_balance sender)
      /\ balance_of (u_id receiver) w = Some (u_balance receiver)
      /\ balance_of (u_id sender) w' = Some (u_balance sender - amount)
      /\ balance_of (u_id receiver) w' = Some (u_balance receiver + amount)
      /\ transactions (db w') = (transactions (db w) ++ [t])%list
      /\ t_amount t = amount
      /\ t_senderId t = u_id sender
      /\ t_receiverId t = Some (u_id receiver)
      /\ t_status t = "completed".
Proof.
  intros hashPassword comparePasswords w sender b receiverEmail amount password receiver
         Hf Huniq Hs Hre Hre' Ham Ham' Hpw Hpw' Hr Hne Hle Hcmp _ _ _ _ _.
  destruct (user_transfer_run hashPassword comparePasswords w sender b receiverEmail
              amount password receiver Hf Hre Hre' Ham Ham' Hpw Hpw' Hr Hne Hle Hcmp)
    as [o Hrun].
  destruct (transferred_balances sender receiver amount
              (mkTransaction (tx_seq (db w)) amount (u_id sender) (Some (u_id receiver))
                             (or_null (b_note b)) "completed") o w
              Huniq Hs (select_user_by_email_In _ _ _ Hr) Hne)
    as (B1 & B2 & B3 & B4).
  eexists; eexists. split; [exact Hrun|].
  repeat split; assumption || reflexivity.
Qed.

Lemma user_transfer_completes_witness :
  exists w' t,
    user_transfer Demo.hash Demo.compare Demo.alice
      (Demo.transfer_body "bob@example.com" 300 "alice-secret") Demo.w0
    = (w', Val (mkResponse 201
                  (JTransactionBalance "Transaction successful" t
                                       (u_balance Demo.alice - 300))))
    /\ balance_of (u_id Demo.alice) Demo.w0 = Some (u_balance Demo.alice)
    /\ balance_of (u_id Demo.bob) Demo.w0 = Some (u_balance Demo.bob)
    /\ balance_of (u_id Demo.alice) w' = Some (u_balance Demo.alice - 300)
    /\ balance_of (u_id Demo.bob) w' = Some (u_balance Demo.bob + 300)
    /\ transactions (db w') = (transactions (db Demo.w0) ++ [t])%list
    /\ t_amount t = 300
    /\ t_senderId t = u_id Demo.alice
    /\ t_receiverId t = Some (u_id Demo.bob)
    /\ t_status t = "completed".
Proof.
  apply (user_transfer_completes Demo.hash Demo.compare Demo.w0 Demo.alice
           (Demo.transfer_body "bob@example.com" 300 "alice-secret")
           "bob@example.com" 300 "alice-secret" Demo.bob);
    try reflexivity; try discriminate; try safe_integers.
  exact demo_ids_unique.
Defined.

(** The scenario of the specification: A at 1000, B at 500, 300 sent. *)
Example scenario_1000_500_300 :
  let w' := fst (user_transfer Demo.hash Demo.compare Demo.alice
                   (Demo.transfer_body "bob@example.com" 300 "alice-secret") Demo.w0) in
  balance_of 1 w' = Some 700 /\ balance_of 2 w' = Some 800
  /\ map t_status (transactions (db w')) = ["completed"].
Proof. vm_compute. repeat split. Qed.

(** ** POST /api/transactions/send-money when every check passes *)

Lemma send_money_run :
  forall hashPassword comparePasswords w sender data receiver,
    faults w = [] ->
    select_user_by_email (sm_receiverEmail data) (users (db w)) = Some receiver ->
    u_id sender <> u_id receiver ->
    sm_amount data <= u_balance sender ->
    comparePasswords (sm_password data) (u_password sender) = true ->
    exists o,
      let t := mkTransaction (tx_seq (db w)) (sm_amount data) (u_id sender)
                             (Some (u_id receiver)) (or_null (sm_note data)) "completed" in
      send_money hashPassword comparePasswords sender data w
      = (transferred sender receiver (sm_amount data) t o w,
         Val (mkResponse 201 (JTransaction "Transaction successful" t))).
Proof.
  intros hashPassword comparePasswords w sender data receiver Hf Hr Hne Hle Hcmp.
  unfold send_money.
  run_with getUserByEmail_run. rewrite Hr.
  rewrite (proj2 (Z.eqb_neq _ _) Hne), (proj2 (Z.ltb_ge _ _) Hle), Hcmp.
  cbn [negb].
  run_with createTransaction_run.
  run_with updateUser_balance_run.
  run_with updateUser_balance_run.
  run_mails.
  all: destruct w as [d n f o]; simpl in Hf; subst f.
  all: eexists; reflexivity.
Qed.

(** ** Conservation on the session routes, and where it breaks *)

(** A successful POST /api/transactions/send-money leaves the sum of the
    balances as it was. *)
Lemma send_money_conserves :
  forall hashPassword comparePasswords w sender data receiver,
    faults w = [] ->
    ids_unique (users (db w)) ->
    select_user_by_id (u_id sender) (users (db w)) = Some sender ->
    select_user_by_email (sm_receiverEmail data) (users (db w)) = Some receiver ->
    u_id sender <> u_id receiver ->
    sm_amount data <= u_balance sender ->
    comparePasswords (sm_password data) (u_password sender) = true ->
    total_balance
      (users (db (fst (send_money hashPassword comparePasswords sender data w))))
    = total_balance (users (db w)).
Proof.
  intros hashPassword comparePasswords w sender data receiver Hf Huniq Hs Hr Hne Hle Hcmp.
  destruct (send_money_run hashPassword comparePasswords w sender data receiver
              Hf Hr Hne Hle Hcmp) as [o Hrun].
  cbv zeta in Hrun. rewrite Hrun. cbn [fst].
  apply transferred_total; auto. exact (select_user_by_email_In _ _ _ Hr).
Qed.

(** A successful POST /api/user/transfer leaves the sum of the balances as
    it was. *)
Lemma user_transfer_conserves :
  forall hashPassword comparePasswords w sender b receiverEmail amount password receiver,
    faults w = [] ->
    ids_unique (users (db w)) ->
    select_user_by_id (u_id sender) (users (db w)) = Some sender ->
    b_receiverEmail b = Some receiverEmail -> receiverEmail <> "" ->
    b_amount b = Some amount -> amount <> 0 ->
    b_password b = Some password -> password <> "" ->
    select_user_by_email receiverEmail (users (db w)) = Some receiver ->
    u_id sender <> u_id receiver ->
    amount <= u_balance sender ->
    comparePasswords password (u_password sender) = true ->
    total_balance
      (users (db (fst (user_transfer hashPassword comparePasswords sender b w))))
    = total_balance (users (db w)).
Proof.
  intros hashPassword comparePasswords w sender b receiverEmail amount password receiver
         Hf Huniq Hs Hre Hre' Ham Ham' Hpw Hpw' Hr Hne Hle Hcmp.
  destruct (user_transfer_run hashPassword comparePasswords w sender b receiverEmail
              amount password receiver Hf Hre Hre' Ham Ham' Hpw Hpw' Hr Hne Hle Hcmp)
    as [o Hrun].
  cbv zeta in Hrun. rewrite Hrun. cbn [fst].
  apply transferred_total; auto. exact (select_user_by_email_In _ _ _ Hr).
Qed.

Lemma truthy_str_Some o :
  truthy_str o = true -> exists s, o = Some s /\ s <> "".
Proof.
  destruct o as [s|]; simpl; [|discriminate].
  intros H. exists s. split; [reflexivity|].
  apply String.eqb_neq. now destruct (String.eqb s "").
Qed.

Lemma truthy_num_Some o :
  truthy_num o = true -> exists n, o = Some n /\ n <> 0.
Proof.
  destruct o as [n|]; simpl; [|discriminate].
  intros H. exists n. split; [reflexivity|].
  apply Z.eqb_neq. now destruct (n =? 0).
Qed.

(** A 201 from POST /api/transactions/send-money means every check passed. *)
Lemma send_money_201 hashPassword comparePasswords sender data w w' res :
  faults w = [] ->
  send_money hashPassword comparePasswords sender data w = (w', Val res) ->
  status res = 201 ->
  exists receiver,
    select_user_by_email (sm_receiverEmail data) (users (db w)) = Some receiver
    /\ u_id sender <> u_id receiver
    /\ sm_amount data <= u_balance sender
    /\ comparePasswords (sm_password data) (u_password sender) = true.
Proof.
  intros Hf Hrun Hst. unfold send_money in Hrun.
  erewrite bind_val in Hrun by (apply getUserByEmail_run; exact Hf).
  destruct (select_user_by_email _ _) as [receiver|];
    [|inversion Hrun; subst; discriminate].
  destruct (u_id sender =? u_id receiver) eqn:Eid;
    [inversion Hrun; subst; discriminate|].
  destruct (u_balance sender <? sm_amount data) eqn:Elt;
    [inversion Hrun; subst; discriminate|].
  destruct (comparePasswords _ _) eqn:Ecmp;
    [|inversion Hrun; subst; discriminate].
  exists receiver. repeat split.
  - now apply Z.eqb_neq.
  - now apply Z.ltb_ge.
Qed.

(** A 201 from POST /api/user/transfer means every check passed. *)
Lemma user_transfer_201 hashPassword comparePasswords sender b w w' res :
  faults w = [] ->
  user_transfer hashPassword comparePasswords sender b w = (w', Val res) ->
  status res = 201 ->
  exists receiverEmail amount password receiver,
    (b_receiverEmail b = Some receiverEmail /\ receiverEmail <> "")
    /\ (b_amount b = Some amount /\ amount <> 0)
    /\ (b_password b = Some password /\ password <> "")
    /\ select_user_by_email receiverEmail (users (db w)) = Some receiver
    /\ u_id sender <> u_id receiver
    /\ amount <= u_balance sender
    /\ comparePasswords password (u_password sender) = true.
Proof.
  intros Hf Hrun Hst. unfold user_transfer in Hrun.
  destruct (truthy_str (b_receiverEmail b)) eqn:E1;
    [|inversion Hrun; subst; discriminate].
  destruct (truthy_num (b_amount b)) eqn:E2;
    [|inversion Hrun; subst; discriminate].
  destruct (truthy_str (b_password b)) eqn:E3;
    [|inversion Hrun; subst; discriminate].
  cbn [negb orb] in Hrun.
  destruct (truthy_str_Some _ E1) as (receiverEmail & Hre & Hre').
  destruct (truthy_num_Some _ E2) as (amount & Ham & Ham').
  destruct (truthy_str_Some _ E3) as (password & Hpw & Hpw').
  rewrite Hre, Ham, Hpw in Hrun. cbn [opt_or] in Hrun.
  erewrite bind_val in Hrun by (apply getUserByEmail_run; exact Hf).
  destruct (select_user_by_email _ _) as [receiver|] eqn:Er;
    [|inversion Hrun; subst; discriminate].
  destruct (u_id sender =? u_id receiver) eqn:Eid;
    [inversion Hrun; subst; discriminate|].
  destruct (u_balance sender <? amount) eqn:Elt;
    [inversion Hrun; subst; discriminate|].
  destruct (comparePasswords _ _) eqn:Ecmp;
    [|inversion Hrun; subst; discriminate].
  exists receiverEmail, amount, password, receiver. repeat split; auto.
  - now apply Z.eqb_neq.
  - now apply Z.ltb_ge.
Qed.

Lemma transferred_unique sender receiver amount t o w :
  ids_unique (users (db w)) ->
  ids_unique (users (db (transferred sender receiver amount t o w))).
Proof. intros H. unfold transferred. simpl. now do 2 apply update_users_unique. Qed.

Lemma transfer_step_conserves hashPassword comparePasswords w w' :
  transfer_step hashPassword comparePasswords w w' ->
  faults w = [] -> ids_unique (users (db w)) ->
  faults w' = [] /\ ids_unique (users (db w'))
  /\ total_balance (users (db w')) = total_balance (users (db w)).
Proof.
  intros [w0 w1 sender data res Hs Hrun Hst | w0 w1 sender b res Hs Hrun Hst] Hf Huniq.
  - destruct (send_money_201 _ _ _ _ _ _ _ Hf Hrun Hst) as (receiver & Hr & Hne & Hle & Hcmp).
    destruct (send_money_run hashPassword comparePasswords w0 sender data receiver
                Hf Hr Hne Hle Hcmp) as [o Hrun'].
    cbv zeta in Hrun'. rewrite Hrun' in Hrun. inversion Hrun; subst w1.
    split; [reflexivity|]. split; [now apply transferred_unique|].
    apply transferred_total; auto. exact (select_user_by_email_In _ _ _ Hr).
  - destruct (user_transfer_201 _ _ _ _ _ _ _ Hf Hrun Hst)
      as (receiverEmail & amount & password & receiver
          & [Hre Hre'] & [Ham Ham'] & [Hpw Hpw'] & Hr & Hne & Hle & Hcmp).
    destruct (user_transfer_run hashPassword comparePasswords w0 sender b receiverEmail
                amount password receiver Hf Hre Hre' Ham Ham' Hpw Hpw' Hr Hne Hle Hcmp)
      as [o Hrun'].
    cbv zeta in Hrun'. rewrite Hrun' in Hrun. inversion Hrun; subst w1.
    split; [reflexivity|]. split; [now apply transferred_unique|].
    apply transferred_total; auto. exact (select_user_by_email_In _ _ _ Hr).
Qed.

(** Any sequence of successful transfers through the two session routes
    leaves the sum of all balances as it was. *)
Lemma transfers_conserve hashPassword comparePasswords w w' :
  transfers hashPassword comparePasswords w w' ->
  faults w = [] -> ids_unique (users (db w)) ->
  total_balance (users (db w')) = total_balance (users (db w)).
Proof.
  induction 1 as [w | w w' w'' Hstep _ IH]; intros Hf Huniq; [reflexivity|].
  destruct (transfer_step_conserves _ _ _ _ Hstep Hf Huniq) as (Hf' & Huniq' & Htot).
  rewrite (IH Hf' Huniq'). exact Htot.
Qed.

(** C2.  The transfer handler of [server/index.ts] has no self-transfer
    check: with sender and recipient both Alice (balance 1000) and amount
    300 it answers 200, writes 700 and then 1300 to the same row, and the
    sum of all balances goes from 1500 to 1800. *)
Theorem index_transfer_self_mints :
  exists w',
    index_transfer Demo.hash Demo.key Examples.self_request Demo.w0
    = (w', Send (mkResponse 200
                   (JExternalTransfer 300 "alice@example.com" "alice@example.com"
                                      700 1300)))
    /\ total_balance (users (db Demo.w0)) = 1500
    /\ total_balance (users (db w')) = 1800
    /\ balance_of 1 w' = Some 1300.
Proof. eexists. vm_compute. repeat split. Qed.

(** ** Amounts that are not positive *)

(** C4.  POST /api/user/transfer with amount -50 passes every check
    ([!amount] is false, [sender.balance < amount] is false): the answer is
    201, a Transaction of amount -50 is stored and both balances change.
    POST /api/transactions/send-money with amount 0 likewise answers 201
    and stores a Transaction of amount 0. *)
Theorem non_positive_amounts_accepted :
  (exists w' t,
      user_transfer Demo.hash Demo.compare Demo.alice
        (Demo.transfer_body "bob@example.com" (-50) "alice-secret") Demo.w0
      = (w', Val (mkResponse 201 (JTransactionBalance "Transaction successful" t 1050)))
      /\ t_amount t = -50
      /\ transactions (db w') = [t]
      /\ balance_of 1 w' = Some 1050
      /\ balance_of 2 w' = Some 450)
  /\ (exists w' t,
         send_money Demo.hash Demo.compare Demo.alice
           (mkSendMoney "bob@example.com" 0 None "alice-secret") Demo.w0
         = (w', Val (mkResponse 201 (JTransaction "Transaction successful" t)))
         /\ t_amount t = 0
         /\ transactions (db w') = [t]).
Proof. split; eexists; eexists; vm_compute; repeat split. Qed.

(** C5.  From a state in which every balance is non-negative, one POST
    /api/user/transfer of amount -600 from Alice to Bob (balance 500)
    answers 201 and leaves Bob at -100. *)
Theorem negative_balance_reachable :
  Forall (fun u => 0 <= u_balance u) (users (db Demo.w0))
  /\ exists w' t,
      user_transfer Demo.hash Demo.compare Demo.alice
        (Demo.transfer_body "bob@example.com" (-600) "alice-secret") Demo.w0
      = (w', Val (mkResponse 201 (JTransactionBalance "Transaction successful" t 1600)))
      /\ balance_of 2 w' = Some (-100).
Proof.
  split.
  - repeat constructor; simpl; lia.
  - eexists; eexists. vm_compute. repeat split.
Qed.

(** The admin route does refuse a negative balance. *)
Lemma admin_update_balance_rejects_negative hashPassword userId b balance w :
  b_balance b = Some balance -> balance < 0 ->
  admin_update_balance hashPassword userId b w
  = (w, Val (mkResponse 400 (JMessage "Balance must be a positive number"))).
Proof.
  intros Hb Hneg. unfold admin_update_balance. rewrite Hb.
  now rewrite (proj2 (Z.ltb_lt _ _) Hneg).
Qed.

(** ** Awaited calls under a fault plan *)

Lemma io_passes {A} (op : World -> World * A) w fs :
  faults w = false :: fs ->
  io op w = (fst (op (set_faults fs w)), Val (snd (op (set_faults fs w)))).
Proof. unfold io. intros ->. now destruct (op (set_faults fs w)). Qed.

Lemma io_throws {A} (op : World -> World * A) w fs :
  faults w = true :: fs -> io op w = (set_faults fs w, Throw StorageError).
Proof. unfold io. now intros ->. Qed.

Lemma getUserByEmail_passes email w fs :
  faults w = false :: fs ->
  getUserByEmail email w
  = (set_faults fs w, Val (select_user_by_email email (users (db w)))).
Proof. destruct w as [d n f o]; simpl; intros ->. reflexivity. Qed.

Lemma createTransaction_passes data w fs :
  faults w = false :: fs ->
  createTransaction data w
  = (set_db (fst (insert_transaction data (db w))) (set_faults fs w),
     Val (snd (insert_transaction data (db w)))).
Proof. destruct w as [d n f o]; simpl; intros ->. reflexivity. Qed.

Lemma updateUser_balance_passes hashPassword id b w fs :
  faults w = false :: fs ->
  updateUser hashPassword id (patch_balance b) w
  = (with_users (update_users id (patch_balance b) (users (db w))) (set_faults fs w),
     Val (select_user_by_id id (update_users id (patch_balance b) (users (db w))))).
Proof. destruct w as [d n f o]; simpl; intros ->. reflexivity. Qed.

Lemma updateUser_throws hashPassword id data w fs :
  faults w = true :: fs ->
  updateUser hashPassword id data w = (set_faults fs w, Throw StorageError).
Proof. unfold updateUser, storage. apply io_throws. Qed.

Ltac pass_with lem := erewrite bind_val by (apply lem; simpl; reflexivity).
Ltac fail_with lem := erewrite bind_throw by (apply lem; simpl; reflexivity).

(** ** C1: the receiver's credit fails after the sender's debit *)

(** C1 as stated fails: on POST /api/user/transfer from Alice (1000) to Bob
    (500) of 300, with the fourth awaited call (the receiver's update)
    throwing, the error goes to [next(error)], Alice's row stays at 700,
    Bob's at 500, and the Transaction row stays [completed]. *)
Lemma credit_failure_not_compensated :
  exists w',
    catch_next (user_transfer Demo.hash Demo.compare Demo.alice
                  (Demo.transfer_body "bob@example.com" 300 "alice-secret"))
               Examples.w_fourth_fails
    = (w', NextError StorageError)
    /\ balance_of 1 Examples.w_fourth_fails = Some 1000
    /\ balance_of 1 w' = Some 700
    /\ balance_of 2 w' = Some 500
    /\ map t_status (transactions (db w')) = ["completed"].
Proof. eexists. vm_compute. repeat split. Qed.

(** C1, amended.  When the sender's debit has been applied and the
    receiver's credit then throws, neither handler compensates: the error
    goes to [next(error)], the sender's row keeps the debited balance and
    the receiver's row is unchanged.  On POST /api/user/transfer the
    Transaction row, inserted before the debit, stays [completed]; on the
    session POST /api/transfer no Transaction row has been inserted. *)
Theorem credit_failure_leaves_debit :
  (forall hashPassword comparePasswords w fs sender b receiverEmail amount password receiver,
      faults w = false :: false :: false :: true :: fs ->
      ids_unique (users (db w)) ->
      select_user_by_id (u_id sender) (users (db w)) = Some sender ->
      b_receiverEmail b = Some receiverEmail -> receiverEmail <> "" ->
      b_amount b = Some amount -> amount <> 0 ->
      b_password b = Some password -> password <> "" ->
      select_user_by_email receiverEmail (users (db w)) = Some receiver ->
      u_id sender <> u_id receiver ->
      amount <= u_balance sender ->
      comparePasswords password (u_password sender) = true ->
      exists w' t,
        catch_next (user_transfer hashPassword comparePasswords sender b) w
        = (w', NextError StorageError)
        /\ balance_of (u_id sender) w' = Some (u_balance sender - amount)
        /\ balance_of (u_id receiver) w' = Some (u_balance receiver)
        /\ transactions (db w') = (transactions (db w) ++ [t])%list
        /\ t_amount t = amount
        /\ t_status t = "completed")
  /\ (forall hashPassword w fs sender b receiverEmail amount receiver,
         faults w = false :: false :: true :: fs ->
         ids_unique (users (db w)) ->
         select_user_by_id (u_id sender) (users (db w)) = Some sender ->
         b_senderEmail b = Some (u_email sender) -> u_email sender <> "" ->
         b_receiverEmail b = Some receiverEmail -> receiverEmail <> "" ->
         b_amount b = Some amount -> amount <> 0 ->
         select_user_by_email receiverEmail (users (db w)) = Some receiver ->
         u_id sender <> u_id receiver ->
         amount <= u_balance sender ->
         exists w',
           catch_next (session_transfer hashPassword sender b) w
           = (w', NextError StorageError)
           /\ balance_of (u_id sender) w' = Some (u_balance sender - amount)
           /\ balance_of (u_id receiver) w' = Some (u_balance receiver)
           /\ transactions (db w') = transactions (db w)).
Proof.
  split.
  - intros hashPassword comparePasswords w fs sender b receiverEmail amount password
           receiver Hf Huniq Hs Hre Hre' Ham Ham' Hpw Hpw' Hr Hne Hle Hcmp.
    pose proof (In_select_user_by_id _ _ Huniq (select_user_by_email_In _ _ _ Hr)) as Hr'.
    destruct w as [d n f o]. simpl in Hf, Huniq, Hs, Hr, Hr'. subst f.
    unfold catch_next, user_transfer. rewrite Hre, Ham, Hpw.
    cbn [truthy_str truthy_num opt_or].
    rewrite (proj2 (String.eqb_neq _ _) Hre'), (proj2 (String.eqb_neq _ _) Hpw'),
            (proj2 (Z.eqb_neq _ _) Ham').
    cbn [negb orb].
    pass_with getUserByEmail_passes. cbn [db]. rewrite Hr.
    rewrite (proj2 (Z.eqb_neq _ _) Hne), (proj2 (Z.ltb_ge _ _) Hle), Hcmp.
    cbn [negb].
    pass_with createTransaction_passes. pass_with updateUser_balance_passes.
    fail_with updateUser_throws.
    eexists; eexists. split; [reflexivity|].
    unfold balance_of. simpl.
    rewrite (select_update_same _ _ _ _ Hs).
    rewrite select_update_other by congruence. rewrite Hr'.
    repeat split; reflexivity.
  - intros hashPassword w fs sender b receiverEmail amount receiver
           Hf Huniq Hs Hse Hse' Hre Hre' Ham Ham' Hr Hne Hle.
    pose proof (In_select_user_by_id _ _ Huniq (select_user_by_email_In _ _ _ Hr)) as Hr'.
    destruct w as [d n f o]. simpl in Hf, Huniq, Hs, Hr, Hr'. subst f.
    unfold catch_next, session_transfer. rewrite Hse, Hre, Ham.
    cbn [truthy_str truthy_num opt_or].
    rewrite (proj2 (String.eqb_neq _ _) Hre'), (proj2 (String.eqb_neq _ _) Hse'),
            (proj2 (Z.eqb_neq _ _) Ham'), String.eqb_refl.
    cbn [negb orb].
    pass_with getUserByEmail_passes. cbn [db]. rewrite Hr.
    rewrite (proj2 (Z.eqb_neq _ _) Hne), (proj2 (Z.ltb_ge _ _) Hle).
    pass_with updateUser_balance_passes. fail_with updateUser_throws.
    eexists. split; [reflexivity|].
    unfold balance_of. simpl.
    rewrite (select_update_same _ _ _ _ Hs).
    rewrite select_update_other by congruence. rewrite Hr'.
    repeat split; reflexivity.
Qed.

Lemma credit_failure_leaves_debit_witness :
  (exists w' t,
      catch_next (user_transfer Demo.hash Demo.compare Demo.alice
                    (Demo.transfer_body "bob@example.com" 300 "alice-secret"))
                 Examples.w_fourth_fails
      = (w', NextError StorageError)
      /\ balance_of (u_id Demo.alice) w' = Some (u_balance Demo.alice - 300)
      /\ balance_of (u_id Demo.bob) w' = Some (u_balance Demo.bob)
      /\ transactions (db w') = (transactions (db Examples.w_fourth_fails) ++ [t])%list
      /\ t_amount t = 300
      /\ t_status t = "completed")
  /\ (exists w',
         catch_next (session_transfer Demo.hash Demo.alice
                       (Examples.session_body "alice@example.com" "bob@example.com" 300))
                    Examples.w_third_fails
         = (w', NextError StorageError)
         /\ balance_of (u_id Demo.alice) w' = Some (u_balance Demo.alice - 300)
         /\ balance_of (u_id Demo.bob) w' = Some (u_balance Demo.bob)
         /\ transactions (db w') = transactions (db Examples.w_third_fails)).
Proof.
  split.
  - apply (proj1 credit_failure_leaves_debit Demo.hash Demo.compare
             Examples.w_fourth_fails [] Demo.alice
             (Demo.transfer_body "bob@example.com" 300 "alice-secret")
             "bob@example.com" 300 "alice-secret" Demo.bob);
      try reflexivity; try discriminate.
    exact demo_ids_unique.
  - apply (proj2 credit_failure_leaves_debit Demo.hash
             Examples.w_third_fails [] Demo.alice
             (Examples.session_body "alice@example.com" "bob@example.com" 300)
             "bob@example.com" 300 Demo.bob);
      try reflexivity; try discriminate.
    exact demo_ids_unique.
Defined.

(** ** C3: the same request submitted twice *)






(** ** C7: which handler answers POST /api/transfer *)

Lemma only_sends_ret r : only_sends (ret (Send r)).
Proof. intros w. left. now exists w, r. Qed.

Lemma only_sends_bind {A} (c : M A) (k : A -> M Step) :
  (forall a, only_sends (k a)) -> only_sends (bind c k).
Proof.
  intros H w. simpl. unfold M_bind. destruct (c w) as [w' [a|e]].
  - apply H.
  - right. now exists w', e.
Qed.

Lemma catch_500_sends body c w :
  only_sends c -> exists w' r, catch_500 body c w = (w', Send r).
Proof.
  intros H. unfold catch_500. destruct (H w) as [(w' & r & ->) | (w' & e & ->)]; eauto.
Qed.

Lemma index_transfer_sends hashPassword VALID_API_KEY req w :
  exists w' r, index_transfer hashPassword VALID_API_KEY req w = (w', Send r).
Proof.
  unfold index_transfer.
  destruct (negb _); [eauto|].
  apply catch_500_sends.
  destruct (_ || _); [apply only_sends_ret|].
  apply only_sends_bind; intros sender. apply only_sends_bind; intros receiver.
  destruct sender as [sender|]; [|apply only_sends_ret].
  destruct receiver as [receiver|]; [|apply only_sends_ret].
  destruct (_ <? _); [apply only_sends_ret|].
  repeat (apply only_sends_bind; intros ?). apply only_sends_ret.
Qed.

(** C7 as stated fails: a logged-in, verified user posts a well-formed
    session transfer to /api/transfer.  The handler of [server/index.ts]
    answers 403 "Invalid API Key"; the session-authenticated handler does
    not run and nothing is transferred. *)
Lemma session_transfer_handler_shadowed :
  dispatch (routes Demo.hash Demo.compare Demo.has_at Demo.key)
           Examples.session_request Demo.w0
  = (Demo.w0, Send (mkResponse 403 (JError "Invalid API Key")), [L_index_transfer]).
Proof. vm_compute. reflexivity. Qed.

(** C7, amended.  For every POST request to /api/transfer the one function
    that runs is the transfer handler that [server/index.ts] registers
    before [registerRoutes]; it always sends the response itself.  Neither
    the session-authenticated handler nor the API-key-authenticated handler
    registered later for the same method and path runs, nor does any of
    their middleware, so [apiKeyTransferSchema] and the API-key permission
    check are never applied. *)
Theorem post_api_transfer_runs_index_handler :
  forall hashPassword comparePasswords is_email VALID_API_KEY req w,
    req_method req = POST ->
    req_path req = "/api/transfer" ->
    exists w' res,
      dispatch (routes hashPassword comparePasswords is_email VALID_API_KEY) req w
      = (w', Send res, [L_index_transfer])
      /\ index_transfer hashPassword VALID_API_KEY req w = (w', Send res).
Proof.
  intros hashPassword comparePasswords is_email VALID_API_KEY req w Hm Hp.
  destruct (index_transfer_sends hashPassword VALID_API_KEY req w) as (w' & res & Hrun).
  exists w', res. split; [|exact Hrun].
  unfold routes. cbn [dispatch r_method r_path r_stack]. rewrite Hm, Hp.
  change (method_eqb POST POST && path_matches "/api/transfer" "/api/transfer") with true.
  cbn [run_stack]. now rewrite Hrun.
Qed.

Lemma post_api_transfer_runs_index_handler_witness :
  exists w' res,
    dispatch (routes Demo.hash Demo.compare Demo.has_at Demo.key)
             Examples.self_request Demo.w0
    = (w', Send res, [L_index_transfer])
    /\ index_transfer Demo.hash Demo.key Examples.self_request Demo.w0 = (w', Send res).
Proof.
  apply (post_api_transfer_runs_index_handler Demo.hash Demo.compare Demo.has_at Demo.key
           Examples.self_request Demo.w0); reflexivity.
Defined.

Lemma dispatch_skip r rs req w :
  method_eqb (r_method r) (req_method req) && path_matches (r_path r) (req_path req) = false ->
  dispatch (r :: rs) req w = dispatch rs req w.
Proof. intros H. cbn [dispatch]. now rewrite H. Qed.

Lemma catch_next_ends h w :
  exists w', (exists r, catch_next h w = (w', Send r))
             \/ (exists e, catch_next h w = (w', NextError e)).
Proof. unfold catch_next. destruct (h w) as [w' [r|e]]; eauto. Qed.

(** Inside [registerRoutes] taken alone, the session-authenticated handler
    is the first registered for POST /api/transfer and it never calls
    [next()]: [validateApiKey], [checkApiKeyPermission] and the API-key
    handler would not run either. *)
Lemma registerRoutes_session_route_shadows_api_key_route :
  forall hashPassword comparePasswords is_email req w,
    req_method req = POST ->
    req_path req = "/api/transfer" ->
    exists w' s ran,
      dispatch (registerRoutes hashPassword comparePasswords is_email) req w
      = (w', s, ran)
      /\ (forall req', s <> Next req')
      /\ incl ran [L_isAuthenticated; L_session_transfer].
Proof.
  intros hashPassword comparePasswords is_email req w Hm Hp.
  unfold registerRoutes.
  do 4 (rewrite dispatch_skip by (cbn [r_method r_path]; rewrite Hm, Hp; reflexivity)).
  cbn [dispatch r_method r_path r_stack]. rewrite Hm, Hp.
  change (method_eqb POST POST && path_matches "/api/transfer" "/api/transfer") with true.
  cbn [run_stack]. unfold isAuthenticated.
  destruct (req_user req) as [u|].
  - destruct (u_isVerified u); cbn [negb].
    + match goal with
      | |- context [catch_next ?h w] =>
          destruct (catch_next_ends h w) as (w' & [(r & ->) | (e & ->)])
      end.
      * exists w', (Send r), [L_isAuthenticated; L_session_transfer].
        split; [reflexivity|]. split; [discriminate | apply incl_refl].
      * exists w', (NextError e), [L_isAuthenticated; L_session_transfer].
        split; [reflexivity|]. split; [discriminate | apply incl_refl].
    + eexists; eexists; eexists. split; [reflexivity|].
      split; [discriminate | intros l [<-|[]]; now left].
  - eexists; eexists; eexists. split; [reflexivity|].
    split; [discriminate | intros l [<-|[]]; now left].
Qed.

(** ** C8: what POST /api/reset-password stores *)

Lemma getOtpCode_run email code purpose w :
  faults w = [] ->
  getOtpCode email code purpose w
  = (w, Val (select_otp email code purpose (now w) (otpCodes (db w)))).
Proof. destruct w as [d n f o]; simpl; intros ->. reflexivity. Qed.

Lemma markOtpAsUsed_run id w :
  faults w = [] ->
  markOtpAsUsed id w
  = (set_db (mkDb (users (db w)) (transactions (db w)) (mark_otp_used id (otpCodes (db w)))
                  (apiKeys (db w)) (tx_seq (db w))) w, Val tt).
Proof. destruct w as [d n f o]; simpl; intros ->. reflexivity. Qed.

Lemma updateUser_password_run hashPassword id p w :
  faults w = [] -> p <> "" ->
  updateUser hashPassword id (patch_password p) w
  = (with_users (update_users id (patch_password (hashPassword p)) (users (db w))) w,
     Val (select_user_by_id id
            (update_users id (patch_password (hashPassword p)) (users (db w))))).
Proof.
  destruct w as [d n f o]; simpl; intros -> Hp. unfold updateUser.
  cbn [patch_password p_password truthy_str].
  rewrite (proj2 (String.eqb_neq _ _) Hp). reflexivity.
Qed.

(** C8 as stated fails: after a successful POST /api/reset-password the
    stored password is the hash that [storage.updateUser] computes, not the
    string the client sent. *)
Lemma reset_keeps_no_plaintext :
  let run := reset_password Demo.hash Demo.has_at Examples.reset_request Examples.w_otp in
  snd run = Val (mkResponse 200 (JMessage "Password reset successfully"))
  /\ option_map u_password (select_user_by_id 2 (users (db (fst run))))
     = Some (Demo.hash "new-secret-1")
  /\ option_map u_password (select_user_by_id 2 (users (db (fst run))))
     <> Some "new-secret-1".
Proof. vm_compute. repeat split. discriminate. Qed.

(** C8, amended.  After every successful POST /api/reset-password with a
    valid password-reset code, the user's stored password equals
    [hashPassword newPassword]: the handler passes the new password to
    [storage.updateUser], which hashes any password it is given. *)
Theorem reset_password_stores_hash :
  forall hashPassword is_email w req email code newPassword otp uid u,
    faults w = [] ->
    b_email (req_body req) = Some email ->
    b_code (req_body req) = Some code ->
    b_newPassword (req_body req) = Some newPassword ->
    is_email email = true ->
    String.length code = 6%nat ->
    (8 <= String.length newPassword)%nat ->
    select_otp email code "password-reset" (now w) (otpCodes (db w)) = Some otp ->
    o_userId otp = Some uid -> uid <> 0 ->
    select_user_by_id uid (users (db w)) = Some u ->
    exists w',
      reset_password hashPassword is_email req w
      = (w', Val (mkResponse 200 (JMessage "Password reset successfully")))
      /\ option_map u_password (select_user_by_id uid (users (db w')))
         = Some (hashPassword newPassword).
Proof.
  intros hashPassword is_email w req email code newPassword otp uid u
         Hf He Hc Hn Hem Hlc Hln Hotp Huid Huid' Hu.
  assert (newPassword <> "") as Hne by (intros ->; simpl in Hln; lia).
  unfold reset_password, updatePasswordSchema. rewrite He, Hc, Hn, Hem, Hlc.
  assert ((8 <=? Z.of_nat (String.length newPassword)) = true) as -> by (apply Z.leb_le; lia).
  cbn [andb Z.of_nat Z.eqb Pos.of_succ_nat Pos.succ Pos.eqb].
  change (ret (email, code, newPassword)) with (@M_ret _ (email, code, newPassword)).
  unfold bind at 1. cbn [Monad_M]. unfold M_bind at 1, M_ret.
  run_with getOtpCode_run. rewrite Hotp, Huid.
  cbn [truthy_num opt_or]. rewrite (proj2 (Z.eqb_neq _ _) Huid'). cbn [negb].
  run_with markOtpAsUsed_run.
  erewrite bind_val by (apply updateUser_password_run; [simpl; assumption | exact Hne]).
  eexists. split; [reflexivity|].
  simpl. now rewrite (select_update_same _ _ _ _ Hu).
Qed.

Lemma reset_password_stores_hash_witness :
  exists w',
    reset_password Demo.hash Demo.has_at Examples.reset_request Examples.w_otp
    = (w', Val (mkResponse 200 (JMessage "Password reset successfully")))
    /\ option_map u_password (select_user_by_id 2 (users (db w')))
       = Some (Demo.hash "new-secret-1").
Proof.
  apply (reset_password_stores_hash Demo.hash Demo.has_at Examples.w_otp
           Examples.reset_request "bob@example.com" "123456" "new-secret-1"
           Examples.bob_otp 2 Demo.bob);
    try reflexivity; try discriminate.
  simpl. lia.
Defined.

(** PATCH /api/profile hashes the new password itself and then hands it to
    [storage.updateUser], which hashes it again. *)
Example patch_profile_hashes_twice :
  let run := patch_profile Demo.hash Demo.has_at Demo.bob Examples.profile_request Demo.w0 in
  option_map u_password (select_user_by_id 2 (users (db (fst run))))
  = Some (Demo.hash (Demo.hash "new-secret-1")).
Proof. vm_compute. reflexivity. Qed.

(** ** C9: a transfer to oneself *)

(** C9 as stated fails for amount 0: POST /api/user/transfer tests the
    required fields first, so Alice sending 0 to herself is answered with
    the missing-field message, not the self-transfer one. *)
Lemma self_transfer_of_zero_gets_other_error :
  user_transfer Demo.hash Demo.compare Demo.alice
    (Demo.transfer_body "alice@example.com" 0 "alice-secret") Demo.w0
  = (Demo.w0,
     Val (mkResponse 400 (JMessage "Receiver email, amount and password are required")))
  /\ JMessage "Receiver email, amount and password are required"
     <> JMessage "Cannot send money to yourself".
Proof. split; [vm_compute; reflexivity | discriminate]. Qed.

(** C9, amended.  For every user A and every request whose receiver e-mail
    resolves to A: POST /api/transactions/send-money answers 400 "Cannot
    send money to yourself"; POST /api/user/transfer answers 400 with that
    message when receiver e-mail, a non-zero amount and a password are all
    present, and 400 with the missing-field message otherwise.  In every
    case the world is left as it was: no balance changes and no Transaction
    row is created. *)
Theorem self_transfer_rejected :
  forall hashPassword comparePasswords w sender,
    faults w = [] ->
    (forall data receiver,
        select_user_by_email (sm_receiverEmail data) (users (db w)) = Some receiver ->
        u_id receiver = u_id sender ->
        send_money hashPassword comparePasswords sender data w
        = (w, Val (mkResponse 400 (JMessage "Cannot send money to yourself"))))
    /\ (forall b receiverEmail receiver,
           b_receiverEmail b = Some receiverEmail ->
           select_user_by_email receiverEmail (users (db w)) = Some receiver ->
           u_id receiver = u_id sender ->
           user_transfer hashPassword comparePasswords sender b w
           = (w, Val (mkResponse 400
                        (JMessage
                           (if truthy_str (b_receiverEmail b) && truthy_num (b_amount b)
                               && truthy_str (b_password b)
                            then "Cannot send money to yourself"
                            else "Receiver email, amount and password are required"))))).
Proof.
  intros hashPassword comparePasswords w sender Hf. split.
  - intros data receiver Hr Hid. unfold send_money.
    run_with getUserByEmail_run. rewrite Hr, Hid, Z.eqb_refl. reflexivity.
  - intros b receiverEmail receiver Hre Hr Hid. unfold user_transfer.
    destruct (truthy_str (b_receiverEmail b)) eqn:E1; [|reflexivity].
    destruct (truthy_num (b_amount b)); [|reflexivity].
    destruct (truthy_str (b_password b)); [|reflexivity].
    cbn [negb orb andb]. rewrite Hre. cbn [opt_or].
    run_with getUserByEmail_run. rewrite Hr, Hid, Z.eqb_refl. reflexivity.
Qed.

Lemma self_transfer_rejected_witness :
  send_money Demo.hash Demo.compare Demo.alice
    (mkSendMoney "alice@example.com" 300 None "alice-secret") Demo.w0
  = (Demo.w0, Val (mkResponse 400 (JMessage "Cannot send money to yourself")))
  /\ user_transfer Demo.hash Demo.compare Demo.alice
       (Demo.transfer_body "alice@example.com" 300 "alice-secret") Demo.w0
     = (Demo.w0, Val (mkResponse 400 (JMessage "Cannot send money to yourself"))).
Proof.
  destruct (self_transfer_rejected Demo.hash Demo.compare Demo.w0 Demo.alice eq_refl)
    as [Hsend Huser].
  split.
  - apply (Hsend (mkSendMoney "alice@example.com" 300 None "alice-secret") Demo.alice);
      reflexivity.
  - apply (Huser (Demo.transfer_body "alice@example.com" 300 "alice-secret")
                 "alice@example.com" Demo.alice); reflexivity.
Defined.

(** ** C10: GET /api/user/password *)

(** C10.  For a caller that [isAuthenticated] lets through (logged in and
    verified) and whose row is found: when the row is an admin's, the
    response carries the stored password of that row; otherwise it carries
    the fixed string "Only admin users can view password hashes", whatever
    the stored password is. *)
Theorem stored_password_only_for_admins :
  forall w req caller user,
    faults w = [] ->
    req_user req = Some caller ->
    u_isVerified caller = true ->
    select_user_by_id (u_id caller) (users (db w)) = Some user ->
    exists res,
      run_stack user_password_stack req w
      = (w, Send res, [L_isAuthenticated; L_get_user_password])
      /\ status res = 200
      /\ (u_isAdmin user = true -> json res = JPassword (u_password user))
      /\ (u_isAdmin user = false ->
          json res = JPassword "Only admin users can view password hashes").
Proof.
  intros w req caller user Hf Hu Hv Hrow.
  unfold user_password_stack. cbn [run_stack]. unfold isAuthenticated.
  rewrite Hu, Hv. cbn [negb]. unfold no_catch, get_user_password. rewrite Hu.
  run_with getUser_run. rewrite Hrow.
  destruct (u_isAdmin user); eexists; (split; [reflexivity|]);
    repeat split; intros; reflexivity || discriminate.
Qed.

Lemma stored_password_only_for_admins_witness :
  (exists res,
      run_stack user_password_stack (Examples.password_request Demo.root) Demo.w0
      = (Demo.w0, Send res, [L_isAuthenticated; L_get_user_password])
      /\ status res = 200
      /\ (u_isAdmin Demo.root = true -> json res = JPassword (u_password Demo.root))
      /\ (u_isAdmin Demo.root = false ->
          json res = JPassword "Only admin users can view password hashes"))
  /\ (exists res,
         run_stack user_password_stack (Examples.password_request Demo.bob) Demo.w0
         = (Demo.w0, Send res, [L_isAuthenticated; L_get_user_password])
         /\ status res = 200
         /\ (u_isAdmin Demo.bob = true -> json res = JPassword (u_password Demo.bob))
         /\ (u_isAdmin Demo.bob = false ->
             json res = JPassword "Only admin users can view password hashes")).
Proof.
  split.
  - apply (stored_password_only_for_admins Demo.w0 (Examples.password_request Demo.root)
             Demo.root Demo.root); reflexivity.
  - apply (stored_password_only_for_admins Demo.w0 (Examples.password_request Demo.bob)
             Demo.bob Demo.bob); reflexivity.
Defined.

(** * Further properties of the handlers *)

(** ** Rejected transfers *)

(** X1.  POST /api/user/transfer with no fault injected never throws, and
    every answer other than 201 leaves the world exactly as it was: a
    rejected transfer stores nothing and sends no mail. *)
Theorem user_transfer_rejection_changes_nothing :
  forall hashPassword comparePasswords sender b w w' r,
    faults w = [] ->
    user_transfer hashPassword comparePasswords sender b w = (w', r) ->
    exists res, r = Val res /\ (status res <> 201 -> w' = w).
Proof.
  intros hashPassword comparePasswords sender b w w' r Hf Hrun.
  pose proof Hrun as Hrun0. unfold user_transfer in Hrun.
  destruct (truthy_str (b_receiverEmail b)) eqn:E1;
    [|inversion Hrun; eexists; split; [reflexivity | reflexivity]].
  destruct (truthy_num (b_amount b)) eqn:E2;
    [|inversion Hrun; eexists; split; [reflexivity | reflexivity]].
  destruct (truthy_str (b_password b)) eqn:E3;
    [|inversion Hrun; eexists; split; [reflexivity | reflexivity]].
  cbn [negb orb] in Hrun.
  destruct (truthy_str_Some _ E1) as (receiverEmail & Hre & Hre').
  destruct (truthy_num_Some _ E2) as (amount & Ham & Ham').
  destruct (truthy_str_Some _ E3) as (password & Hpw & Hpw').
  rewrite Hre, Ham, Hpw in Hrun. cbn [opt_or] in Hrun.
  erewrite bind_val in Hrun by (apply getUserByEmail_run; exact Hf).
  destruct (select_user_by_email _ _) as [receiver|] eqn:Er;
    [|inversion Hrun; eexists; split; [reflexivity | reflexivity]].
  destruct (u_id sender =? u_id receiver) eqn:Eid;
    [inversion Hrun; eexists; split; [reflexivity | reflexivity]|].
  destruct (u_balance sender <? amount) eqn:Elt;
    [inversion Hrun; eexists; split; [reflexivity | reflexivity]|].
  destruct (comparePasswords _ _) eqn:Ecmp;
    [|inversion Hrun; eexists; split; [reflexivity | reflexivity]].
  destruct (user_transfer_run hashPassword comparePasswords w sender b receiverEmail
              amount password receiver Hf Hre Hre' Ham Ham' Hpw Hpw' Er
              (proj1 (Z.eqb_neq _ _) Eid) (proj1 (Z.ltb_ge _ _) Elt) Ecmp) as [o Hok].
  cbv zeta in Hok. rewrite Hok in Hrun0. inversion Hrun0.
  eexists. split; [reflexivity|]. intros Hn. now elim Hn.
Qed.

Lemma user_transfer_rejection_changes_nothing_witness :
  exists res,
    Val (mkResponse 400 (JMessage "Insufficient balance")) = Val res
    /\ (status res <> 201 -> Demo.w0 = Demo.w0).
Proof.
  apply (user_transfer_rejection_changes_nothing Demo.hash Demo.compare Demo.alice
           (Demo.transfer_body "bob@example.com" 5000 "alice-secret") Demo.w0);
    reflexivity.
Defined.

(** X2.  POST /api/transactions/send-money, for a body that holds a
    receiver e-mail, an amount and a password, and with no fault injected:
    every answer other than 201 (404, 400, 401) leaves the world exactly as
    it was; a rejected request stores nothing and sends no mail. *)
Theorem send_money_rejection_changes_nothing :
  forall hashPassword comparePasswords sender data w w' res,
    faults w = [] ->
    send_money hashPassword comparePasswords sender data w = (w', Val res) ->
    status res <> 201 ->
    w' = w.
Proof.
  intros hashPassword comparePasswords sender data w w' res Hf Hrun Hst.
  pose proof Hrun as Hrun0. unfold send_money in Hrun.
  erewrite bind_val in Hrun by (apply getUserByEmail_run; exact Hf).
  destruct (select_user_by_email _ _) as [receiver|] eqn:Er;
    [|now inversion Hrun].
  destruct (u_id sender =? u_id receiver) eqn:Eid; [now inversion Hrun|].
  destruct (u_balance sender <? sm_amount data) eqn:Elt; [now inversion Hrun|].
  destruct (comparePasswords _ _) eqn:Ecmp; [|now inversion Hrun].
  destruct (send_money_run hashPassword comparePasswords w sender data receiver Hf Er
              (proj1 (Z.eqb_neq _ _) Eid) (proj1 (Z.ltb_ge _ _) Elt) Ecmp) as [o Hok].
  cbv zeta in Hok. rewrite Hok in Hrun0. inversion Hrun0; subst res.
  now elim Hst.
Qed.

Lemma send_money_rejection_changes_nothing_witness :
  fst (send_money Demo.hash Demo.compare Demo.alice
         (mkSendMoney "bob@example.com" 300 None "not-the-secret") Demo.w0)
  = Demo.w0.
Proof.
  apply (send_money_rejection_changes_nothing Demo.hash Demo.compare Demo.alice
           (mkSendMoney "bob@example.com" 300 None "not-the-secret") Demo.w0 _
           (mkResponse 401 (JMessage "Incorrect password")));
    [reflexivity | reflexivity | discriminate].
Defined.

(** ** The session route POST /api/transfer of [registerRoutes] *)

Lemma session_transfer_run :
  forall hashPassword w sender b receiverEmail amount receiver,
    faults w = [] ->
    b_senderEmail b = Some (u_email sender) -> u_email sender <> "" ->
    b_receiverEmail b = Some receiverEmail -> receiverEmail <> "" ->
    b_amount b = Some amount -> amount <> 0 ->
    select_user_by_email receiverEmail (users (db w)) = Some receiver ->
    u_id sender <> u_id receiver ->
    amount <= u_balance sender ->
    exists o,
      let t := mkTransaction (tx_seq (db w)) amount (u_id sender) (Some (u_id receiver))
                             (or_null (b_note b)) "completed" in
      session_transfer hashPassword sender b w
      = (transferred sender receiver amount t o w,
         Val (mkResponse 201 (JTransaction "Transfer successful" t))).
Proof.
  intros hashPassword w sender b receiverEmail amount receiver
         Hf Hse Hse' Hre Hre' Ham Ham' Hr Hne Hle.
  unfold session_transfer. rewrite Hse, Hre, Ham.
  cbn [truthy_str truthy_num opt_or].
  rewrite (proj2 (String.eqb_neq _ _) Hre'), (proj2 (String.eqb_neq _ _) Hse'),
          (proj2 (Z.eqb_neq _ _) Ham'), String.eqb_refl.
  cbn [negb orb].
  run_with getUserByEmail_run. rewrite Hr.
  rewrite (proj2 (Z.eqb_neq _ _) Hne), (proj2 (Z.ltb_ge _ _) Hle).
  run_with updateUser_balance_run.
  run_with updateUser_balance_run.
  run_with createTransaction_run.
  run_mails.
  all: destruct w as [d n f o]; simpl in Hf; subst f.
  all: eexists; reflexivity.
Qed.

(** X3.  The session handler of POST /api/transfer asks for no password:
    when sender e-mail (equal to the session user's), receiver e-mail and a
    non-zero amount are present, the receiver exists and differs from the
    sender, the amount does not exceed the sender's balance, no call fails,
    and the amount, the two balances and the two new balances are safe
    integers (so that the handler's arithmetic on doubles is exact), it
    answers 201, moves the amount from the sender's row to the receiver's,
    appends one [completed] Transaction and leaves the sum of all balances
    as it was. *)
Theorem session_transfer_completes :
  forall hashPassword w sender b receiverEmail amount receiver,
    faults w = [] ->
    ids_unique (users (db w)) ->
    select_user_by_id (u_id sender) (users (db w)) = Some sender ->
    b_senderEmail b = Some (u_email sender) -> u_email sender <> "" ->
    b_receiverEmail b = Some receiverEmail -> receiverEmail <> "" ->
    b_amount b = Some amount -> amount <> 0 ->
    select_user_by_email receiverEmail (users (db w)) = Some receiver ->
    u_id sender <> u_id receiver ->
    amount <= u_balance sender ->
    safe_integer amount ->
    safe_integer (u_balance sender) -> safe_integer (u_balance receiver) ->
    safe_integer (u_balance sender - amount) ->
    safe_integer (u_balance receiver + amount) ->
    exists w' t,
      session_transfer hashPassword sender b w
      = (w', Val (mkResponse 201 (JTransaction "Transfer successful" t)))
      /\ balance_of (u_id sender) w' = Some (u_balance sender - amount)
      /\ balance_of (u_id receiver) w' = Some (u_balance receiver + amount)
      /\ total_balance (users (db w')) = total_balance (users (db w))
      /\ transactions (db w') = (transactions (db w) ++ [t])%list
      /\ t_amount t = amount
      /\ t_status t = "completed".
Proof.
  intros hashPassword w sender b receiverEmail amount receiver
         Hf Huniq Hs Hse Hse' Hre Hre' Ham Ham' Hr Hne Hle _ _ _ _ _.
  destruct (session_transfer_run hashPassword w sender b receiverEmail amount receiver
              Hf Hse Hse' Hre Hre' Ham Ham' Hr Hne Hle) as [o Hrun].
  cbv zeta in Hrun.
  pose proof (select_user_by_email_In _ _ _ Hr) as Hin.
  set (t := mkTransaction (tx_seq (db w)) amount (u_id sender) (Some (u_id receiver))
                          (or_null (b_note b)) "completed") in *.
  destruct (transferred_balances sender receiver amount t o w Huniq Hs Hin Hne)
    as (_ & _ & B3 & B4).
  exists (transferred sender receiver amount t o w), t.
  split; [exact Hrun|]. split; [exact B3|]. split; [exact B4|].
  split; [now apply transferred_total|]. repeat split.
Qed.

Lemma session_transfer_completes_witness :
  exists w' t,
    session_transfer Demo.hash Demo.alice
      (Examples.session_body "alice@example.com" "bob@example.com" 300) Demo.w0
    = (w', Val (mkResponse 201 (JTransaction "Transfer successful" t)))
    /\ balance_of (u_id Demo.alice) w' = Some (u_balance Demo.alice - 300)
    /\ balance_of (u_id Demo.bob) w' = Some (u_balance Demo.bob + 300)
    /\ total_balance (users (db w')) = total_balance (users (db Demo.w0))
    /\ transactions (db w') = (transactions (db Demo.w0) ++ [t])%list
    /\ t_amount t = 300
    /\ t_status t = "completed".
Proof.
  apply (session_transfer_completes Demo.hash Demo.w0 Demo.alice
           (Examples.session_body "alice@example.com" "bob@example.com" 300)
           "bob@example.com" 300 Demo.bob);
    try reflexivity; try discriminate; try safe_integers.
  exact demo_ids_unique.
Defined.

(** ** The API-key transfer handler *)

(** X4.  The API-key transfer handler parses the body first: a body whose
    amount is missing, zero or negative makes [apiKeyTransferSchema] throw,
    whatever the fault plan, and the world is left as it was. *)
Theorem api_key_transfer_needs_positive_amount :
  forall hashPassword is_email sender b w,
    (forall amount, b_amount b = Some amount -> amount <= 0) ->
    api_key_transfer hashPassword is_email sender b w = (w, Throw ZodError).
Proof.
  intros hashPassword is_email sender b w Hamt.
  unfold api_key_transfer, apiKeyTransferSchema.
  destruct (b_receiverEmail b) as [receiverEmail|]; [|reflexivity].
  destruct (b_amount b) as [amount|]; [|reflexivity].
  assert ((0 <? amount) = false) as -> by (apply Z.ltb_ge; now apply Hamt).
  now rewrite andb_false_r.
Qed.

Lemma api_key_transfer_needs_positive_amount_witness :
  api_key_transfer Demo.hash Demo.has_at Demo.alice
    (Demo.transfer_body "bob@example.com" (-50) "alice-secret") Demo.w0
  = (Demo.w0, Throw ZodError).
Proof.
  apply (api_key_transfer_needs_positive_amount Demo.hash Demo.has_at Demo.alice
           (Demo.transfer_body "bob@example.com" (-50) "alice-secret") Demo.w0).
  intros amount [= <-]. discriminate.
Defined.

Lemma api_key_transfer_cases hashPassword is_email sender b w w' r :
  faults w = [] ->
  api_key_transfer hashPassword is_email sender b w = (w', r) ->
  w' = w
  \/ exists receiver amount t o,
      In receiver (users (db w))
      /\ u_id sender <> u_id receiver
      /\ 0 < amount <= u_balance sender
      /\ w' = transferred sender receiver amount t o w.
Proof.
  intros Hf Hrun. unfold api_key_transfer, apiKeyTransferSchema in Hrun.
  destruct (b_receiverEmail b) as [receiverEmail|]; [|inversion Hrun; now left].
  destruct (b_amount b) as [amount|]; [|inversion Hrun; now left].
  destruct (is_email receiverEmail); [|inversion Hrun; now left].
  destruct (0 <? amount) eqn:Epos; [|inversion Hrun; now left].
  cbn [andb] in Hrun.
  change (ret (receiverEmail, amount, b_note b))
    with (@M_ret _ (receiverEmail, amount, b_note b)) in Hrun.
  unfold bind at 1 in Hrun. cbn [Monad_M] in Hrun. unfold M_bind at 1, M_ret in Hrun.
  erewrite bind_val in Hrun by (apply getUserByEmail_run; exact Hf).
  destruct (select_user_by_email _ _) as [receiver|] eqn:Er; [|inversion Hrun; now left].
  destruct (u_id sender =? u_id receiver) eqn:Eid; [inversion Hrun; now left|].
  destruct (u_balance sender <? amount) eqn:Elt; [inversion Hrun; now left|].
  right. exists receiver, amount.
  erewrite bind_val in Hrun by (apply createTransaction_run; simpl; assumption).
  erewrite bind_val in Hrun by (apply updateUser_balance_run; simpl; assumption).
  erewrite bind_val in Hrun by (apply updateUser_balance_run; simpl; assumption).
  unfold sendTransactionNotificationEmail, sendLowBalanceWarningEmail in Hrun.
  erewrite bind_val in Hrun by (apply send_run; simpl; assumption).
  destruct (u_balance sender - amount <? 1000).
  - erewrite bind_val in Hrun by (apply send_run; simpl; assumption).
    destruct w as [d n f o]; simpl in Hf; subst f. inversion Hrun.
    eexists; eexists. repeat split.
    + exact (select_user_by_email_In _ _ _ Er).
    + now apply Z.eqb_neq.
    + now apply Z.ltb_lt.
    + now apply Z.ltb_ge.
  - erewrite bind_val in Hrun by reflexivity.
    destruct w as [d n f o]; simpl in Hf; subst f. inversion Hrun.
    eexists; eexists. repeat split.
    + exact (select_user_by_email_In _ _ _ Er).
    + now apply Z.eqb_neq.
    + now apply Z.ltb_lt.
    + now apply Z.ltb_ge.
Qed.

Lemma update_users_nonneg id b us :
  0 <= b ->
  Forall (fun u => 0 <= u_balance u) us ->
  Forall (fun u => 0 <= u_balance u) (update_users id (patch_balance b) us).
Proof.
  intros Hb H. unfold update_users. induction H as [|x xs Hx _ IH]; simpl; constructor; auto.
  destruct (u_id x =? id); simpl; assumption.
Qed.

(** X5.  The API-key transfer handler keeps the ledger sound whatever the
    body (its amount, when a number, being an integer) and the outcome:
    with no fault injected, the key's owner being the stored row, ids
    unique, every balance non-negative and the sum of all balances a safe
    integer (so that the handler's arithmetic on doubles is exact), after
    the call every balance is still non-negative and the sum of all
    balances is unchanged, hence still a safe integer. *)
Theorem api_key_transfer_keeps_ledger_sound :
  forall hashPassword is_email sender b w w' r,
    faults w = [] ->
    ids_unique (users (db w)) ->
    select_user_by_id (u_id sender) (users (db w)) = Some sender ->
    Forall (fun u => 0 <= u_balance u) (users (db w)) ->
    safe_integer (total_balance (users (db w))) ->
    api_key_transfer hashPassword is_email sender b w = (w', r) ->
    Forall (fun u => 0 <= u_balance u) (users (db w'))
    /\ total_balance (users (db w')) = total_balance (users (db w))
    /\ safe_integer (total_balance (users (db w'))).
Proof.
  intros hashPassword is_email sender b w w' r Hf Huniq Hs Hpos Hsafe Hrun.
  enough (Forall (fun u => 0 <= u_balance u) (users (db w'))
          /\ total_balance (users (db w')) = total_balance (users (db w))) as [H1 H2]
      by (split; [exact H1 | split; [exact H2 | now rewrite H2]]).
  destruct (api_key_transfer_cases _ _ _ _ _ _ _ Hf Hrun)
    as [-> | (receiver & amount & t & o & Hin & Hne & [Hgt Hle] & ->)];
    [now split|].
  split.
  - unfold transferred. simpl.
    assert (0 <= u_balance receiver) by (rewrite Forall_forall in Hpos; now apply Hpos).
    apply update_users_nonneg; [lia|]. apply update_users_nonneg; [lia | exact Hpos].
  - now apply transferred_total.
Qed.

Lemma api_key_transfer_keeps_ledger_sound_witness :
  Forall (fun u => 0 <= u_balance u)
         (users (db (fst (api_key_transfer Demo.hash Demo.has_at Demo.alice
                            (Demo.transfer_body "bob@example.com" 300 "") Demo.w0))))
  /\ total_balance
       (users (db (fst (api_key_transfer Demo.hash Demo.has_at Demo.alice
                          (Demo.transfer_body "bob@example.com" 300 "") Demo.w0))))
     = total_balance (users (db Demo.w0))
  /\ safe_integer
       (total_balance
          (users (db (fst (api_key_transfer Demo.hash Demo.has_at Demo.alice
                             (Demo.transfer_body "bob@example.com" 300 "") Demo.w0))))).
Proof.
  apply (api_key_transfer_keeps_ledger_sound Demo.hash Demo.has_at Demo.alice
           (Demo.transfer_body "bob@example.com" 300 "") Demo.w0 _
           (snd (api_key_transfer Demo.hash Demo.has_at Demo.alice
                   (Demo.transfer_body "bob@example.com" 300 "") Demo.w0)));
    try reflexivity.
  - exact demo_ids_unique.
  - repeat constructor; simpl; lia.
  - safe_integers.
Defined.

(** ** The transfer handler of [server/index.ts] *)

Lemma split_space_no_space k : has_space k = false -> split_space k = [k].
Proof.
  induction k as [|c k IH]; simpl; [reflexivity|].
  destruct (Ascii.eqb c " "); simpl; [discriminate|].
  intros H. now rewrite (IH H).
Qed.

Lemma split_space_cons s k :
  has_space s = false -> split_space (s ++ String " " k) = s :: split_space k.
Proof.
  induction s as [|c s IH]; simpl; [reflexivity|].
  destruct (Ascii.eqb c " "); simpl; [discriminate|].
  intros H. now rewrite (IH H).
Qed.

(** X6.  [authHeader.split(" ")[1]]: a header made of a scheme word, one
    space and a key without spaces yields that key, whatever the scheme
    word is ("Bearer" is not checked); a non-empty header without any space
    yields no token. *)
Theorem bearer_token_parses :
  forall scheme k,
    has_space scheme = false ->
    has_space k = false ->
    bearer_token (Some (scheme ++ String " " k)) = Some k
    /\ (scheme <> "" -> bearer_token (Some scheme) = None).
Proof.
  intros scheme k Hs Hk. split.
  - unfold bearer_token.
    assert (String.eqb (scheme ++ String " " k) "" = false) as ->.
    { apply String.eqb_neq. destruct scheme; discriminate. }
    rewrite (split_space_cons _ _ Hs), (split_space_no_space _ Hk). reflexivity.
  - intros Hne. unfold bearer_token.
    rewrite (proj2 (String.eqb_neq _ _) Hne), (split_space_no_space _ Hs). reflexivity.
Qed.

Lemma bearer_token_parses_witness :
  bearer_token (Some ("Bearer" ++ String " " "seium1234554321")) = Some "seium1234554321"
  /\ ("Bearer" <> "" -> bearer_token (Some "Bearer") = None).
Proof. apply (bearer_token_parses "Bearer" "seium1234554321"); reflexivity. Defined.

(** X7.  The transfer handler of [server/index.ts] acts only for the
    configured key: when the token of the [Authorization] header is not
    [VALID_API_KEY] (or there is no header), it answers 403 "Invalid API
    Key" and leaves the world as it was, whatever the body and the fault
    plan. *)
Theorem index_transfer_requires_key :
  forall hashPassword VALID_API_KEY req w,
    bearer_token (req_authorization req) <> Some VALID_API_KEY ->
    index_transfer hashPassword VALID_API_KEY req w
    = (w, Send (mkResponse 403 (JError "Invalid API Key"))).
Proof.
  intros hashPassword VALID_API_KEY req w Htok. unfold index_transfer.
  destruct (bearer_token (req_authorization req)) as [token|]; [|reflexivity].
  destruct (String.eqb token VALID_API_KEY) eqn:E; [|reflexivity].
  apply String.eqb_eq in E. subst token. now elim Htok.
Qed.

Lemma index_transfer_requires_key_witness :
  index_transfer Demo.hash Demo.key Examples.session_request Demo.w0
  = (Demo.w0, Send (mkResponse 403 (JError "Invalid API Key"))).
Proof.
  apply (index_transfer_requires_key Demo.hash Demo.key Examples.session_request Demo.w0).
  discriminate.
Defined.

(** X8.  With the configured key, sender and recipient e-mails of two
    different stored accounts, a non-zero amount that the sender's balance
    covers, no fault, and the amount, the two balances and the two new
    balances safe integers (so that the handler's arithmetic on doubles is
    exact), the handler of [server/index.ts] answers 200 with the two new
    balances, moves the amount between the two rows, appends one
    Transaction and leaves the sum of all balances as it was. *)
Theorem index_transfer_between_accounts :
  forall hashPassword VALID_API_KEY req w senderEmail to amount sender receiver,
    faults w = [] ->
    ids_unique (users (db w)) ->
    bearer_token (req_authorization req) = Some VALID_API_KEY ->
    b_senderEmail (req_body req) = Some senderEmail -> senderEmail <> "" ->
    b_to (req_body req) = Some to -> to <> "" ->
    b_amount (req_body req) = Some amount -> amount <> 0 ->
    select_user_by_email senderEmail (users (db w)) = Some sender ->
    select_user_by_email to (users (db w)) = Some receiver ->
    u_id sender <> u_id receiver ->
    amount <= u_balance sender ->
    safe_integer amount ->
    safe_integer (u_balance sender) -> safe_integer (u_balance receiver) ->
    safe_integer (u_balance sender - amount) ->
    safe_integer (u_balance receiver + amount) ->
    exists w' t,
      index_transfer hashPassword VALID_API_KEY req w
      = (w', Send (mkResponse 200
                     (JExternalTransfer amount senderEmail to
                        (u_balance sender - amount) (u_balance receiver + amount))))
      /\ balance_of (u_id sender) w' = Some (u_balance sender - amount)
      /\ balance_of (u_id receiver) w' = Some (u_balance receiver + amount)
      /\ total_balance (users (db w')) = total_balance (users (db w))
      /\ transactions (db w') = (transactions (db w) ++ [t])%list
      /\ t_amount t = amount
      /\ t_note t = Some "External transfer via API".
Proof.
  intros hashPassword VALID_API_KEY req w senderEmail to amount sender receiver
         Hf Huniq Htok Hse Hse' Hto Hto' Ham Ham' Hs Hr Hne Hle _ _ _ _ _.
  pose proof (select_user_by_email_In _ _ _ Hs) as Hsin.
  pose proof (select_user_by_email_In _ _ _ Hr) as Hrin.
  pose proof (In_select_user_by_id _ _ Huniq Hsin) as Hsid.
  set (t := mkTransaction (tx_seq (db w)) amount (u_id sender) (Some (u_id receiver))
                          (Some "External transfer via API") "completed").
  exists (transferred sender receiver amount t (outbox w) w), t.
  destruct (transferred_balances sender receiver amount t (outbox w) w Huniq Hsid Hrin Hne)
    as (_ & _ & B3 & B4).
  split; [|split; [exact B3|]; split; [exact B4|];
           split; [now apply transferred_total|]; repeat split].
  unfold index_transfer. rewrite Htok, String.eqb_refl. cbn [negb].
  rewrite Hse, Hto, Ham. cbn [truthy_str truthy_num opt_or].
  rewrite (proj2 (String.eqb_neq _ _) Hse'), (proj2 (String.eqb_neq _ _) Hto'),
          (proj2 (Z.eqb_neq _ _) Ham').
  cbn [negb orb]. unfold catch_500.
  run_with getUserByEmail_run. run_with getUserByEmail_run. rewrite Hs, Hr.
  rewrite (proj2 (Z.ltb_ge _ _) Hle).
  run_with updateUser_balance_run.
  run_with updateUser_balance_run.
  run_with createTransaction_run.
  destruct w as [d n f o]; simpl in Hf; subst f. reflexivity.
Qed.

Lemma index_transfer_between_accounts_witness :
  exists w' t,
    index_transfer Demo.hash Demo.key
      (mkRequest POST "/api/transfer" (Some "Bearer seium1234554321") None "10.0.0.1"
                 None None (Examples.external_body "alice@example.com" "bob@example.com" 300))
      Demo.w0
    = (w', Send (mkResponse 200
                   (JExternalTransfer 300 "alice@example.com" "bob@example.com"
                      (u_balance Demo.alice - 300) (u_balance Demo.bob + 300))))
    /\ balance_of (u_id Demo.alice) w' = Some (u_balance Demo.alice - 300)
    /\ balance_of (u_id Demo.bob) w' = Some (u_balance Demo.bob + 300)
    /\ total_balance (users (db w')) = total_balance (users (db Demo.w0))
    /\ transactions (db w') = (transactions (db Demo.w0) ++ [t])%list
    /\ t_amount t = 300
    /\ t_note t = Some "External transfer via API".
Proof.
  apply (index_transfer_between_accounts Demo.hash Demo.key
           (mkRequest POST "/api/transfer" (Some "Bearer seium1234554321") None "10.0.0.1"
                      None None
                      (Examples.external_body "alice@example.com" "bob@example.com" 300))
           Demo.w0 "alice@example.com" "bob@example.com" 300 Demo.alice Demo.bob);
    try reflexivity; try discriminate; try safe_integers.
  exact demo_ids_unique.
Defined.

(** ** [server/api-auth.ts] *)

Lemma bind_inv {A B} (c : M A) (k : A -> M B) w w' r :
  bind c k w = (w', r) ->
  (exists e, c w = (w', Throw e) /\ r = Throw e)
  \/ (exists w1 a, c w = (w1, Val a) /\ k a w1 = (w', r)).
Proof.
  simpl. unfold M_bind. destruct (c w) as [w1 [a|e]].
  - intros H. right. now exists w1, a.
  - intros [= <- <-]. left. now exists e.
Qed.

Lemma io_inv {A} (op : World -> World * A) w w' r :
  io op w = (w', r) ->
  (exists e, r = Throw e /\ db w' = db w /\ now w' = now w)
  \/ (exists w0 a, db w0 = db w /\ now w0 = now w /\ op w0 = (w', a) /\ r = Val a).
Proof.
  unfold io. destruct (faults w) as [|[|] fs].
  - destruct (op w) as [w1 a] eqn:E. intros [= <- <-]. right. now exists w, a.
  - intros [= <- <-]. left. now exists StorageError.
  - destruct (op (set_faults fs w)) as [w1 a] eqn:E. intros [= <- <-].
    right. now exists (set_faults fs w), a.
Qed.

Lemma getApiKey_inv key w w' r :
  getApiKey key w = (w', r) ->
  db w' = db w /\ now w' = now w
  /\ (forall a, r = Val a -> a = select_api_key key (apiKeys (db w))).
Proof.
  unfold getApiKey, storage. intros H.
  destruct (io_inv _ _ _ _ H) as [(e & -> & Hd & Hn) | (w0 & a & Hd & Hn & Hop & ->)].
  - repeat split; auto. discriminate.
  - destruct w0 as [d0 n0 f0 o0]. simpl in *. inversion Hop; subst. simpl.
    repeat split; auto. now intros a' [= <-].
Qed.

Lemma getUser_inv id w w' r :
  getUser id w = (w', r) ->
  db w' = db w /\ now w' = now w
  /\ (forall a, r = Val a -> a = select_user_by_id id (users (db w))).
Proof.
  unfold getUser, storage. intros H.
  destruct (io_inv _ _ _ _ H) as [(e & -> & Hd & Hn) | (w0 & a & Hd & Hn & Hop & ->)].
  - repeat split; auto. discriminate.
  - destruct w0 as [d0 n0 f0 o0]. simpl in *. inversion Hop; subst. simpl.
    repeat split; auto. now intros a' [= <-].
Qed.

Lemma markApiKeyAsUsed_inv id w w' r :
  markApiKeyAsUsed id w = (w', r) ->
  (exists e, r = Throw e /\ db w' = db w)
  \/ (r = Val tt
      /\ db w' = mkDb (users (db w)) (transactions (db w)) (otpCodes (db w))
                      (mark_key_used id (now w) (apiKeys (db w))) (tx_seq (db w))).
Proof.
  unfold markApiKeyAsUsed. intros H.
  destruct (io_inv _ _ _ _ H) as [(e & -> & Hd & Hn) | (w0 & a & Hd & Hn & Hop & ->)].
  - left. now exists e.
  - right. destruct w0 as [d0 n0 f0 o0]. simpl in *. inversion Hop; subst. now split.
Qed.

Lemma validateApiKey_next :
  forall req w w' req',
    validateApiKey req w = (w', Next req') ->
    exists key k user,
      req_x_api_key req = Some key /\ key <> ""
      /\ select_api_key key (apiKeys (db w)) = Some k
      /\ k_active k = true
      /\ (forall e, k_expiresAt k = Some e -> now w <= e)
      /\ (forall ips, k_ipRestrictions k = Some ips -> ips = [] \/ In (req_ip req) ips)
      /\ select_user_by_id (k_userId k) (users (db w)) = Some user
      /\ u_isBlocked user = false
      /\ u_isVerified user = true
      /\ req_user req' = Some user
      /\ req_apiKey req' = Some k
      /\ req_body req' = req_body req
      /\ db w' = mkDb (users (db w)) (transactions (db w)) (otpCodes (db w))
                      (mark_key_used (k_id k) (now w) (apiKeys (db w))) (tx_seq (db w)).
Proof.
  intros req w w' req' H. unfold validateApiKey, catch_500 in H.
  match type of H with
  | (match ?c w with _ => _ end) = _ => destruct (c w) as [w1 [s|e]] eqn:Hc
  end; [|discriminate].
  injection H as -> ->.
  destruct (truthy_str (req_x_api_key req)) eqn:Ekey; [|discriminate Hc].
  destruct (truthy_str_Some _ Ekey) as (key & Hkey & Hkey').
  rewrite Hkey in Hc. cbn [negb opt_or] in Hc.
  destruct (bind_inv _ _ _ _ _ Hc) as [(e & _ & [=]) | (w1 & a & Hget & Hc1)]. clear Hc.
  destruct (getApiKey_inv _ _ _ _ Hget) as (Hd1 & Hn1 & Ha). specialize (Ha _ eq_refl).
  destruct a as [k|]; [|discriminate Hc1].
  destruct (k_active k) eqn:Eact; [|discriminate Hc1]. cbn [negb] in Hc1.
  destruct (bind_inv _ _ _ _ _ Hc1) as [(e & _ & [=]) | (w2 & t & Hclk & Hc2)]. clear Hc1.
  unfold clock in Hclk. injection Hclk as <- <-.
  destruct (match k_expiresAt k with Some e => e <? now w1 | None => false end) eqn:Eexp;
    [discriminate Hc2|].
  destruct (match k_ipRestrictions k with
            | Some ips => (0 <? Z.of_nat (length ips))
                          && negb (existsb (String.eqb (req_ip req)) ips)
            | None => false
            end) eqn:Eip; [discriminate Hc2|].
  destruct (bind_inv _ _ _ _ _ Hc2) as [(e & _ & [=]) | (w3 & u & Hgu & Hc3)]. clear Hc2.
  destruct (getUser_inv _ _ _ _ Hgu) as (Hd3 & Hn3 & Hu). specialize (Hu _ eq_refl).
  destruct u as [user|]; [|discriminate Hc3].
  destruct (u_isBlocked user) eqn:Eblk; [discriminate Hc3|].
  destruct (u_isVerified user) eqn:Ever; [|discriminate Hc3]. cbn [negb] in Hc3.
  destruct (bind_inv _ _ _ _ _ Hc3) as [(e & _ & [=]) | (w4 & [] & Hmark & Hc4)]. clear Hc3.
  injection Hc4 as <- <-.
  destruct (markApiKeyAsUsed_inv _ _ _ _ Hmark) as [(e & [=] & _) | (_ & Hd4)].
  rewrite Hd3, Hd1, Hn3, Hn1 in Hd4. rewrite Hd1 in Hu. rewrite Hn1 in Eexp.
  exists key, k, user. repeat split; auto.
  - intros e He. rewrite He in Eexp. now apply Z.ltb_ge.
  - intros ips Hips. rewrite Hips in Eip.
    destruct ips as [|i ips]; [now left|]. right.
    cbn [length Z.of_nat] in Eip.
    assert ((0 <? Z.pos (Pos.of_succ_nat (length ips))) = true) as Hlt by reflexivity.
    rewrite Hlt in Eip. cbn [andb] in Eip.
    apply negb_false_iff, existsb_exists in Eip. destruct Eip as (x & Hin & Hx).
    apply String.eqb_eq in Hx. now subst x.
Qed.

(** X9.  Whatever the fault plan, [validateApiKey] calls [next()] only for
    a request whose [x-api-key] header names a stored key that is active,
    not expired and allowed from the caller's address, and whose owner is
    stored, verified and not blocked.  It then hands on the request with
    that owner as [req.user], the key as [req.apiKey] and the body as it
    was; the users, transactions and otp_codes tables are as before, and in
    api_keys the use is recorded in the [lastUsed] of that key. *)
Theorem validateApiKey_sound :
  forall req w w' req',
    validateApiKey req w = (w', Next req') ->
    exists key k user,
      req_x_api_key req = Some key /\ key <> ""
      /\ select_api_key key (apiKeys (db w)) = Some k
      /\ k_active k = true
      /\ (forall e, k_expiresAt k = Some e -> now w <= e)
      /\ (forall ips, k_ipRestrictions k = Some ips -> ips = [] \/ In (req_ip req) ips)
      /\ select_user_by_id (k_userId k) (users (db w)) = Some user
      /\ u_isBlocked user = false
      /\ u_isVerified user = true
      /\ req_user req' = Some user
      /\ req_apiKey req' = Some k
      /\ req_body req' = req_body req
      /\ users (db w') = users (db w)
      /\ transactions (db w') = transactions (db w)
      /\ otpCodes (db w') = otpCodes (db w)
      /\ apiKeys (db w') = mark_key_used (k_id k) (now w) (apiKeys (db w)).
Proof.
  intros req w w' req' H.
  destruct (validateApiKey_next req w w' req' H)
    as (key & k & user & H1 & H2 & H3 & H4 & H5 & H6 & H7 & H8 & H9 & H10 & H11 & H12 & Hdb).
  exists key, k, user. rewrite Hdb. repeat split; assumption.
Qed.

Lemma validateApiKey_sound_witness :
  exists key k user,
    req_x_api_key (Samples.key_request "k-alice" empty_body) = Some key /\ key <> ""
    /\ select_api_key key (apiKeys (db Samples.w_keys)) = Some k
    /\ k_active k = true
    /\ (forall e, k_expiresAt k = Some e -> now Samples.w_keys <= e)
    /\ (forall ips, k_ipRestrictions k = Some ips ->
        ips = [] \/ In (req_ip (Samples.key_request "k-alice" empty_body)) ips)
    /\ select_user_by_id (k_userId k) (users (db Samples.w_keys)) = Some user
    /\ u_isBlocked user = false
    /\ u_isVerified user = true
    /\ req_user (mkRequest POST "/api/transfer" None (Some "k-alice") "10.0.0.1"
                           (Some Demo.alice) (Some Samples.alice_key) empty_body)
       = Some user
    /\ req_apiKey (mkRequest POST "/api/transfer" None (Some "k-alice") "10.0.0.1"
                             (Some Demo.alice) (Some Samples.alice_key) empty_body)
       = Some k
    /\ req_body (mkRequest POST "/api/transfer" None (Some "k-alice") "10.0.0.1"
                           (Some Demo.alice) (Some Samples.alice_key) empty_body)
       = req_body (Samples.key_request "k-alice" empty_body)
    /\ users (db (fst (validateApiKey (Samples.key_request "k-alice" empty_body)
                         Samples.w_keys)))
       = users (db Samples.w_keys)
    /\ transactions (db (fst (validateApiKey (Samples.key_request "k-alice" empty_body)
                                Samples.w_keys)))
       = transactions (db Samples.w_keys)
    /\ otpCodes (db (fst (validateApiKey (Samples.key_request "k-alice" empty_body)
                            Samples.w_keys)))
       = otpCodes (db Samples.w_keys)
    /\ apiKeys (db (fst (validateApiKey (Samples.key_request "k-alice" empty_body)
                           Samples.w_keys)))
       = mark_key_used (k_id k) (now Samples.w_keys) (apiKeys (db Samples.w_keys)).
Proof.
  apply (validateApiKey_sound (Samples.key_request "k-alice" empty_body) Samples.w_keys).
  reflexivity.
Defined.

Lemma reads_getApiKey key : reads (getApiKey key).
Proof. intros w w' r H. destruct (getApiKey_inv _ _ _ _ H) as (Hd & Hn & _). now split. Qed.

Lemma reads_getUser id : reads (getUser id).
Proof. intros w w' r H. destruct (getUser_inv _ _ _ _ H) as (Hd & Hn & _). now split. Qed.

Lemma reads_clock : reads clock.
Proof. intros w w' r [= <- _]. now split. Qed.

Lemma gate_api_reply code message : gate (api_reply code message).
Proof. intros w w' r [= <- <-]. reflexivity. Qed.

Lemma gate_bind_reads {A} (c : M A) (k : A -> M Step) :
  reads c -> (forall a, gate (k a)) -> gate (bind c k).
Proof.
  intros Hc Hk w w' r H.
  destruct (bind_inv _ _ _ _ _ H) as [(e & Hthrow & ->) | (w1 & a & Hval & Hrest)].
  - now destruct (Hc _ _ _ Hthrow).
  - destruct (Hc _ _ _ Hval) as [Hd _]. specialize (Hk a _ _ _ Hrest).
    destruct r as [[| | |]|]; auto; congruence.
Qed.

(** X10.  Whatever the fault plan, [validateApiKey] ends in one of two
    ways: it calls [next()], or it sends a response itself with the
    database exactly as it was.  It never passes an error on, and a request
    it refuses is not even recorded as a use of the key. *)
Theorem validateApiKey_refusal_changes_nothing :
  forall req w w' s,
    validateApiKey req w = (w', s) ->
    (exists req', s = Next req')
    \/ (exists res, s = Send res /\ db w' = db w).
Proof.
  intros req w w' s H. unfold validateApiKey, catch_500 in H.
  match type of H with
  | (match ?c w with _ => _ end) = _ =>
      assert (gate c) as Hgate; [|destruct (c w) as [w1 [s1|e]] eqn:Hc]
  end.
  - destruct (negb _); [apply gate_api_reply|].
    apply gate_bind_reads; [apply reads_getApiKey|]. intros [k|]; [|apply gate_api_reply].
    destruct (negb _); [apply gate_api_reply|].
    apply gate_bind_reads; [apply reads_clock|]. intros t.
    destruct (match k_expiresAt k with Some _ => _ | None => _ end);
      [apply gate_api_reply|].
    destruct (match k_ipRestrictions k with Some _ => _ | None => _ end);
      [apply gate_api_reply|].
    apply gate_bind_reads; [apply reads_getUser|]. intros [user|]; [|apply gate_api_reply].
    destruct (u_isBlocked user); [apply gate_api_reply|].
    destruct (negb _); [apply gate_api_reply|].
    intros w0 w0' r Hr.
    destruct (bind_inv _ _ _ _ _ Hr) as [(e & Hthrow & ->) | (w1 & [] & Hval & Hrest)].
    + destruct (markApiKeyAsUsed_inv _ _ _ _ Hthrow) as [(e' & _ & Hd) | ([=] & _)].
      exact Hd.
    + injection Hrest as <- <-. exact I.
  - injection H as <- <-. specialize (Hgate _ _ _ Hc).
    destruct s1 as [req'| res | e | e]; try contradiction.
    + left. now exists req'.
    + right. now exists res.
  - injection H as <- <-. specialize (Hgate _ _ _ Hc). right. eexists. now split.
Qed.

Lemma validateApiKey_refusal_changes_nothing_witness :
  (exists req', Send (mkResponse 401 (JApiMessage false "Invalid API key")) = Next req')
  \/ (exists res,
         Send (mkResponse 401 (JApiMessage false "Invalid API key")) = Send res
         /\ db Samples.w_keys = db Samples.w_keys).
Proof.
  apply (validateApiKey_refusal_changes_nothing
           (Samples.key_request "k-unknown" empty_body) Samples.w_keys).
  reflexivity.
Defined.

(** X11.  Behind [validateApiKey], the stack of the API-key transfer route
    runs the transfer handler only when the key lists the [transfer]
    permission, and then on behalf of the key's owner; for any other key
    [checkApiKeyPermission] answers 403 and the handler does not run. *)
Theorem api_key_stack_checks_permission :
  forall hashPassword is_email req w w1 req1 owner k,
    validateApiKey req w = (w1, Next req1) ->
    req_user req1 = Some owner ->
    req_apiKey req1 = Some k ->
    run_stack (api_key_stack hashPassword is_email) req w
    = if existsb (String.eqb "transfer") (k_permissions k)
      then (catch_next (api_key_transfer hashPassword is_email owner (req_body req1)) w1,
            [L_validateApiKey; L_checkApiKeyPermission; L_api_key_transfer])
      else (w1,
            Send (mkResponse 403
                    (JApiMessage false
                       "This API key doesn't have the required 'transfer' permission")),
            [L_validateApiKey; L_checkApiKeyPermission]).
Proof.
  intros hashPassword is_email req w w1 req1 owner k Hv Hu Hk.
  unfold api_key_stack. cbn [run_stack]. rewrite Hv.
  unfold checkApiKeyPermission. rewrite Hk.
  destruct (existsb _ _); [|reflexivity].
  unfold with_user. rewrite Hu.
  now destruct (catch_next _ w1) as [w2 [req2|res|e|e]].
Qed.

Lemma api_key_stack_checks_permission_witness :
  run_stack (api_key_stack Demo.hash Demo.has_at)
            (Samples.key_request "k-bob" (Demo.transfer_body "alice@example.com" 100 ""))
            Samples.w_keys
  = (fst (validateApiKey
            (Samples.key_request "k-bob" (Demo.transfer_body "alice@example.com" 100 ""))
            Samples.w_keys),
     Send (mkResponse 403
             (JApiMessage false
                "This API key doesn't have the required 'transfer' permission")),
     [L_validateApiKey; L_checkApiKeyPermission]).
Proof.
  apply (api_key_stack_checks_permission Demo.hash Demo.has_at
           (Samples.key_request "k-bob" (Demo.transfer_body "alice@example.com" 100 ""))
           Samples.w_keys
           (fst (validateApiKey
                   (Samples.key_request "k-bob"
                      (Demo.transfer_body "alice@example.com" 100 "")) Samples.w_keys))
           (mkRequest POST "/api/transfer" None (Some "k-bob") "10.0.0.1"
                      (Some Demo.bob) (Some Samples.bob_key)
                      (Demo.transfer_body "alice@example.com" 100 ""))
           Demo.bob Samples.bob_key); reflexivity.
Defined.

(** ** One-time codes *)

Lemma invalidate_otps_ids email purpose os id :
  existsb (fun o => o_id o =? id) (invalidate_otps email purpose os)
  = existsb (fun o => o_id o =? id) os.
Proof.
  unfold invalidate_otps. induction os as [|x xs IH]; simpl; [reflexivity|].
  rewrite IH. now destruct (_ && _ && _).
Qed.

Lemma invalidate_otps_no_match email purpose code t os :
  filter (otp_matches email code purpose t) (invalidate_otps email purpose os) = [].
Proof.
  unfold invalidate_otps. induction os as [|x xs IH]; simpl; [reflexivity|].
  unfold otp_matches at 1.
  destruct (String.eqb (o_email x) email) eqn:E1; simpl;
    [|rewrite E1; simpl; exact IH].
  destruct (String.eqb (o_purpose x) purpose) eqn:E2; simpl;
    [|rewrite E1, E2, andb_false_r; simpl; exact IH].
  destruct (o_isUsed x) eqn:E3; simpl.
  - rewrite E1, E2, E3. rewrite !andb_false_r. simpl. exact IH.
  - rewrite E1, E2. rewrite !andb_false_r. simpl. exact IH.
Qed.

Lemma invalidate_otps_other email purpose email' code purpose' t os :
  email' <> email \/ purpose' <> purpose ->
  filter (otp_matches email' code purpose' t) (invalidate_otps email purpose os)
  = filter (otp_matches email' code purpose' t) os.
Proof.
  intros Hother. unfold invalidate_otps.
  induction os as [|x xs IH]; simpl; [reflexivity|].
  rewrite IH.
  destruct (String.eqb (o_email x) email && String.eqb (o_purpose x) purpose
            && negb (o_isUsed x)) eqn:E; [|reflexivity].
  apply andb_prop in E. destruct E as [E E3]. apply andb_prop in E. destruct E as [E1 E2].
  apply String.eqb_eq in E1, E2.
  assert (otp_matches email' code purpose' t x = false) as Hx.
  { unfold otp_matches. destruct Hother as [H | H].
    - assert (String.eqb (o_email x) email' = false) as ->
          by (apply String.eqb_neq; congruence). reflexivity.
    - assert (String.eqb (o_purpose x) purpose' = false) as ->
          by (apply String.eqb_neq; congruence). now rewrite !andb_false_r. }
  rewrite Hx. unfold otp_matches. simpl.
  destruct Hother as [H | H].
  - assert (String.eqb (o_email x) email' = false) as ->
        by (apply String.eqb_neq; congruence). reflexivity.
  - assert (String.eqb (o_purpose x) purpose' = false) as ->
        by (apply String.eqb_neq; congruence). now rewrite !andb_false_r.
Qed.

Lemma createOtpCode_run id data w :
  faults w = [] ->
  existsb (fun o => o_id o =? id) (otpCodes (db w)) = false ->
  createOtpCode id data w
  = (set_db (set_otps (invalidate_otps (io_email data) (io_purpose data) (otpCodes (db w))
                       ++ [mkOtpCode id (io_userId data) (io_email data) (io_code data)
                                     (io_purpose data) (io_expiresAt data) false])
                      (db w)) w,
     Val (mkOtpCode id (io_userId data) (io_email data) (io_code data)
                    (io_purpose data) (io_expiresAt data) false)).
Proof.
  destruct w as [d n f o]. simpl. intros -> Hfresh.
  unfold createOtpCode, storage, storage_try, io. simpl. unfold M_bind. simpl.
  rewrite invalidate_otps_ids, Hfresh. reflexivity.
Qed.

(** X12.  [storage.createOtpCode] leaves exactly one code in force for its
    e-mail and purpose: afterwards [getOtpCode] for that e-mail and purpose
    finds the new row when asked for the new code before it expires, and
    finds nothing for any other code, older codes included.  Codes of other
    e-mails or purposes are found as before. *)
Theorem createOtpCode_supersedes :
  forall id data w,
    faults w = [] ->
    existsb (fun o => o_id o =? id) (otpCodes (db w)) = false ->
    exists w' new,
      createOtpCode id data w = (w', Val new)
      /\ o_code new = io_code data /\ o_isUsed new = false
      /\ users (db w') = users (db w)
      /\ (forall code t,
             select_otp (io_email data) code (io_purpose data) t (otpCodes (db w'))
             = if String.eqb (io_code data) code && (t <=? io_expiresAt data)
               then Some new else None)
      /\ (forall email purpose code t,
             email <> io_email data \/ purpose <> io_purpose data ->
             select_otp email code purpose t (otpCodes (db w'))
             = select_otp email code purpose t (otpCodes (db w))).
Proof.
  intros id data w Hf Hfresh.
  eexists; eexists. split; [exact (createOtpCode_run id data w Hf Hfresh)|].
  split; [reflexivity|]. split; [reflexivity|]. split; [reflexivity|]. split.
  - intros code t. unfold select_otp. simpl. rewrite filter_app.
    rewrite invalidate_otps_no_match. simpl.
    unfold otp_matches at 1. simpl. rewrite !String.eqb_refl. simpl.
    rewrite !andb_true_r.
    now destruct (String.eqb (io_code data) code && (t <=? io_expiresAt data)).
  - intros email purpose code t Hother. unfold select_otp. simpl. rewrite filter_app.
    rewrite (invalidate_otps_other _ _ _ _ _ _ _ Hother). simpl.
    assert (otp_matches email code purpose t
              (mkOtpCode id (io_userId data) (io_email data) (io_code data)
                         (io_purpose data) (io_expiresAt data) false) = false) as ->.
    { unfold otp_matches. simpl. destruct Hother as [H | H].
      - assert (String.eqb (io_email data) email = false) as ->
            by (apply String.eqb_neq; congruence). reflexivity.
      - assert (String.eqb (io_purpose data) purpose = false) as ->
            by (apply String.eqb_neq; congruence). now rewrite !andb_false_r. }
    now rewrite app_nil_r.
Qed.

Lemma createOtpCode_supersedes_witness :
  exists w' new,
    createOtpCode 2 OtpSamples.new_reset_code Examples.w_otp = (w', Val new)
    /\ o_code new = io_code OtpSamples.new_reset_code /\ o_isUsed new = false
    /\ users (db w') = users (db Examples.w_otp)
    /\ (forall code t,
           select_otp (io_email OtpSamples.new_reset_code) code
                      (io_purpose OtpSamples.new_reset_code) t (otpCodes (db w'))
           = if String.eqb (io_code OtpSamples.new_reset_code) code
                && (t <=? io_expiresAt OtpSamples.new_reset_code)
             then Some new else None)
    /\ (forall email purpose code t,
           email <> io_email OtpSamples.new_reset_code
           \/ purpose <> io_purpose OtpSamples.new_reset_code ->
           select_otp email code purpose t (otpCodes (db w'))
           = select_otp email code purpose t (otpCodes (db Examples.w_otp))).
Proof.
  apply (createOtpCode_supersedes 2 OtpSamples.new_reset_code Examples.w_otp); reflexivity.
Defined.

(** The world after a successful POST /api/reset-password. *)
Lemma reset_password_run :
  forall hashPassword is_email w req email code newPassword otp uid,
    faults w = [] ->
    b_email (req_body req) = Some email ->
    b_code (req_body req) = Some code ->
    b_newPassword (req_body req) = Some newPassword ->
    is_email email = true ->
    String.length code = 6%nat ->
    (8 <= String.length newPassword)%nat ->
    select_otp email code "password-reset" (now w) (otpCodes (db w)) = Some otp ->
    o_userId otp = Some uid -> uid <> 0 ->
    reset_password hashPassword is_email req w
    = (mkWorld (mkDb (update_users uid (patch_password (hashPassword newPassword))
                                   (users (db w)))
                     (transactions (db w)) (mark_otp_used (o_id otp) (otpCodes (db w)))
                     (apiKeys (db w)) (tx_seq (db w)))
               (now w) [] (outbox w),
       Val (mkResponse 200 (JMessage "Password reset successfully"))).
Proof.
  intros hashPassword is_email w req email code newPassword otp uid
         Hf He Hc Hn Hem Hlc Hln Hotp Huid Huid'.
  assert (newPassword <> "") as Hne by (intros ->; simpl in Hln; lia).
  unfold reset_password, updatePasswordSchema. rewrite He, Hc, Hn, Hem, Hlc.
  assert ((8 <=? Z.of_nat (String.length newPassword)) = true) as -> by (apply Z.leb_le; lia).
  cbn [andb Z.of_nat Z.eqb Pos.of_succ_nat Pos.succ Pos.eqb].
  change (ret (email, code, newPassword)) with (@M_ret _ (email, code, newPassword)).
  unfold bind at 1. cbn [Monad_M]. unfold M_bind at 1, M_ret.
  run_with getOtpCode_run. rewrite Hotp, Huid.
  cbn [truthy_num opt_or]. rewrite (proj2 (Z.eqb_neq _ _) Huid'). cbn [negb].
  run_with markOtpAsUsed_run.
  erewrite bind_val by (apply updateUser_password_run; [simpl; assumption | exact Hne]).
  destruct w as [d n f o]; simpl in Hf; subst f. reflexivity.
Qed.

Lemma mark_otp_used_no_match email code purpose t id os :
  (forall o, In o os -> otp_matches email code purpose t o = true -> o_id o = id) ->
  filter (otp_matches email code purpose t) (mark_otp_used id os) = [].
Proof.
  unfold mark_otp_used. induction os as [|x xs IH]; simpl; intros H; [reflexivity|].
  rewrite IH by (intros o Ho; apply H; now right).
  destruct (o_id x =? id) eqn:E.
  - unfold otp_matches. simpl. now rewrite !andb_false_r.
  - destruct (otp_matches email code purpose t x) eqn:Em; [|reflexivity].
    apply Z.eqb_neq in E. elim E. apply H; [now left | exact Em].
Qed.

(** X13.  A password-reset code works once.  After a successful POST
    /api/reset-password, when the code row it used was the only valid row
    for that e-mail and code, repeating the same request is answered with
    400 "Invalid or expired OTP" and changes nothing further. *)
Theorem reset_password_code_is_single_use :
  forall hashPassword is_email w req email code newPassword otp uid,
    faults w = [] ->
    b_email (req_body req) = Some email ->
    b_code (req_body req) = Some code ->
    b_newPassword (req_body req) = Some newPassword ->
    is_email email = true ->
    String.length code = 6%nat ->
    (8 <= String.length newPassword)%nat ->
    filter (otp_matches email code "password-reset" (now w)) (otpCodes (db w)) = [otp] ->
    o_userId otp = Some uid -> uid <> 0 ->
    exists w1,
      reset_password hashPassword is_email req w
      = (w1, Val (mkResponse 200 (JMessage "Password reset successfully")))
      /\ reset_password hashPassword is_email req w1
         = (w1, Val (mkResponse 400 (JMessage "Invalid or expired OTP"))).
Proof.
  intros hashPassword is_email w req email code newPassword otp uid
         Hf He Hc Hn Hem Hlc Hln Hone Huid Huid'.
  assert (select_otp email code "password-reset" (now w) (otpCodes (db w)) = Some otp)
    as Hotp by (unfold select_otp; now rewrite Hone).
  eexists. split.
  - exact (reset_password_run hashPassword is_email w req email code newPassword otp uid
             Hf He Hc Hn Hem Hlc Hln Hotp Huid Huid').
  - unfold reset_password, updatePasswordSchema. rewrite He, Hc, Hn, Hem, Hlc.
    assert ((8 <=? Z.of_nat (String.length newPassword)) = true) as ->
        by (apply Z.leb_le; lia).
    cbn [andb Z.of_nat Z.eqb Pos.of_succ_nat Pos.succ Pos.eqb].
    change (ret (email, code, newPassword)) with (@M_ret _ (email, code, newPassword)).
    unfold bind at 1. cbn [Monad_M]. unfold M_bind at 1, M_ret.
    erewrite bind_val by (apply getOtpCode_run; reflexivity).
    cbn [db now otpCodes]. unfold select_otp.
    rewrite mark_otp_used_no_match; [reflexivity|].
    intros o Ho Hm.
    assert (In o (filter (otp_matches email code "password-reset" (now w))
                         (otpCodes (db w)))) as Hin by (apply filter_In; now split).
    rewrite Hone in Hin. destruct Hin as [<- | []]. reflexivity.
Qed.

Lemma reset_password_code_is_single_use_witness :
  exists w1,
    reset_password Demo.hash Demo.has_at Examples.reset_request Examples.w_otp
    = (w1, Val (mkResponse 200 (JMessage "Password reset successfully")))
    /\ reset_password Demo.hash Demo.has_at Examples.reset_request w1
       = (w1, Val (mkResponse 400 (JMessage "Invalid or expired OTP"))).
Proof.
  apply (reset_password_code_is_single_use Demo.hash Demo.has_at Examples.w_otp
           Examples.reset_request "bob@example.com" "123456" "new-secret-1"
           Examples.bob_otp 2);
    try reflexivity; try discriminate.
  simpl. lia.
Defined.

Lemma select_otp_Some email code purpose t os o :
  select_otp email code purpose t os = Some o ->
  In o os /\ o_email o = email /\ o_code o = code /\ o_purpose o = purpose
  /\ o_isUsed o = false /\ t <= o_expiresAt o.
Proof.
  unfold select_otp. intros H.
  assert (In o (filter (otp_matches email code purpose t) os)) as Hin.
  { destruct (filter _ os) as [|x xs]; [discriminate|]. injection H as ->. now left. }
  apply filter_In in Hin. destruct Hin as [Hin Hm]. unfold otp_matches in Hm.
  repeat (apply andb_prop in Hm; destruct Hm as [Hm ?]).
  repeat split; auto.
  - now apply String.eqb_eq.
  - now apply String.eqb_eq.
  - now apply String.eqb_eq.
  - now apply negb_true_iff.
  - now apply Z.leb_le.
Qed.

Lemma getOtpCode_inv email code purpose w w' r :
  getOtpCode email code purpose w = (w', r) ->
  db w' = db w /\ now w' = now w
  /\ (forall a, r = Val a -> a = select_otp email code purpose (now w) (otpCodes (db w))).
Proof.
  unfold getOtpCode. intros H.
  destruct (io_inv _ _ _ _ H) as [(e & -> & Hd & Hn) | (w0 & a & Hd & Hn & Hop & ->)].
  - repeat split; auto. discriminate.
  - injection Hop as <- <-. rewrite Hd, Hn. repeat split; auto. now intros a' [= <-].
Qed.

(** X14.  Whatever the fault plan, POST /api/reset-password answers 200
    only when the body carries a six-character code and a new password of
    at least eight characters, and the store holds a row for that e-mail
    and code with purpose [password-reset] that is unused, not yet expired
    and attached to a user. *)
Theorem reset_password_needs_valid_code :
  forall hashPassword is_email req w w' res,
    reset_password hashPassword is_email req w = (w', Val res) ->
    status res = 200 ->
    exists email code newPassword otp uid,
      b_email (req_body req) = Some email
      /\ b_code (req_body req) = Some code
      /\ b_newPassword (req_body req) = Some newPassword
      /\ String.length code = 6%nat
      /\ (8 <= String.length newPassword)%nat
      /\ In otp (otpCodes (db w))
      /\ o_email otp = email /\ o_code otp = code
      /\ o_purpose otp = "password-reset"
      /\ o_isUsed otp = false
      /\ now w <= o_expiresAt otp
      /\ o_userId otp = Some uid /\ uid <> 0.
Proof.
  intros hashPassword is_email req w w' res Hrun Hst.
  unfold reset_password, updatePasswordSchema in Hrun.
  destruct (b_email (req_body req)) as [email|] eqn:He; [|discriminate Hrun].
  destruct (b_code (req_body req)) as [code|] eqn:Hc; [|discriminate Hrun].
  destruct (b_newPassword (req_body req)) as [newPassword|] eqn:Hn; [|discriminate Hrun].
  destruct (is_email email && (Z.of_nat (String.length code) =? 6)
            && (8 <=? Z.of_nat (String.length newPassword))) eqn:Eok;
    [|discriminate Hrun].
  apply andb_prop in Eok. destruct Eok as [Eok E8].
  apply andb_prop in Eok. destruct Eok as [_ E6].
  change (ret (email, code, newPassword))
    with (@M_ret _ (email, code, newPassword)) in Hrun.
  unfold bind at 1 in Hrun. cbn [Monad_M] in Hrun. unfold M_bind at 1, M_ret in Hrun.
  destruct (bind_inv _ _ _ _ _ Hrun) as [(e & _ & [=]) | (w1 & a & Hget & Hrest)].
  destruct (getOtpCode_inv _ _ _ _ _ _ Hget) as (_ & _ & Ha). specialize (Ha _ eq_refl).
  destruct a as [otp|];
    [|injection Hrest as <- <-; discriminate Hst].
  destruct (truthy_num (o_userId otp)) eqn:Euid;
    [|injection Hrest as <- <-; discriminate Hst].
  destruct (truthy_num_Some _ Euid) as (uid & Huid & Huid').
  destruct (select_otp_Some _ _ _ _ _ _ (eq_sym Ha)) as (Hin & H1 & H2 & H3 & H4 & H5).
  exists email, code, newPassword, otp, uid. repeat split; auto.
  - apply Z.eqb_eq in E6. lia.
  - apply Z.leb_le in E8. lia.
Qed.

Lemma reset_password_needs_valid_code_witness :
  exists email code newPassword otp uid,
    b_email (req_body Examples.reset_request) = Some email
    /\ b_code (req_body Examples.reset_request) = Some code
    /\ b_newPassword (req_body Examples.reset_request) = Some newPassword
    /\ String.length code = 6%nat
    /\ (8 <= String.length newPassword)%nat
    /\ In otp (otpCodes (db Examples.w_otp))
    /\ o_email otp = email /\ o_code otp = code
    /\ o_purpose otp = "password-reset"
    /\ o_isUsed otp = false
    /\ now Examples.w_otp <= o_expiresAt otp
    /\ o_userId otp = Some uid /\ uid <> 0.
Proof.
  apply (reset_password_needs_valid_code Demo.hash Demo.has_at Examples.reset_request
           Examples.w_otp
           (fst (reset_password Demo.hash Demo.has_at Examples.reset_request Examples.w_otp))
           (mkResponse 200 (JMessage "Password reset successfully")));
    reflexivity.
Defined.

(** ** POST /api/verify-otp *)

Lemma getOtpCodes_run email w :
  faults w = [] ->
  getOtpCodes email w
  = (w, Val (filter (fun o => String.eqb (o_email o) email) (otpCodes (db w)))).
Proof. destruct w as [d n f o]; simpl; intros ->. reflexivity. Qed.

Lemma updateUser_plain_run hashPassword id data w :
  faults w = [] -> p_password data = None ->
  updateUser hashPassword id data w
  = (with_users (update_users id data (users (db w))) w,
     Val (select_user_by_id id (update_users id data (users (db w))))).
Proof.
  destruct w as [d n f o]; simpl; intros -> Hp. unfold updateUser.
  rewrite Hp. reflexivity.
Qed.

Lemma total_update_no_balance id p us :
  p_balance p = None -> total_balance (update_users id p us) = total_balance us.
Proof.
  intros Hp. unfold update_users. induction us as [|x xs IH]; simpl; [reflexivity|].
  rewrite IH. destruct (u_id x =? id); [|reflexivity].
  unfold apply_patch. rewrite Hp. reflexivity.
Qed.

(** X15.  POST /api/verify-otp with a valid code of purpose [verification]
    answers 200, marks the code used and sets [isVerified] on the row of the
    user the code belongs to.  That row keeps its id, name, e-mail,
    password, balance, [isAdmin] and [isBlocked]; no other row changes,
    and the sum of the balances is as before. *)
Theorem verify_otp_verifies_the_user :
  forall hashPassword is_email b w email code otp uid u,
    faults w = [] ->
    vo_email b = Some email -> vo_code b = Some code ->
    vo_purpose b = Some "verification" ->
    is_email email = true ->
    String.length code = 6%nat ->
    select_otp email code "verification" (now w) (otpCodes (db w)) = Some otp ->
    o_userId otp = Some uid -> uid <> 0 ->
    select_user_by_id uid (users (db w)) = Some u ->
    exists w' u',
      verify_otp hashPassword is_email b w
      = (w', Val (mkResponse 200 (JMessage "OTP verified successfully")))
      /\ select_user_by_id uid (users (db w')) = Some u'
      /\ u_isVerified u' = true
      /\ u_id u' = u_id u /\ u_name u' = u_name u /\ u_email u' = u_email u
      /\ u_password u' = u_password u /\ u_balance u' = u_balance u
      /\ u_isAdmin u' = u_isAdmin u /\ u_isBlocked u' = u_isBlocked u
      /\ (forall j, j <> uid ->
                    select_user_by_id j (users (db w')) = select_user_by_id j (users (db w)))
      /\ total_balance (users (db w')) = total_balance (users (db w))
      /\ otpCodes (db w') = mark_otp_used (o_id otp) (otpCodes (db w)).
Proof.
  intros hashPassword is_email b w email code otp uid u
         Hf He Hc Hp Hem Hlc Hotp Huid Huid' Hu.
  unfold verify_otp, verifyOtpSchema. rewrite He, Hc, Hp, Hem, Hlc.
  cbn [andb Z.of_nat Z.eqb Pos.of_succ_nat Pos.succ Pos.eqb].
  change (ret (email, code, "verification"))
    with (@M_ret _ (email, code, "verification")).
  unfold bind at 1. cbn [Monad_M]. unfold M_bind at 1, M_ret.
  run_with getOtpCodes_run. run_with getOtpCode_run. rewrite Hotp, Huid.
  run_with markOtpAsUsed_run.
  rewrite String.eqb_refl. cbn [truthy_num opt_or].
  rewrite (proj2 (Z.eqb_neq _ _) Huid'). cbn [negb andb].
  erewrite bind_val.
  2:{ erewrite bind_val by (apply updateUser_plain_run; [simpl; assumption | reflexivity]).
      reflexivity. }
  eexists. exists (apply_patch (mkPatch None None None None (Some true)) u).
  split; [reflexivity|]. simpl.
  split; [now rewrite (select_update_same _ _ _ _ Hu)|].
  do 8 (split; [reflexivity|]).
  split; [|split].
  - intros j Hj. apply select_update_other. congruence.
  - now apply total_update_no_balance.
  - reflexivity.
Qed.

Lemma verify_otp_verifies_the_user_witness :
  exists w' u',
    verify_otp Demo.hash Demo.has_at OtpSamples.verify_body OtpSamples.w_carol
    = (w', Val (mkResponse 200 (JMessage "OTP verified successfully")))
    /\ select_user_by_id 4 (users (db w')) = Some u'
    /\ u_isVerified u' = true
    /\ u_id u' = u_id OtpSamples.carol /\ u_name u' = u_name OtpSamples.carol
    /\ u_email u' = u_email OtpSamples.carol
    /\ u_password u' = u_password OtpSamples.carol
    /\ u_balance u' = u_balance OtpSamples.carol
    /\ u_isAdmin u' = u_isAdmin OtpSamples.carol
    /\ u_isBlocked u' = u_isBlocked OtpSamples.carol
    /\ (forall j, j <> 4 ->
                  select_user_by_id j (users (db w'))
                  = select_user_by_id j (users (db OtpSamples.w_carol)))
    /\ total_balance (users (db w')) = total_balance (users (db OtpSamples.w_carol))
    /\ otpCodes (db w')
       = mark_otp_used (o_id OtpSamples.carol_otp) (otpCodes (db OtpSamples.w_carol)).
Proof.
  apply (verify_otp_verifies_the_user Demo.hash Demo.has_at OtpSamples.verify_body
           OtpSamples.w_carol "carol@example.com" "654321" OtpSamples.carol_otp 4
           OtpSamples.carol);
    try reflexivity; discriminate.
Defined.

(** ** [storage.createUser] *)

Lemma filter_none_of_existsb {A} (f g : A -> bool) (l : list A) :
  existsb f l = false -> (forall x, g x = true -> f x = true) -> filter g l = [].
Proof.
  intros He Himp. induction l as [|x xs IH]; simpl in *; [reflexivity|].
  apply orb_false_elim in He. destruct He as [Hx Hxs].
  destruct (g x) eqn:Eg; [rewrite (Himp _ Eg) in Hx; discriminate | now apply IH].
Qed.

Lemma total_balance_app us vs :
  total_balance (us ++ vs) = total_balance us + total_balance vs.
Proof.
  unfold total_balance. induction us as [|x xs IH]; simpl; [reflexivity|].
  rewrite IH. lia.
Qed.

(** X16.  [storage.createUser] with an id and an e-mail that are not yet
    stored: the new row is then found both by its e-mail and by its id; it
    holds the hash of the password, never the role of admin, and the
    balance given in the data or else 10000.  Every row stored before is
    found as before, and the sum of the balances grows by the new balance. *)
Theorem createUser_then_lookup :
  forall hashPassword id userData w,
    faults w = [] ->
    existsb (fun u => (u_id u =? id) || String.eqb (u_email u) (iu_email userData))
            (users (db w)) = false ->
    exists w' u,
      createUser hashPassword id userData w = (w', Val u)
      /\ select_user_by_email (iu_email userData) (users (db w')) = Some u
      /\ select_user_by_id id (users (db w')) = Some u
      /\ u_password u = hashPassword (iu_password userData)
      /\ u_isAdmin u = false
      /\ u_balance u = opt_or (iu_balance userData) 10000
      /\ (forall email, email <> iu_email userData ->
                        select_user_by_email email (users (db w'))
                        = select_user_by_email email (users (db w)))
      /\ (forall j, j <> id ->
                    select_user_by_id j (users (db w')) = select_user_by_id j (users (db w)))
      /\ total_balance (users (db w')) = total_balance (users (db w)) + u_balance u.
Proof.
  intros hashPassword id userData w Hf Hfresh.
  destruct w as [d n f o]. simpl in Hf, Hfresh. subst f.
  unfold createUser, storage_try. simpl. rewrite Hfresh.
  eexists; eexists. split; [reflexivity|]. simpl.
  split; [|split; [|split; [|split; [|split; [|split; [|split]]]]]]; try reflexivity.
  - unfold select_user_by_email. rewrite filter_app. simpl. rewrite String.eqb_refl.
    rewrite (filter_none_of_existsb _ _ _ Hfresh); [reflexivity|].
    intros x Hx. rewrite Hx. apply orb_true_r.
  - unfold select_user_by_id. rewrite filter_app. simpl. rewrite Z.eqb_refl.
    rewrite (filter_none_of_existsb _ _ _ Hfresh); [reflexivity|].
    intros x Hx. now rewrite Hx.
  - intros email Hne. unfold select_user_by_email. rewrite filter_app. simpl.
    rewrite (proj2 (String.eqb_neq _ _) (not_eq_sym Hne)). now rewrite app_nil_r.
  - intros j Hne. unfold select_user_by_id. rewrite filter_app. simpl.
    rewrite (proj2 (Z.eqb_neq _ _) (not_eq_sym Hne)). now rewrite app_nil_r.
  - rewrite total_balance_app. simpl. lia.
Qed.

Lemma createUser_then_lookup_witness :
  exists w' u,
    createUser Demo.hash 4 UserSamples.dave Demo.w0 = (w', Val u)
    /\ select_user_by_email (iu_email UserSamples.dave) (users (db w')) = Some u
    /\ select_user_by_id 4 (users (db w')) = Some u
    /\ u_password u = Demo.hash (iu_password UserSamples.dave)
    /\ u_isAdmin u = false
    /\ u_balance u = opt_or (iu_balance UserSamples.dave) 10000
    /\ (forall email, email <> iu_email UserSamples.dave ->
                      select_user_by_email email (users (db w'))
                      = select_user_by_email email (users (db Demo.w0)))
    /\ (forall j, j <> 4 ->
                  select_user_by_id j (users (db w')) = select_user_by_id j (users (db Demo.w0)))
    /\ total_balance (users (db w')) = total_balance (users (db Demo.w0)) + u_balance u.
Proof.
  apply (createUser_then_lookup Demo.hash 4 UserSamples.dave Demo.w0); reflexivity.
Defined.

(** X17.  [storage.createUser] with an e-mail that a stored row already
    has throws and writes nothing, so the e-mails of the stored rows stay
    pairwise different. *)
Theorem createUser_refuses_taken_email :
  forall hashPassword id userData w existing,
    faults w = [] ->
    select_user_by_email (iu_email userData) (users (db w)) = Some existing ->
    createUser hashPassword id userData w = (w, Throw StorageError).
Proof.
  intros hashPassword id userData w existing Hf Hex.
  destruct w as [d n f o]. simpl in Hf, Hex. subst f.
  unfold createUser, storage_try. simpl.
  assert (existsb (fun u => (u_id u =? id) || String.eqb (u_email u) (iu_email userData))
                  (users d) = true) as ->; [|reflexivity].
  apply existsb_exists. exists existing. split.
  - exact (select_user_by_email_In _ _ _ Hex).
  - unfold select_user_by_email in Hex.
    assert (In existing (filter (fun u => String.eqb (u_email u) (iu_email userData))
                                (users d))) as Hin.
    { destruct (filter _ (users d)) as [|x xs]; [discriminate|].
      injection Hex as ->. now left. }
    apply filter_In in Hin. destruct Hin as [_ ->]. apply orb_true_r.
Qed.

Lemma createUser_refuses_taken_email_witness :
  createUser Demo.hash 4
    (mkInsertUser "Bob again" "bob@example.com" "another-secret" (Some 99999) None None)
    Demo.w0
  = (Demo.w0, Throw StorageError).
Proof.
  apply (createUser_refuses_taken_email Demo.hash 4
           (mkInsertUser "Bob again" "bob@example.com" "another-secret" (Some 99999)
                         None None)
           Demo.w0 Demo.bob); reflexivity.
Defined.

(** ** The admin routes *)

Lemma blockUser_run id w :
  faults w = [] ->
  blockUser id w
  = (with_users (block_users true id (users (db w))) w,
     Val (select_user_by_id id (block_users true id (users (db w))))).
Proof. destruct w as [d n f o]; simpl; intros ->. reflexivity. Qed.

Lemma unblockUser_run id w :
  faults w = [] ->
  unblockUser id w
  = (with_users (block_users false id (users (db w))) w,
     Val (select_user_by_id id (block_users false id (users (db w))))).
Proof. destruct w as [d n f o]; simpl; intros ->. reflexivity. Qed.

Lemma select_block_users blocked id us :
  select_user_by_id id (block_users blocked id us)
  = option_map (set_blocked blocked) (select_user_by_id id us).
Proof.
  unfold select_user_by_id, block_users. induction us as [|x xs IH]; simpl; [reflexivity|].
  destruct (u_id x =? id) eqn:E; simpl; rewrite E; [reflexivity | exact IH].
Qed.

Lemma admin_block_200 admin uid w w1 res :
  admin_block admin uid w = (w1, Val res) ->
  status res = 200 ->
  uid <> u_id admin
  /\ users (db w1) = block_users true uid (users (db w))
  /\ apiKeys (db w1) = apiKeys (db w).
Proof.
  intros Hrun Hst. unfold admin_block in Hrun.
  destruct (uid =? u_id admin) eqn:E; [injection Hrun as <- <-; discriminate|].
  split; [now apply Z.eqb_neq|].
  destruct (bind_inv _ _ _ _ _ Hrun) as [(e & _ & [=]) | (w2 & a & Hblock & Hrest)].
  assert (w1 = w2) as -> by (destruct a; now injection Hrest as <- _).
  unfold blockUser, storage in Hblock.
  destruct (io_inv _ _ _ _ Hblock) as [(e & [=] & _) | (w0 & a' & Hd & _ & Hop & _)].
  destruct w0 as [d0 n0 f0 o0]. simpl in Hd, Hop. subst d0.
  injection Hop as <- _. now split.
Qed.

(** X18.  After an admin has blocked a user through PATCH
    /api/admin/users/:id/block (answer 200, which is never given for the
    admin's own id), [validateApiKey] lets no request through that
    presents an API key of that user: whatever the fault plans of the two
    requests, and at whatever time the second one comes, as long as the
    database is the one the block left. *)
Theorem admin_block_stops_api_keys :
  forall admin uid w w1 res,
    admin_block admin uid w = (w1, Val res) ->
    status res = 200 ->
    uid <> u_id admin
    /\ forall w1' req key k w2 req',
        db w1' = db w1 ->
        req_x_api_key req = Some key ->
        select_api_key key (apiKeys (db w1)) = Some k ->
        k_userId k = uid ->
        validateApiKey req w1' <> (w2, Next req').
Proof.
  intros admin uid w w1 res Hrun Hst.
  destruct (admin_block_200 _ _ _ _ _ Hrun Hst) as (Hne & Hus & _). split; [exact Hne|].
  intros w1' req key k w2 req' Hdb Hkey Hk Hown Hnext.
  destruct (validateApiKey_next _ _ _ _ Hnext)
    as (key' & k' & user & Hkey' & _ & Hk' & _ & _ & _ & Hu & Hblk & _).
  rewrite Hkey in Hkey'. injection Hkey' as <-.
  rewrite Hdb in Hk', Hu.
  rewrite Hk in Hk'. injection Hk' as <-.
  rewrite Hown, Hus, select_block_users in Hu.
  destruct (select_user_by_id uid (users (db w))) as [u|]; [|discriminate].
  injection Hu as <-. discriminate.
Qed.

Lemma admin_block_stops_api_keys_witness :
  2 <> u_id Demo.root
  /\ forall w1' req key k w2 req',
      db w1' = db (fst (admin_block Demo.root 2 Samples.w_keys)) ->
      req_x_api_key req = Some key ->
      select_api_key key
        (apiKeys (db (fst (admin_block Demo.root 2 Samples.w_keys)))) = Some k ->
      k_userId k = 2 ->
      validateApiKey req w1' <> (w2, Next req').
Proof.
  apply (admin_block_stops_api_keys Demo.root 2 Samples.w_keys _
           (mkResponse 200 (JUser (set_blocked true Demo.bob)))); reflexivity.
Defined.

Lemma block_users_absent blocked id us :
  ~ In id (map u_id us) -> block_users blocked id us = us.
Proof.
  unfold block_users. induction us as [|x xs IH]; simpl; [reflexivity|].
  intros Hn. destruct (u_id x =? id) eqn:E.
  - apply Z.eqb_eq in E. exfalso. apply Hn. now left.
  - f_equal. apply IH. intros Hin. apply Hn. now right.
Qed.

Lemma block_then_unblock id us u :
  ids_unique us ->
  select_user_by_id id us = Some u ->
  u_isBlocked u = false ->
  block_users false id (block_users true id us) = us.
Proof.
  unfold ids_unique, select_user_by_id.
  induction us as [|x xs IH]; simpl; intros Hnd Hsel Hb; [reflexivity|].
  inversion Hnd as [|? ? Hnotin Hnd']; subst.
  destruct (u_id x =? id) eqn:E; simpl.
  - simpl in Hsel. injection Hsel as ->. rewrite E.
    apply Z.eqb_eq in E. subst id.
    fold (block_users true (u_id u) xs). rewrite (block_users_absent _ _ _ Hnotin).
    fold (block_users false (u_id u) xs). rewrite (block_users_absent _ _ _ Hnotin).
    f_equal. destruct u; simpl in *; now subst.
  - rewrite E. f_equal. now apply IH.
Qed.

(** X19.  Blocking and then unblocking: for a stored, unblocked user other
    than the admin, PATCH .../block answers 200 with the row marked
    blocked, and PATCH .../unblock after it answers 200 with the row marked
    not blocked.  After the two calls the row has the id, name, e-mail,
    password, balance, [isVerified], [isAdmin] and [isBlocked] it had
    before them, no other row of users has changed, and the transactions,
    otp_codes and api_keys tables are as they were. *)
Theorem admin_block_then_unblock :
  forall admin uid w u,
    faults w = [] ->
    ids_unique (users (db w)) ->
    select_user_by_id uid (users (db w)) = Some u ->
    u_isBlocked u = false ->
    uid <> u_id admin ->
    exists w1 u1 w2 u2,
      admin_block admin uid w = (w1, Val (mkResponse 200 (JUser u1)))
      /\ select_user_by_id uid (users (db w1)) = Some u1
      /\ u_isBlocked u1 = true
      /\ admin_unblock uid w1 = (w2, Val (mkResponse 200 (JUser u2)))
      /\ select_user_by_id uid (users (db w2)) = Some u2
      /\ u_isBlocked u2 = false
      /\ u_id u2 = u_id u /\ u_name u2 = u_name u /\ u_email u2 = u_email u
      /\ u_password u2 = u_password u /\ u_balance u2 = u_balance u
      /\ u_isVerified u2 = u_isVerified u /\ u_isAdmin u2 = u_isAdmin u
      /\ (forall j, j <> uid ->
                    select_user_by_id j (users (db w2)) = select_user_by_id j (users (db w)))
      /\ transactions (db w2) = transactions (db w)
      /\ otpCodes (db w2) = otpCodes (db w)
      /\ apiKeys (db w2) = apiKeys (db w).
Proof.
  intros admin uid w u Hf Huniq Hu Hb Hne.
  exists (with_users (block_users true uid (users (db w))) w), (set_blocked true u),
         w, u.
  assert (admin_block admin uid w
          = (with_users (block_users true uid (users (db w))) w,
             Val (mkResponse 200 (JUser (set_blocked true u))))) as Hblock.
  { unfold admin_block. rewrite (proj2 (Z.eqb_neq _ _) Hne).
    run_with blockUser_run. now rewrite select_block_users, Hu. }
  assert (admin_unblock uid (with_users (block_users true uid (users (db w))) w)
          = (w, Val (mkResponse 200 (JUser u)))) as Hunblock.
  { unfold admin_unblock.
    erewrite bind_val by (apply unblockUser_run; simpl; exact Hf).
    simpl. rewrite (block_then_unblock _ _ _ Huniq Hu Hb), Hu.
    destruct w as [d n f o]; simpl in Hf; subst f. destruct d; reflexivity. }
  split; [exact Hblock|].
  split; [simpl; now rewrite select_block_users, Hu|].
  split; [reflexivity|].
  split; [exact Hunblock|].
  split; [exact Hu|].
  split; [exact Hb|].
  repeat split; reflexivity.
Qed.

Lemma admin_block_then_unblock_witness :
  exists w1 u1 w2 u2,
    admin_block Demo.root 2 Demo.w0 = (w1, Val (mkResponse 200 (JUser u1)))
    /\ select_user_by_id 2 (users (db w1)) = Some u1
    /\ u_isBlocked u1 = true
    /\ admin_unblock 2 w1 = (w2, Val (mkResponse 200 (JUser u2)))
    /\ select_user_by_id 2 (users (db w2)) = Some u2
    /\ u_isBlocked u2 = false
    /\ u_id u2 = u_id Demo.bob /\ u_name u2 = u_name Demo.bob
    /\ u_email u2 = u_email Demo.bob
    /\ u_password u2 = u_password Demo.bob /\ u_balance u2 = u_balance Demo.bob
    /\ u_isVerified u2 = u_isVerified Demo.bob /\ u_isAdmin u2 = u_isAdmin Demo.bob
    /\ (forall j, j <> 2 ->
                  select_user_by_id j (users (db w2))
                  = select_user_by_id j (users (db Demo.w0)))
    /\ transactions (db w2) = transactions (db Demo.w0)
    /\ otpCodes (db w2) = otpCodes (db Demo.w0)
    /\ apiKeys (db w2) = apiKeys (db Demo.w0).
Proof.
  apply (admin_block_then_unblock Demo.root 2 Demo.w0 Demo.bob);
    try reflexivity; try discriminate.
  exact demo_ids_unique.
Defined.

Lemma select_None_absent id us :
  select_user_by_id id us = None -> ~ In id (map u_id us).
Proof.
  unfold select_user_by_id. induction us as [|x xs IH]; simpl; [tauto|].
  destruct (u_id x =? id) eqn:E; simpl; [discriminate|].
  intros H [Hx | Hin]; [apply Z.eqb_neq in E; contradiction | now apply IH].
Qed.

(** X20.  PATCH /api/admin/users/:id/balance, whatever the body: if every
    balance was non-negative before, every balance is non-negative after;
    no row other than the one with the given id is changed; an answer of
    200 means the body held a non-negative balance and that row now holds
    it; and for an id that is not stored nothing is written. *)
Theorem admin_update_balance_sound :
  forall hashPassword userId b w w' r,
    faults w = [] ->
    Forall (fun u => 0 <= u_balance u) (users (db w)) ->
    admin_update_balance hashPassword userId b w = (w', r) ->
    Forall (fun u => 0 <= u_balance u) (users (db w'))
    /\ (forall j, j <> userId ->
                  select_user_by_id j (users (db w')) = select_user_by_id j (users (db w)))
    /\ (forall res, r = Val res -> status res = 200 ->
                    exists balance, b_balance b = Some balance /\ 0 <= balance
                                    /\ balance_of userId w' = Some balance)
    /\ (select_user_by_id userId (users (db w)) = None -> users (db w') = users (db w)).
Proof.
  intros hashPassword userId b w w' r Hf Hpos Hrun. unfold admin_update_balance in Hrun.
  destruct (b_balance b) as [balance|];
    [|injection Hrun as <- <-; repeat split; auto; intros res [= <-]; discriminate].
  destruct (balance <? 0) eqn:Eneg;
    [injection Hrun as <- <-; repeat split; auto; intros res [= <-]; discriminate|].
  apply Z.ltb_ge in Eneg.
  erewrite bind_val in Hrun by (apply updateUser_balance_run; exact Hf).
  assert (w' = with_users (update_users userId (patch_balance balance) (users (db w))) w)
    as -> by (destruct (select_user_by_id _ _); now injection Hrun as <- _).
  simpl. split; [now apply update_users_nonneg|]. split; [|split].
  - intros j Hj. now apply select_update_other.
  - intros res -> Hst. exists balance. split; [reflexivity|]. split; [exact Eneg|].
    unfold balance_of. simpl.
    destruct (select_user_by_id userId (users (db w))) as [u|] eqn:Eu.
    + now rewrite (select_update_same _ _ _ _ Eu).
    + rewrite (update_users_absent _ _ _ (select_None_absent _ _ Eu)) in Hrun.
      rewrite Eu in Hrun. injection Hrun as <-. discriminate.
  - intros Hnone. apply update_users_absent. now apply select_None_absent.
Qed.

Lemma admin_update_balance_sound_witness :
  Forall (fun u => 0 <= u_balance u)
         (users (db (fst (admin_update_balance Demo.hash 2 (UserSamples.balance_body 42)
                            Demo.w0))))
  /\ (forall j, j <> 2 ->
                select_user_by_id j
                  (users (db (fst (admin_update_balance Demo.hash 2
                                     (UserSamples.balance_body 42) Demo.w0))))
                = select_user_by_id j (users (db Demo.w0)))
  /\ (forall res,
         snd (admin_update_balance Demo.hash 2 (UserSamples.balance_body 42) Demo.w0)
         = Val res ->
         status res = 200 ->
         exists balance,
           b_balance (UserSamples.balance_body 42) = Some balance /\ 0 <= balance
           /\ balance_of 2 (fst (admin_update_balance Demo.hash 2
                                   (UserSamples.balance_body 42) Demo.w0))
              = Some balance)
  /\ (select_user_by_id 2 (users (db Demo.w0)) = None ->
      users (db (fst (admin_update_balance Demo.hash 2 (UserSamples.balance_body 42)
                        Demo.w0)))
      = users (db Demo.w0)).
Proof.
  apply (admin_update_balance_sound Demo.hash 2 (UserSamples.balance_body 42) Demo.w0);
    try reflexivity.
  repeat constructor; simpl; lia.
Defined.

(** ** PATCH /api/profile *)

Lemma updateUser_run hashPassword id data w :
  faults w = [] ->
  exists data',
    p_email data' = p_email data /\ p_balance data' = p_balance data
    /\ p_password data'
       = (if truthy_str (p_password data) then option_map hashPassword (p_password data)
          else p_password data)
    /\ updateUser hashPassword id data w
       = (with_users (update_users id data' (users (db w))) w,
          Val (select_user_by_id id (update_users id data' (users (db w))))).
Proof.
  destruct w as [d n f o]; simpl; intros ->. unfold updateUser.
  destruct (truthy_str (p_password data)).
  - exists (mkPatch (p_name data) (p_email data)
                    (option_map hashPassword (p_password data))
                    (p_balance data) (p_isVerified data)).
    repeat split.
  - exists data. repeat split.
Qed.

Lemma rows_with_id us id user x :
  ids_unique us -> select_user_by_id id us = Some user ->
  In x us -> u_id x = id -> x = user.
Proof.
  intros Huniq Hsel Hin Hid. pose proof (In_select_user_by_id _ _ Huniq Hin) as Hx.
  rewrite Hid, Hsel in Hx. now injection Hx.
Qed.

Lemma update_users_emails_same id p us :
  (forall x, In x us -> u_id x = id -> opt_or (p_email p) (u_email x) = u_email x) ->
  map u_email (update_users id p us) = map u_email us.
Proof.
  unfold update_users. induction us as [|x xs IH]; simpl; intros H; [reflexivity|].
  rewrite IH by (intros y Hy; apply H; now right). f_equal.
  destruct (u_id x =? id) eqn:E; [|reflexivity].
  simpl. apply H; [now left | now apply Z.eqb_eq].
Qed.

Lemma select_email_None_absent email us :
  select_user_by_email email us = None -> ~ In email (map u_email us).
Proof.
  unfold select_user_by_email. induction us as [|x xs IH]; simpl; [tauto|].
  destruct (String.eqb (u_email x) email) eqn:E; simpl; [discriminate|].
  intros H [Hx | Hin]; [apply String.eqb_neq in E; contradiction | now apply IH].
Qed.

Lemma update_users_emails_in id p em us a :
  p_email p = Some em ->
  In a (map u_email (update_users id p us)) -> In a (map u_email us) \/ a = em.
Proof.
  intros Hp. unfold update_users. induction us as [|x xs IH]; simpl; [tauto|].
  intros [Ha | Hin].
  - destruct (u_id x =? id); simpl in Ha.
    + rewrite Hp in Ha. simpl in Ha. now right.
    + left. now left.
  - destruct (IH Hin) as [H | H]; [left; now right | now right].
Qed.

Lemma update_email_fresh id p em us :
  ids_unique us -> emails_unique us -> ~ In em (map u_email us) ->
  p_email p = Some em ->
  emails_unique (update_users id p us).
Proof.
  unfold ids_unique, emails_unique. intros Hids Hem Hfresh Hp.
  induction us as [|x xs IH]; simpl; [constructor|].
  inversion Hids as [|? ? Hidn Hids']; subst. inversion Hem as [|? ? Hemn Hem']; subst.
  simpl in Hfresh.
  destruct (u_id x =? id) eqn:E.
  - apply Z.eqb_eq in E. subst id.
    fold (update_users (u_id x) p xs). rewrite (update_users_absent _ _ _ Hidn).
    simpl. rewrite Hp. simpl. constructor; [tauto | exact Hem'].
  - fold (update_users id p xs). constructor.
    + intros Hin. destruct (update_users_emails_in _ _ _ _ _ Hp Hin) as [H | H]; [tauto|].
      apply Hfresh. now left.
    + apply IH; auto.
Qed.

(** X21.  PATCH /api/profile keeps the e-mails of the stored rows pairwise
    different, and the ids too, whatever the body and the outcome (with no
    fault injected, the session user being the stored row, and the e-mail
    test of the schema refusing the empty string). *)
Theorem patch_profile_keeps_emails_unique :
  forall hashPassword is_email user req w w' r,
    faults w = [] ->
    is_email "" = false ->
    ids_unique (users (db w)) ->
    emails_unique (users (db w)) ->
    select_user_by_id (u_id user) (users (db w)) = Some user ->
    patch_profile hashPassword is_email user req w = (w', r) ->
    emails_unique (users (db w')) /\ ids_unique (users (db w')).
Proof.
  intros hashPassword is_email user req w w' r Hf Hempty Hids Hem Huser Hrun.
  unfold patch_profile, updateProfileSchema in Hrun.
  destruct (_ && _ && _) eqn:Eok;
    [|erewrite bind_throw in Hrun by reflexivity; injection Hrun as <- _; now split].
  apply andb_prop in Eok. destruct Eok as [Eok _].
  apply andb_prop in Eok. destruct Eok as [_ Eemail].
  match type of Hrun with
  | context [@ret M Monad_M _ ?x] => change (@ret M Monad_M _ x) with (@M_ret _ x) in Hrun
  end.
  unfold bind at 1 in Hrun. cbn [Monad_M] in Hrun. unfold M_bind at 1, M_ret in Hrun.
  set (password := if truthy_str (b_newPassword (req_body req))
                   then option_map hashPassword (b_newPassword (req_body req))
                   else None) in Hrun.
  destruct (updateUser_run hashPassword (u_id user)
              (mkPatch (b_name (req_body req)) (b_email (req_body req)) password None None)
              w Hf) as (data' & Hpe & _ & _ & Hupd).
  simpl in Hpe.
  assert (forall w1 r1,
             (updatedUser <- updateUser hashPassword (u_id user)
                               (mkPatch (b_name (req_body req)) (b_email (req_body req))
                                        password None None) ;;
              match updatedUser with
              | Some updatedUser => respond 200 (JUser updatedUser)
              | None => respond 404 (JMessage "User not found")
              end) w = (w1, r1) ->
             users (db w1) = update_users (u_id user) data' (users (db w))) as Hfinal.
  { intros w1 r1 H. erewrite bind_val in H by exact Hupd.
    destruct (select_user_by_id (u_id user) (update_users _ _ _));
      now injection H as <- _. }
  assert (ids_unique (update_users (u_id user) data' (users (db w)))) as Hids'
      by now apply update_users_unique.
  destruct (b_email (req_body req)) as [em|] eqn:Ebe.
  - destruct (String.eqb em "") eqn:Enil;
      [apply String.eqb_eq in Enil; subst em; rewrite Hempty in Eemail; discriminate|].
    cbn [truthy_str opt_or] in Hrun. rewrite Enil in Hrun. cbn [negb andb] in Hrun.
    destruct (String.eqb em (u_email user)) eqn:Esame; cbn [negb] in Hrun.
    + erewrite bind_val in Hrun by reflexivity.
      rewrite (Hfinal _ _ Hrun). split; [|exact Hids'].
      unfold emails_unique. rewrite update_users_emails_same; [exact Hem|].
      intros x Hx Hid. rewrite (rows_with_id _ _ _ _ Hids Huser Hx Hid), Hpe.
      apply String.eqb_eq in Esame. now subst em.
    + erewrite bind_val in Hrun
        by (erewrite bind_val by (apply getUserByEmail_run; exact Hf); reflexivity).
      destruct (select_user_by_email em (users (db w))) as [existing|] eqn:Eex.
      * injection Hrun as <- _. now split.
      * rewrite (Hfinal _ _ Hrun). split; [|exact Hids'].
        apply (update_email_fresh _ _ em); auto. now apply select_email_None_absent.
  - cbn [truthy_str andb] in Hrun.
    erewrite bind_val in Hrun by reflexivity.
    rewrite (Hfinal _ _ Hrun). split; [|exact Hids'].
    unfold emails_unique. rewrite update_users_emails_same; [exact Hem|].
    intros x _ _. now rewrite Hpe.
Qed.

Lemma demo_emails_unique : emails_unique (users Demo.db0).
Proof. unfold emails_unique. simpl. repeat constructor; simpl; intuition discriminate. Qed.

Lemma patch_profile_keeps_emails_unique_witness :
  emails_unique
    (users (db (fst (patch_profile Demo.hash Demo.has_at Demo.bob
                       (UserSamples.email_request "robert@example.com") Demo.w0))))
  /\ ids_unique
       (users (db (fst (patch_profile Demo.hash Demo.has_at Demo.bob
                          (UserSamples.email_request "robert@example.com") Demo.w0)))).
Proof.
  apply (patch_profile_keeps_emails_unique Demo.hash Demo.has_at Demo.bob
           (UserSamples.email_request "robert@example.com") Demo.w0 _
           (snd (patch_profile Demo.hash Demo.has_at Demo.bob
                   (UserSamples.email_request "robert@example.com") Demo.w0)));
    try reflexivity.
  - exact demo_ids_unique.
  - exact demo_emails_unique.
Defined.

(** X22.  PATCH /api/profile with a new password (and no new e-mail)
    stores the hash of the hash: the handler hashes [newPassword] and
    [storage.updateUser] hashes what it is given once more.  The stored
    value is [hashPassword (hashPassword newPassword)], not what
    registration or a password reset stores for the same password. *)
Theorem patch_profile_stores_hash_of_hash :
  forall hashPassword is_email user req w newPassword u,
    faults w = [] ->
    (forall n, b_name (req_body req) = Some n -> (2 <= String.length n)%nat) ->
    b_email (req_body req) = None ->
    b_newPassword (req_body req) = Some newPassword ->
    (8 <= String.length newPassword)%nat ->
    hashPassword newPassword <> "" ->
    select_user_by_id (u_id user) (users (db w)) = Some u ->
    exists w' u',
      patch_profile hashPassword is_email user req w
      = (w', Val (mkResponse 200 (JUser u')))
      /\ select_user_by_id (u_id user) (users (db w')) = Some u'
      /\ u_password u' = hashPassword (hashPassword newPassword).
Proof.
  intros hashPassword is_email user req w newPassword u Hf Hname Hemail Hnew Hlen Hhash Hu.
  assert (newPassword <> "") as Hne by (intros ->; simpl in Hlen; lia).
  unfold patch_profile, updateProfileSchema. rewrite Hemail, Hnew.
  assert ((8 <=? Z.of_nat (String.length newPassword)) = true) as -> by (apply Z.leb_le; lia).
  assert (match b_name (req_body req) with
          | Some n => 2 <=? Z.of_nat (String.length n)
          | None => true
          end = true) as ->.
  { destruct (b_name (req_body req)) as [n|]; [|reflexivity].
    apply Z.leb_le. specialize (Hname n eq_refl). lia. }
  cbn [andb].
  match goal with
  | |- context [@ret M Monad_M _ ?x] => change (@ret M Monad_M _ x) with (@M_ret _ x)
  end.
  unfold bind at 1. cbn [Monad_M]. unfold M_bind at 1, M_ret.
  cbn [truthy_str andb]. erewrite bind_val by reflexivity.
  rewrite (proj2 (String.eqb_neq _ _) Hne). cbn [negb option_map].
  unfold updateUser. cbn [p_password truthy_str].
  rewrite (proj2 (String.eqb_neq _ _) Hhash). cbn [negb option_map p_name p_email
                                                          p_balance p_isVerified].
  destruct w as [d n f o]; simpl in Hf, Hu; subst f.
  unfold storage, io. simpl. unfold M_bind. simpl.
  rewrite (select_update_same _ _ _ _ Hu).
  eexists; eexists. split; [reflexivity|]. simpl.
  rewrite (select_update_same _ _ _ _ Hu). split; reflexivity.
Qed.

Lemma patch_profile_stores_hash_of_hash_witness :
  exists w' u',
    patch_profile Demo.hash Demo.has_at Demo.bob Examples.profile_request Demo.w0
    = (w', Val (mkResponse 200 (JUser u')))
    /\ select_user_by_id (u_id Demo.bob) (users (db w')) = Some u'
    /\ u_password u' = Demo.hash (Demo.hash "new-secret-1").
Proof.
  apply (patch_profile_stores_hash_of_hash Demo.hash Demo.has_at Demo.bob
           Examples.profile_request Demo.w0 "new-secret-1" Demo.bob);
    try reflexivity; try discriminate.
  simpl. lia.
Defined.

(** ** Requests without a session *)




(** ** The routes under /api/user/api-keys *)

Lemma getApiKeyById_run id w :
  faults w = [] ->
  getApiKeyById id w = (w, Val (head (filter (fun k => k_id k =? id) (apiKeys (db w))))).
Proof. destruct w as [d n f o]; simpl; intros ->. reflexivity. Qed.

Lemma getUserApiKeys_run userId w :
  faults w = [] ->
  getUserApiKeys userId w
  = (w, Val (filter (fun k => k_userId k =? userId) (apiKeys (db w)))).
Proof. destruct w as [d n f o]; simpl; intros ->. reflexivity. Qed.

Lemma deleteApiKey_run id w :
  faults w = [] ->
  deleteApiKey id w
  = (set_db (set_apiKeys (filter (fun k => negb (k_id k =? id)) (apiKeys (db w))) (db w)) w,
     Val tt).
Proof. destruct w as [d n f o]; simpl; intros ->. reflexivity. Qed.

Lemma getApiKey_run key w :
  faults w = [] ->
  getApiKey key w = (w, Val (select_api_key key (apiKeys (db w)))).
Proof. destruct w as [d n f o]; simpl; intros ->. reflexivity. Qed.

Lemma head_filter_In {A} (f : A -> bool) (l : list A) (a : A) :
  head (filter f l) = Some a -> In a l /\ f a = true.
Proof.
  intros H. apply filter_In. destruct (filter f l) as [|x xs]; [discriminate|].
  injection H as ->. now left.
Qed.

Lemma unique_by {A B} (g : A -> B) (l : list A) (a b : A) :
  NoDup (map g l) -> In a l -> In b l -> g a = g b -> a = b.
Proof.
  induction l as [|x xs IH]; simpl; [tauto|].
  intros Hnd Ha Hb Hg. inversion Hnd as [|? ? Hnotin Hnd']; subst.
  destruct Ha as [-> | Ha], Hb as [-> | Hb]; auto.
  - exfalso. apply Hnotin. rewrite Hg. now apply in_map.
  - exfalso. apply Hnotin. rewrite <- Hg. now apply in_map.
Qed.

(** X24.  DELETE /api/user/api-keys/:id never removes a key of another
    user: whatever id the caller names and whatever the outcome, every
    stored key that belongs to someone else is still stored afterwards, and
    the users table is untouched. *)
Theorem delete_api_key_spares_other_users :
  forall caller id w w' r,
    faults w = [] ->
    NoDup (map k_id (apiKeys (db w))) ->
    delete_api_key caller id w = (w', r) ->
    users (db w') = users (db w)
    /\ forall k, In k (apiKeys (db w)) -> k_userId k <> u_id caller ->
                 In k (apiKeys (db w')).
Proof.
  intros caller id w w' r Hf Hids Hrun. unfold delete_api_key in Hrun.
  erewrite bind_val in Hrun by (apply getApiKeyById_run; exact Hf).
  destruct (head (filter (fun k => k_id k =? id) (apiKeys (db w)))) as [k0|] eqn:E0;
    [|injection Hrun as <- _; now split].
  destruct (k_userId k0 =? u_id caller) eqn:Eown; cbn [negb] in Hrun;
    [|injection Hrun as <- _; now split].
  erewrite bind_val in Hrun by (apply deleteApiKey_run; exact Hf).
  injection Hrun as <- _. simpl. split; [reflexivity|].
  intros k Hin Hother. apply filter_In. split; [exact Hin|].
  destruct (k_id k =? id) eqn:Eid; [|reflexivity].
  destruct (head_filter_In _ _ _ E0) as [Hin0 Hid0].
  apply Z.eqb_eq in Eid, Hid0, Eown.
  assert (k = k0) by (apply (unique_by k_id (apiKeys (db w))); auto; congruence).
  subst k0. contradiction.
Qed.

Lemma delete_api_key_spares_other_users_witness :
  users (db (fst (delete_api_key Demo.bob 1 Samples.w_keys))) = users (db Samples.w_keys)
  /\ forall k, In k (apiKeys (db Samples.w_keys)) -> k_userId k <> u_id Demo.bob ->
               In k (apiKeys (db (fst (delete_api_key Demo.bob 1 Samples.w_keys)))).
Proof.
  apply (delete_api_key_spares_other_users Demo.bob 1 Samples.w_keys _
           (snd (delete_api_key Demo.bob 1 Samples.w_keys))); try reflexivity.
  simpl. repeat constructor; simpl; intuition discriminate.
Defined.



Lemma markApiKeyAsUsed_run id w :
  faults w = [] ->
  markApiKeyAsUsed id w
  = (set_db (set_apiKeys (mark_key_used id (now w) (apiKeys (db w))) (db w)) w, Val tt).
Proof. destruct w as [d n f o]; simpl; intros ->. reflexivity. Qed.

Lemma validateApiKey_run req w key k user :
  faults w = [] ->
  req_x_api_key req = Some key -> key <> "" ->
  select_api_key key (apiKeys (db w)) = Some k ->
  k_active k = true ->
  (forall e, k_expiresAt k = Some e -> now w <= e) ->
  (forall ips, k_ipRestrictions k = Some ips -> ips = [] \/ In (req_ip req) ips) ->
  select_user_by_id (k_userId k) (users (db w)) = Some user ->
  u_isBlocked user = false ->
  u_isVerified user = true ->
  validateApiKey req w
  = (set_db (set_apiKeys (mark_key_used (k_id k) (now w) (apiKeys (db w))) (db w)) w,
     Next (mkRequest (req_method req) (req_path req) (req_authorization req)
                     (req_x_api_key req) (req_ip req) (Some user) (Some k) (req_body req))).
Proof.
  intros Hf Hkey Hne Hsel Hact Hexp Hip Hu Hblk Hver.
  unfold validateApiKey, catch_500. rewrite Hkey.
  cbn [truthy_str opt_or]. rewrite (proj2 (String.eqb_neq _ _) Hne). cbn [negb].
  run_with getApiKey_run. rewrite Hsel, Hact. cbn [negb].
  erewrite bind_val by reflexivity.
  assert (match k_expiresAt k with Some e => e <? now w | None => false end = false) as ->.
  { destruct (k_expiresAt k) as [e|]; [|reflexivity]. apply Z.ltb_ge. now apply Hexp. }
  assert (match k_ipRestrictions k with
          | Some ips => (0 <? Z.of_nat (length ips))
                        && negb (existsb (String.eqb (req_ip req)) ips)
          | None => false
          end = false) as ->.
  { destruct (k_ipRestrictions k) as [ips|]; [|reflexivity].
    destruct (Hip ips eq_refl) as [-> | Hin]; [reflexivity|].
    assert (existsb (String.eqb (req_ip req)) ips = true) as ->.
    { apply existsb_exists. exists (req_ip req). split; [exact Hin | apply String.eqb_refl]. }
    apply andb_false_r. }
  run_with getUser_run. rewrite Hu, Hblk, Hver. cbn [negb].
  run_with markApiKeyAsUsed_run. reflexivity.
Qed.

(** X26.  With no fault injected, [validateApiKey] lets a request through
    whenever its [x-api-key] header names a stored key that is active, not
    past its expiry and allowed from the caller's address, and the key's
    owner is stored, verified and not blocked.  It records the use in
    [lastUsed] and sets [req.user] to the owner. *)
Theorem validateApiKey_accepts :
  forall req w key k user,
    faults w = [] ->
    req_x_api_key req = Some key -> key <> "" ->
    select_api_key key (apiKeys (db w)) = Some k ->
    k_active k = true ->
    (forall e, k_expiresAt k = Some e -> now w <= e) ->
    (forall ips, k_ipRestrictions k = Some ips -> ips = [] \/ In (req_ip req) ips) ->
    select_user_by_id (k_userId k) (users (db w)) = Some user ->
    u_isBlocked user = false ->
    u_isVerified user = true ->
    exists w' req',
      validateApiKey req w = (w', Next req')
      /\ req_user req' = Some user
      /\ req_body req' = req_body req
      /\ apiKeys (db w') = mark_key_used (k_id k) (now w) (apiKeys (db w))
      /\ users (db w') = users (db w).
Proof.
  intros req w key k user Hf Hkey Hne Hsel Hact Hexp Hip Hu Hblk Hver.
  eexists; eexists. split.
  - exact (validateApiKey_run req w key k user Hf Hkey Hne Hsel Hact Hexp Hip Hu Hblk Hver).
  - repeat split.
Qed.

Lemma validateApiKey_accepts_witness :
  exists w' req',
    validateApiKey (Samples.key_request "k-alice" empty_body) Samples.w_keys = (w', Next req')
    /\ req_user req' = Some Demo.alice
    /\ req_body req' = req_body (Samples.key_request "k-alice" empty_body)
    /\ apiKeys (db w')
       = mark_key_used (k_id Samples.alice_key) (now Samples.w_keys)
                       (apiKeys (db Samples.w_keys))
    /\ users (db w') = users (db Samples.w_keys).
Proof.
  apply (validateApiKey_accepts (Samples.key_request "k-alice" empty_body) Samples.w_keys
           "k-alice" Samples.alice_key Demo.alice);
    try reflexivity; try discriminate.
  - intros e [= <-]. discriminate.
  - intros ips [= <-]. right. now left.
Defined.

Lemma createApiKey_throws id userId data w :
  createApiKey id userId data w = (w, Throw ReferenceError).
Proof. reflexivity. Qed.

(** X27.  POST /api/user/api-keys never creates a key.  Whatever the body
    and the fault plan, the database is afterwards as it was, and the only
    answer the handler gives itself is the 400 of the five-key limit: a 201
    is never sent, because [storage.createApiKey] throws a ReferenceError
    ([randomBytes] is not defined in [server/storage.ts]) before it
    inserts. *)
Theorem create_api_key_never_creates :
  forall caller id b w w' r,
    create_api_key caller id b w = (w', r) ->
    db w' = db w
    /\ (forall code reply, r = Val (code, reply) -> code = 400).
Proof.
  intros caller id b w w' r Hrun.
  unfold create_api_key, createApiKeySchema in Hrun.
  destruct (ck_name b) as [name|]; [|injection Hrun as <- <-; split; [reflexivity|discriminate]].
  destruct (ck_permissions b) as [permissions|];
    [|injection Hrun as <- <-; split; [reflexivity|discriminate]].
  destruct (_ && _ && _ && _);
    [|erewrite bind_throw in Hrun by reflexivity; injection Hrun as <- <-;
      split; [reflexivity|discriminate]].
  match type of Hrun with
  | context [@ret M Monad_M _ ?x] => change (@ret M Monad_M _ x) with (@M_ret _ x) in Hrun
  end.
  unfold bind at 1 in Hrun. cbn [Monad_M] in Hrun. unfold M_bind at 1, M_ret in Hrun.
  destruct (bind_inv _ _ _ _ _ Hrun) as [(e & Hget & ->) | (w1 & existingKeys & Hget & Hrest)];
    unfold getUserApiKeys, storage in Hget;
    destruct (io_inv _ _ _ _ Hget) as [(e' & He & Hd & _) | (w0 & a & Hd & _ & Hop & Ha)].
  - split; [exact Hd | discriminate].
  - discriminate.
  - discriminate.
  - assert (db w1 = db w) as Hd1.
    { destruct w0 as [d0 n0 f0 o0]. simpl in Hd, Hop. subst d0.
      now injection Hop as <- _. }
    destruct (5 <=? Z.of_nat (length existingKeys)).
    + injection Hrest as <- <-. split; [exact Hd1|]. now intros code reply [= <- _].
    + erewrite bind_throw in Hrest by apply createApiKey_throws.
      injection Hrest as <- <-. split; [exact Hd1 | discriminate].
Qed.

Lemma create_api_key_never_creates_witness :
  db (fst (create_api_key Demo.bob 3 (key_body "website" ["transfer"]) Samples.w_keys))
  = db Samples.w_keys
  /\ (forall code reply,
         snd (create_api_key Demo.bob 3 (key_body "website" ["transfer"]) Samples.w_keys)
         = Val (code, reply) -> code = 400).
Proof.
  apply (create_api_key_never_creates Demo.bob 3 (key_body "website" ["transfer"])
           Samples.w_keys). reflexivity.
Defined.

(** X28.  A request to POST /api/user/api-keys that is in order (a name of
    3 to 255 characters, permissions among transfer, balance and history,
    no [expiresAt], fewer than five keys of the caller, no fault injected)
    is not answered by the handler: the ReferenceError of
    [storage.createApiKey] goes to its [catch] and on to [next(error)], and
    the world is as it was. *)
Theorem create_api_key_fails_when_in_order :
  forall caller id b w name permissions,
    faults w = [] ->
    ck_name b = Some name -> ck_permissions b = Some permissions ->
    (3 <= String.length name <= 255)%nat ->
    forallb is_permission permissions = true ->
    ck_has_expiresAt b = false ->
    (length (filter (fun k => Z.eqb (k_userId k) (u_id caller)) (apiKeys (db w))) < 5)%nat ->
    create_api_key caller id b w = (w, Throw ReferenceError).
Proof.
  intros caller id b w name permissions Hf Hname Hperm [Hlo Hhi] Hvalid Hexp Hcount.
  unfold create_api_key, createApiKeySchema. rewrite Hname, Hperm, Hvalid, Hexp.
  assert ((3 <=? Z.of_nat (String.length name)) = true) as -> by (apply Z.leb_le; lia).
  assert ((Z.of_nat (String.length name) <=? 255) = true) as -> by (apply Z.leb_le; lia).
  cbn [andb negb].
  match goal with
  | |- context [@ret M Monad_M _ ?x] => change (@ret M Monad_M _ x) with (@M_ret _ x)
  end.
  unfold bind at 1. cbn [Monad_M]. unfold M_bind at 1, M_ret.
  run_with getUserApiKeys_run.
  assert ((5 <=? Z.of_nat (length (filter (fun k => Z.eqb (k_userId k) (u_id caller))
                                          (apiKeys (db w))))) = false) as ->
      by (apply Z.leb_gt; lia).
  now erewrite bind_throw by apply createApiKey_throws.
Qed.

Lemma create_api_key_fails_when_in_order_witness :
  create_api_key Demo.bob 3 (key_body "website" ["transfer"]) Samples.w_keys
  = (Samples.w_keys, Throw ReferenceError).
Proof.
  apply (create_api_key_fails_when_in_order Demo.bob 3 (key_body "website" ["transfer"])
           Samples.w_keys "website" ["transfer"]);
    try reflexivity; simpl; lia.
Defined.

(** ** GET /api/users/search *)

Lemma In_firstn {A} n (l : list A) a : In a (firstn n l) -> In a l.
Proof.
  revert l. induction n as [|n IH]; intros [|x xs]; simpl; try tauto.
  intros [-> | H]; [now left | right; now apply IH].
Qed.

(** X29.  The user search answers with at most five entries, and every
    entry is a stored user that is verified, not blocked, not the caller,
    and whose lower-cased e-mail contains the lower-cased query; an entry
    carries id, e-mail and name only.  A missing or empty query is answered
    with 400. *)
Theorem users_search_results_are_safe :
  forall toLowerCase by_createdAt caller email w w' code results,
    (forall us u, In u (by_createdAt us) -> In u us) ->
    users_search toLowerCase by_createdAt caller email w
    = (w', Val (code, SearchResults results)) ->
    (length results <= 5)%nat
    /\ (exists q, email = Some q /\ q <> ""
        /\ forall r, In r results ->
             exists u, In u (users (db w))
                       /\ su_id r = u_id u /\ su_email r = u_email u /\ su_name r = u_name u
                       /\ u_isVerified u = true /\ u_isBlocked u = false
                       /\ u_id u <> u_id caller
                       /\ includes (toLowerCase q) (toLowerCase (u_email u)) = true).
Proof.
  intros toLowerCase by_createdAt caller email w w' code results Horder Hrun.
  unfold users_search in Hrun.
  destruct (truthy_str email) eqn:Eq; [|discriminate Hrun]. unfold negb in Hrun.
  destruct (truthy_str_Some _ Eq) as (q & -> & Hq). unfold opt_or in Hrun.
  destruct (bind_inv _ _ _ _ _ Hrun) as [(e & _ & [=]) | (w1 & us & Hget & Hrest)].
  match type of Hrest with
  | context [firstn 5 ?l] => remember (firstn 5 l) as res eqn:Hres in Hrest
  end.
  unfold ret, Monad_M, M_ret in Hrest. injection Hrest as _ _ <-. subst res.
  assert (forall u, In u us -> In u (users (db w))) as Hsub.
  { unfold storage in Hget.
    destruct (io_inv _ _ _ _ Hget) as [(e & [=] & _) | (w0 & a & Hd & _ & Hop & [= <-])].
    destruct w0 as [d0 n0 f0 o0]. simpl in Hop, Hd. injection Hop as _ <-.
    intros u Hu. rewrite <- Hd. now apply Horder. }
  split; [apply firstn_le_length|].
  exists q. split; [reflexivity|]. split; [exact Hq|].
  intros r Hr. apply In_firstn in Hr. apply in_map_iff in Hr.
  destruct Hr as (u & <- & Hu). apply filter_In in Hu. destruct Hu as [Hin Hf].
  repeat (apply andb_prop in Hf; destruct Hf as [Hf ?]).
  exists u. repeat split; auto.
  - now apply negb_true_iff.
  - apply Z.eqb_neq. now apply negb_true_iff.
Qed.

Lemma users_search_results_are_safe_witness :
  (length [mkSafeUser 2 "bob@example.com" "Bob"; mkSafeUser 3 "root@example.com" "Root"]
   <= 5)%nat
  /\ (exists q, Some "example" = Some q /\ q <> ""
      /\ forall r,
          In r [mkSafeUser 2 "bob@example.com" "Bob"; mkSafeUser 3 "root@example.com" "Root"] ->
          exists u, In u (users (db Demo.w0))
                    /\ su_id r = u_id u /\ su_email r = u_email u /\ su_name r = u_name u
                    /\ u_isVerified u = true /\ u_isBlocked u = false
                    /\ u_id u <> u_id Demo.alice
                    /\ includes ((fun s : string => s) q) ((fun s : string => s) (u_email u))
                       = true).
Proof.
  apply (users_search_results_are_safe (fun s => s) (fun us => us) Demo.alice
           (Some "example") Demo.w0 Demo.w0 200).
  - intros us u H. exact H.
  - reflexivity.
Defined.

(** ** [truncateText] of [client/src/lib/utils.ts] *)

Lemma length_append s1 s2 :
  String.length (s1 ++ s2) = (String.length s1 + String.length s2)%nat.
Proof. induction s1 as [|c s1 IH]; simpl; [reflexivity | now rewrite IH]. Qed.

Lemma length_substring_0 n s :
  (n <= String.length s)%nat -> String.length (String.substring 0 n s) = n.
Proof.
  revert s. induction n as [|n IH]; intros [|c s] H; simpl in *; try reflexivity;
    [lia | rewrite IH; [reflexivity | lia]].
Qed.

Lemma prefix_substring_0 n s : String.prefix (String.substring 0 n s) s = true.
Proof.
  revert s. induction n as [|n IH]; intros [|c s]; simpl; try reflexivity.
  destruct (ascii_dec c c) as [_|Hne]; [apply IH | now elim Hne].
Qed.

(** X30.  [truncateText] with a [maxLength] that is not negative and
    smaller than the length of the text returns the first [maxLength]
    characters of the text followed by three dots: a string of
    [maxLength + 3] characters, so longer than [maxLength], and longer than
    the text itself when fewer than three characters were cut. *)
Theorem truncateText_shape :
  forall text maxLength,
    0 <= maxLength ->
    maxLength < Z.of_nat (String.length text) ->
    exists head,
      truncateText text maxLength = head ++ "..."
      /\ String.prefix head text = true
      /\ Z.of_nat (String.length head) = maxLength
      /\ Z.of_nat (String.length (truncateText text maxLength)) = maxLength + 3.
Proof.
  intros text maxLength Hmax Hlong. unfold truncateText.
  rewrite (proj2 (Z.leb_gt _ _) Hlong).
  exists (String.substring 0 (Z.to_nat maxLength) text).
  split; [reflexivity|]. split; [apply prefix_substring_0|].
  assert (String.length (String.substring 0 (Z.to_nat maxLength) text)
          = Z.to_nat maxLength) as Hlen by (apply length_substring_0; lia).
  split; [rewrite Hlen; lia|].
  rewrite length_append, Hlen. simpl. lia.
Qed.

Lemma truncateText_shape_witness :
  exists head,
    truncateText "wallet" 4 = head ++ "..."
    /\ String.prefix head "wallet" = true
    /\ Z.of_nat (String.length head) = 4
    /\ Z.of_nat (String.length (truncateText "wallet" 4)) = 4 + 3.
Proof. apply (truncateText_shape "wallet" 4); simpl; lia. Defined.
